(** * agp_survey_scarper: survey-page extraction, filtering and the batch script

    A shallow embedding of [Github-app.py] and [biosample_scraper.py].

    Conventions of the embedding.
    - A Python [str] is a list of characters; a character is an [ascii],
      read as the code point 0..255 (the Latin-1 range, which [strip],
      [lower], [split] and the patterns of the program never leave).
    - The three searches of [parse_survey_page] run under [re.I], which
      takes four code points beyond 255 for ASCII letters; they are
      modelled on texts of arbitrary code points as well (module
      [Unicode]), and the statements on the identifiers are made there.
    - Python exceptions are the [Raise] results of a small error monad.
    - The pandas frames, the BeautifulSoup tree and the [re] engine are
      modelled as far as the two scripts use them. *)

From Stdlib Require DecimalString.
From Stdlib Require Import String Ascii List Bool Arith NArith ZArith Lia.
Import ListNotations.

Set Implicit Arguments.

(* ================================================================== *)
(** * Characters and strings *)
(* ================================================================== *)

Module PyStr.

Definition str := list ascii.

(** String literals of the source are written [lit "..."]. *)
Definition lit (s : string) : str := list_ascii_of_string s.
Arguments lit s : simpl never.

Definition code (c : ascii) : N := N_of_ascii c.

Definition between (lo hi : N) (c : ascii) : bool :=
  ((lo <=? code c) && (code c <=? hi))%N.

(** [str.isspace] on one character: TAB..CR, FS..US, SPACE, NEL, NBSP. *)
Definition isspace (c : ascii) : bool :=
  between 9 13 c || between 28 32 c || (code c =? 133)%N || (code c =? 160)%N.

(** Upper-case letters: A-Z and the Latin-1 capitals except the
    multiplication sign. *)
Definition isupper (c : ascii) : bool :=
  between 65 90 c || (between 192 222 c && negb (code c =? 215)%N).

(** Lower-case letters that have a capital in the same range. *)
Definition islower_paired (c : ascii) : bool :=
  between 97 122 c || (between 224 254 c && negb (code c =? 247)%N).

Definition lower_char (c : ascii) : ascii :=
  if isupper c then ascii_of_N (code c + 32) else c.

Definition other_case (c : ascii) : ascii :=
  if isupper c then ascii_of_N (code c + 32)
  else if islower_paired c then ascii_of_N (code c - 32)
  else c.

(** [s.lower()] *)
Definition lower (s : str) : str := map lower_char s.

Fixpoint lstrip (s : str) : str :=
  match s with
  | c :: s' => if isspace c then lstrip s' else s
  | [] => []
  end.

Definition rstrip (s : str) : str := rev (lstrip (rev s)).

(** [s.strip()] *)
Definition strip (s : str) : str := rstrip (lstrip s).

(** [c in s] for a one-character string [c]. *)
Definition contains_char (c : ascii) (s : str) : bool :=
  existsb (Ascii.eqb c) s.

(** [s.partition(c)]: the text before the first [c] and the text after
    it, when there is one. *)
Fixpoint break_at (c : ascii) (s : str) : option (str * str) :=
  match s with
  | [] => None
  | x :: s' =>
      if Ascii.eqb x c then Some ([], s')
      else match break_at c s' with
           | Some (a, b) => Some (x :: a, b)
           | None => None
           end
  end.

(** [s.split(c, maxsplit)] *)
Fixpoint split (c : ascii) (maxsplit : nat) (s : str) : list str :=
  match maxsplit with
  | O => [s]
  | S k =>
      match break_at c s with
      | Some (a, b) => a :: split c k b
      | None => [s]
      end
  end.

Fixpoint prefixb (p s : str) : bool :=
  match p, s with
  | [], _ => true
  | x :: p', y :: s' => Ascii.eqb x y && prefixb p' s'
  | _ :: _, [] => false
  end.

(** [p in s] for strings. *)
Fixpoint substringb (p s : str) : bool :=
  prefixb p s ||
  match s with
  | [] => false
  | _ :: s' => substringb p s'
  end.

Fixpoint str_eqb (a b : str) : bool :=
  match a, b with
  | [], [] => true
  | x :: a', y :: b' => Ascii.eqb x y && str_eqb a' b'
  | _, _ => false
  end.

(** [sep.join(parts)] *)
Fixpoint join (sep : str) (parts : list str) : str :=
  match parts with
  | [] => []
  | [p] => p
  | p :: rest => p ++ sep ++ join sep rest
  end.

End PyStr.
Import PyStr.

(* ================================================================== *)
(** * Exceptions *)
(* ================================================================== *)

(** The exceptions the two scripts can meet.  [Unmodelled] is no
    exception of Python: it reports a pattern outside the fragment of
    the pattern language that [Re.compile] models. *)
Inductive exn :=
| ValueError
| KeyError
| FileNotFoundError
| OSError
| SystemExit (status : Z)
| Unmodelled.

Inductive result (A : Type) :=
| Ok (a : A)
| Raise (e : exn).
Arguments Ok {A} a.
Arguments Raise {A} e.

Definition bind {A B} (m : result A) (f : A -> result B) : result B :=
  match m with
  | Ok a => f a
  | Raise e => Raise e
  end.

Notation "x <- m ;; k" := (bind m (fun x => k))
  (at level 61, m at next level, right associativity).

(* ================================================================== *)
(** * The [re] module: a backtracking matcher *)
(* ================================================================== *)

Module Re.

(** Compiled patterns.  [In] is a character class given by its ranges
    (a single member [c] is the range [(c, c)]); [Plus] is the greedy
    [+]; [Group n] is the [n]-th capturing group. *)
Inductive regex :=
| Eps
| Lit (c : ascii)
| Any
| In (ranges : list (ascii * ascii))
| Seq (r1 r2 : regex)
| Alt (r1 r2 : regex)
| Plus (r : regex)
| Group (n : nat) (r : regex).

Definition groups := list (nat * str).

Definition in_ranges (ranges : list (ascii * ascii)) (c : ascii) : bool :=
  existsb (fun r => between (code (fst r)) (code (snd r)) c) ranges.

(** One literal against one character, with or without [re.I]. *)
Definition lit_matches (ic : bool) (p c : ascii) : bool :=
  if ic then Ascii.eqb (lower_char p) (lower_char c) else Ascii.eqb p c.

(** One class against one character, with or without [re.I]. *)
Definition set_matches (ic : bool) (ranges : list (ascii * ascii)) (c : ascii)
  : bool :=
  in_ranges ranges c || (ic && in_ranges ranges (other_case c)).

Definition newline : ascii := ascii_of_N 10.

Section Matcher.
Variable A : Type.
Variable ic : bool.

(** [matcher r s g k]: match [r] at the head of [s], then hand the rest
    of the input and the groups to [k]; alternatives are tried in the
    order of the [re] module (left branch first, longest repetition
    first), and the first success is the answer. *)
Fixpoint matcher (r : regex) (s : str) (g : groups)
         (k : str -> groups -> option A) {struct r} : option A :=
  match r with
  | Eps => k s g
  | Lit p =>
      match s with
      | c :: s' => if lit_matches ic p c then k s' g else None
      | [] => None
      end
  | Any =>
      match s with
      | c :: s' => if Ascii.eqb c newline then None else k s' g
      | [] => None
      end
  | In rs =>
      match s with
      | c :: s' => if set_matches ic rs c then k s' g else None
      | [] => None
      end
  | Seq r1 r2 => matcher r1 s g (fun s1 g1 => matcher r2 s1 g1 k)
  | Alt r1 r2 =>
      match matcher r1 s g k with
      | Some x => Some x
      | None => matcher r2 s g k
      end
  | Plus r1 =>
      (fix loop (fuel : nat) (s : str) (g : groups) {struct fuel}
         : option A :=
         match fuel with
         | O => None
         | S f =>
             matcher r1 s g
               (fun s1 g1 =>
                  if length s1 <? length s then
                    match loop f s1 g1 with
                    | Some x => Some x
                    | None => k s1 g1
                    end
                  else k s1 g1)
         end) (S (length s)) s g
  | Group n r1 =>
      matcher r1 s g
        (fun s1 g1 => k s1 ((n, firstn (length s - length s1) s) :: g1))
  end.
End Matcher.

(** Match objects: where the match starts, its text, its groups. *)
Record match_obj := {
  m_start : nat;
  m_text : str;
  m_groups : groups
}.

Fixpoint assoc (n : nat) (g : groups) : option str :=
  match g with
  | [] => None
  | (i, s) :: g' => if Nat.eqb i n then Some s else assoc n g'
  end.

(** [m.group(n)] for [n >= 1]; a group that took no part gives [None]. *)
Definition group (mo : match_obj) (n : nat) : option str :=
  assoc n (m_groups mo).

Definition match_here (ic : bool) (r : regex) (s : str)
  : option (str * groups) :=
  matcher ic r s [] (fun rest g => Some (rest, g)).

(** Leftmost match, scanning start positions from [pos]. *)
Fixpoint search_at (ic : bool) (r : regex) (pos : nat) (s : str)
  : option match_obj :=
  match match_here ic r s with
  | Some (rest, g) =>
      Some {| m_start := pos;
              m_text := firstn (length s - length rest) s;
              m_groups := g |}
  | None =>
      match s with
      | [] => None
      | _ :: s' => search_at ic r (S pos) s'
      end
  end.

Definition search_re (ic : bool) (r : regex) (s : str) : option match_obj :=
  search_at ic r 0 s.

(** Replacement of every non-overlapping match, left to right.  After an
    empty match the next match at the same place has to be non-empty. *)
Fixpoint sub_loop (fuel : nat) (ic : bool) (r : regex) (repl : str)
         (must_advance : bool) (s : str) : str :=
  match fuel with
  | O => s
  | S f =>
      match
        matcher ic r s []
          (fun rest _ =>
             if must_advance && (length rest =? length s) then None
             else Some rest)
      with
      | Some rest =>
          if length rest <? length s
          then repl ++ sub_loop f ic r repl false rest
          else repl ++ sub_loop f ic r repl true s
      | None =>
          match s with
          | [] => []
          | c :: s' => c :: sub_loop f ic r repl false s'
          end
      end
  end.

Definition sub_re (ic : bool) (r : regex) (repl s : str) : str :=
  sub_loop (2 * length s + 2) ic r repl false s.

(** ** Pattern syntax

    The fragment of the pattern language that is modelled: literals,
    [.], classes [[...]] with ranges and escapes, capturing groups,
    [|] and the postfix [+].  Anything else ([*], [?], [{], anchors,
    negated classes, class escapes such as [\d], look-arounds) and every
    malformed pattern compiles to [None]. *)

Inductive token :=
| TLit (c : ascii)
| TAny
| TSet (ranges : list (ascii * ascii))
| TOpen
| TClose
| TBar
| TPlus.

Definition is_alnum (c : ascii) : bool :=
  between 48 57 c || between 65 90 c || between 97 122 c.

(** The character a backslash escape stands for. *)
Definition escape (c : ascii) : option ascii :=
  if Ascii.eqb c "t" then Some (ascii_of_N 9)
  else if Ascii.eqb c "n" then Some (ascii_of_N 10)
  else if Ascii.eqb c "r" then Some (ascii_of_N 13)
  else if is_alnum c || negb (between 33 126 c) then None
  else Some c.

Definition class_char (s : str) : option (ascii * str) :=
  match s with
  | [] => None
  | c :: s' =>
      if Ascii.eqb c "\" then
        match s' with
        | e :: s'' =>
            match escape e with
            | Some x => Some (x, s'')
            | None => None
            end
        | [] => None
        end
      else if Ascii.eqb c "[" then None
      else Some (c, s')
  end.

Fixpoint lex_class (fuel : nat) (s : str)
  : option (list (ascii * ascii) * str) :=
  match fuel with
  | O => None
  | S f =>
      match s with
      | [] => None
      | c :: s' =>
          if Ascii.eqb c "]" then Some ([], s')
          else
            match class_char s with
            | None => None
            | Some (lo, s1) =>
                match s1 with
                | d :: e :: s2 =>
                    if Ascii.eqb d "-" then
                      if Ascii.eqb e "]" then Some ([(lo, lo); (d, d)], s2)
                      else
                        match class_char (e :: s2) with
                        | Some (hi, s3) =>
                            if (code lo <=? code hi)%N then
                              match lex_class f s3 with
                              | Some (rs, rest) => Some ((lo, hi) :: rs, rest)
                              | None => None
                              end
                            else None
                        | None => None
                        end
                    else
                      match lex_class f s1 with
                      | Some (rs, rest) => Some ((lo, lo) :: rs, rest)
                      | None => None
                      end
                | _ =>
                    match lex_class f s1 with
                    | Some (rs, rest) => Some ((lo, lo) :: rs, rest)
                    | None => None
                    end
                end
            end
      end
  end.

(** The characters with a meaning of their own in a pattern. *)
Definition metachar (c : ascii) : bool :=
  contains_char c (lit ".^$*+?{}[]\|()").

Fixpoint lex (fuel : nat) (s : str) : option (list token) :=
  match fuel with
  | O => None
  | S f =>
      match s with
      | [] => Some []
      | c :: s' =>
          let continue (t : token) (rest : str) :=
            match lex f rest with
            | Some ts => Some (t :: ts)
            | None => None
            end in
          if Ascii.eqb c "\" then
            match s' with
            | e :: s'' =>
                match escape e with
                | Some x => continue (TLit x) s''
                | None => None
                end
            | [] => None
            end
          else if Ascii.eqb c "[" then
            match s' with
            | [] => None
            | d :: _ =>
                if Ascii.eqb d "^" || Ascii.eqb d "]" then None
                else
                  match lex_class (length s') s' with
                  | Some (rs, rest) => continue (TSet rs) rest
                  | None => None
                  end
            end
          else if Ascii.eqb c "(" then
            match s' with
            | d :: _ => if Ascii.eqb d "?" then None else continue TOpen s'
            | [] => continue TOpen s'
            end
          else if Ascii.eqb c ")" then continue TClose s'
          else if Ascii.eqb c "|" then continue TBar s'
          else if Ascii.eqb c "+" then continue TPlus s'
          else if Ascii.eqb c "." then continue TAny s'
          else if metachar c then None
          else continue (TLit c) s'
      end
  end.

Fixpoint parse_alt (fuel n : nat) (ts : list token)
  : option (regex * nat * list token) :=
  match fuel with
  | O => None
  | S f =>
      match parse_seq f n ts with
      | Some (r1, n1, TBar :: ts1) =>
          match parse_alt f n1 ts1 with
          | Some (r2, n2, ts2) => Some (Alt r1 r2, n2, ts2)
          | None => None
          end
      | other => other
      end
  end
with parse_seq (fuel n : nat) (ts : list token)
  : option (regex * nat * list token) :=
  match fuel with
  | O => None
  | S f =>
      match ts with
      | [] => Some (Eps, n, ts)
      | TBar :: _ => Some (Eps, n, ts)
      | TClose :: _ => Some (Eps, n, ts)
      | _ =>
          match parse_atom f n ts with
          | Some (a, n1, TPlus :: ts1) =>
              match parse_seq f n1 ts1 with
              | Some (r, n2, ts2) => Some (Seq (Plus a) r, n2, ts2)
              | None => None
              end
          | Some (a, n1, ts1) =>
              match parse_seq f n1 ts1 with
              | Some (r, n2, ts2) => Some (Seq a r, n2, ts2)
              | None => None
              end
          | None => None
          end
      end
  end
with parse_atom (fuel n : nat) (ts : list token)
  : option (regex * nat * list token) :=
  match fuel with
  | O => None
  | S f =>
      match ts with
      | TLit c :: ts' => Some (Lit c, n, ts')
      | TAny :: ts' => Some (Any, n, ts')
      | TSet rs :: ts' => Some (In rs, n, ts')
      | TOpen :: ts' =>
          match parse_alt f (S n) ts' with
          | Some (r, n1, TClose :: ts1) => Some (Group n r, n1, ts1)
          | _ => None
          end
      | _ => None
      end
  end.

(** [re.compile(pattern)] on the modelled fragment. *)
Definition compile (pattern : str) : option regex :=
  match lex (S (length pattern)) pattern with
  | Some ts =>
      match parse_alt (3 * length ts + 3) 1 ts with
      | Some (r, _, []) => Some r
      | _ => None
      end
  | None => None
  end.

End Re.

(** [re.search(pattern, text, flags)], with [ic] for the flag [re.I]. *)
Definition re_search (pattern text : str) (ic : bool)
  : result (option Re.match_obj) :=
  match Re.compile pattern with
  | Some r => Ok (Re.search_re ic r text)
  | None => Raise Unmodelled
  end.

(** [re.sub(pattern, repl, text)] *)
Definition re_sub (pattern repl text : str) : result str :=
  match Re.compile pattern with
  | Some r => Ok (Re.sub_re false r repl text)
  | None => Raise Unmodelled
  end.

(* ================================================================== *)
(** * BeautifulSoup: the parsed document *)
(* ================================================================== *)

Module Bs4.

(** A parsed document is a tree of tags and text.  Only the strings that
    [get_text] reads are kept as [NavigableString]s; the document itself
    is the root tag. *)
#[warnings="-register-all"]
Inductive node :=
| NavigableString (s : str)
| Tag (name : str) (contents : list node).

(** [tag.descendants]: every node below the tag, in document order. *)
Fixpoint descendants (t : node) : list node :=
  match t with
  | NavigableString _ => []
  | Tag _ cs => flat_map (fun c => c :: descendants c) cs
  end.

Definition has_name (names : list str) (n : node) : bool :=
  match n with
  | NavigableString _ => false
  | Tag nm _ => existsb (str_eqb nm) names
  end.

(** [tag.find_all(names)] *)
Definition find_all (names : list str) (t : node) : list node :=
  filter (has_name names) (descendants t).

(** The strings below a tag, in document order. *)
Definition all_strings (t : node) : list str :=
  flat_map (fun n => match n with
                     | NavigableString s => [s]
                     | Tag _ _ => []
                     end) (descendants t).

Definition nonempty (s : str) : bool :=
  match s with
  | [] => false
  | _ :: _ => true
  end.

(** [tag.get_text(separator, strip=...)] *)
Definition get_text (separator : str) (strip_ : bool) (t : node) : str :=
  join separator
       (if strip_ then filter nonempty (map strip (all_strings t))
        else all_strings t).

End Bs4.
Import Bs4.

(* ================================================================== *)
(** * pandas: frames and series *)
(* ================================================================== *)

Module Pd.

Inductive label :=
| IntLabel (n : nat)
| StrLabel (s : str).

Definition label_eqb (a b : label) : bool :=
  match a, b with
  | IntLabel n, IntLabel m => Nat.eqb n m
  | StrLabel s, StrLabel t => str_eqb s t
  | _, _ => false
  end.

(** One value of an object column: a string, or the missing value
    ([None] / [NaN]). *)
Definition cell := option str.

(** A frame: the column labels and the rows, in order.  The row index is
    not modelled. *)
Record DataFrame := {
  columns : list label;
  rows : list (list cell)
}.

Definition series := list cell.

Definition width (rs : list (list str)) : nat :=
  fold_right (fun r w => Nat.max (length r) w) 0 rs.

Definition pad (w : nat) (r : list str) : list cell :=
  map Some r ++ repeat None (w - length r).

(** [pd.DataFrame(rs)] for a list of lists: as many columns as the
    longest row has cells, shorter rows filled with the missing value. *)
Definition DataFrame_of_lists (rs : list (list str)) : DataFrame :=
  {| columns := map IntLabel (seq 0 (width rs));
     rows := map (pad (width rs)) rs |}.

(** [df.shape[1]] *)
Definition shape1 (df : DataFrame) : nat := length (columns df).

(** [df.iloc[:, :k]] *)
Definition iloc_cols (k : nat) (df : DataFrame) : DataFrame :=
  {| columns := firstn k (columns df);
     rows := map (firstn k) (rows df) |}.

(** [df.columns = names] *)
Definition set_columns (names : list label) (df : DataFrame)
  : result DataFrame :=
  if length names =? length (columns df)
  then Ok {| columns := names; rows := rows df |}
  else Raise ValueError.

(** [pd.DataFrame(rs, columns=names)] *)
Definition DataFrame_of_lists_named (rs : list (list str))
           (names : list label) : result DataFrame :=
  set_columns names (DataFrame_of_lists rs).

(** [pd.DataFrame(columns=names)] *)
Definition DataFrame_empty (names : list label) : DataFrame :=
  {| columns := names; rows := [] |}.

Fixpoint index_of (name : label) (cols : list label) : option nat :=
  match cols with
  | [] => None
  | c :: cols' =>
      if label_eqb c name then Some 0
      else option_map S (index_of name cols')
  end.

Fixpoint replace_nth {A} (i : nat) (v : A) (l : list A) : list A :=
  match l, i with
  | [], _ => []
  | _ :: l', O => v :: l'
  | x :: l', S j => x :: replace_nth j v l'
  end.

(** [df[name] = v] for a scalar [v]: the column is overwritten when it
    exists and appended otherwise. *)
Definition setitem_scalar (df : DataFrame) (name : label) (v : cell)
  : DataFrame :=
  match index_of name (columns df) with
  | Some i => {| columns := columns df;
                 rows := map (replace_nth i v) (rows df) |}
  | None => {| columns := columns df ++ [name];
               rows := map (fun r => r ++ [v]) (rows df) |}
  end.

(** [df[name]] *)
Definition getitem (df : DataFrame) (name : label) : result series :=
  match index_of name (columns df) with
  | Some i => Ok (map (fun r => nth i r None) (rows df))
  | None => Raise KeyError
  end.

(** [df[name] = s] for a series [s] on the frame's own index. *)
Definition setitem_series (df : DataFrame) (name : label) (s : series)
  : result DataFrame :=
  if length s =? length (rows df) then
    match index_of name (columns df) with
    | Some i =>
        Ok {| columns := columns df;
              rows := map (fun rv => replace_nth i (snd rv) (fst rv))
                          (combine (rows df) s) |}
    | None =>
        Ok {| columns := columns df ++ [name];
              rows := map (fun rv => fst rv ++ [snd rv])
                          (combine (rows df) s) |}
    end
  else Raise ValueError.

(** [s.str.lower()] *)
Definition str_lower (s : series) : series := map (option_map lower) s.

(** [s.str.contains(pat, na=na)]: [pat] is a regular expression (the
    default [regex=True]), searched in every string of the series. *)
Definition str_contains (s : series) (pat : str) (na : bool)
  : result (list bool) :=
  match Re.compile pat with
  | Some r =>
      Ok (map (fun c => match c with
                        | Some x =>
                            match Re.search_re false r x with
                            | Some _ => true
                            | None => false
                            end
                        | None => na
                        end) s)
  | None => Raise Unmodelled
  end.

Fixpoint select {A} (l : list A) (mask : list bool) : list A :=
  match l, mask with
  | x :: l', b :: mask' => if b then x :: select l' mask' else select l' mask'
  | _, _ => []
  end.

(** [df[mask]] for a boolean series [mask] *)
Definition bool_index (df : DataFrame) (mask : list bool) : DataFrame :=
  {| columns := columns df; rows := select (rows df) mask |}.

(** [s.fillna(v)] *)
Definition fillna (s : series) (v : str) : series :=
  map (fun c => match c with Some x => Some x | None => Some v end) s.

(** [s + t] for a string [t] *)
Definition add_str (s : series) (t : str) : series :=
  map (option_map (fun x => x ++ t)) s.

(** [s + t] for two series on the same index *)
Definition add (s t : series) : series :=
  map (fun ab => match ab with
                 | (Some a, Some b) => Some (a ++ b)
                 | _ => None
                 end) (combine s t).

Definition cell_eqb (a b : cell) : bool :=
  match a, b with
  | Some x, Some y => str_eqb x y
  | None, None => true
  | _, _ => false
  end.

(** [s.unique()]: the distinct values in order of first appearance. *)
Fixpoint unique_acc (seen : list cell) (s : series) : list cell :=
  match s with
  | [] => []
  | c :: s' =>
      if existsb (cell_eqb c) seen then unique_acc seen s'
      else c :: unique_acc (c :: seen) s'
  end.

Definition unique (s : series) : list cell := unique_acc [] s.

(** [a[:n]] for a Python integer [n] *)
Definition slice_to {A} (a : list A) (n : Z) : list A :=
  if (0 <=? n)%Z then firstn (Z.to_nat n) a
  else firstn (length a - Z.to_nat (- n)) a.

(** [s.isin(values)] *)
Definition isin (s : series) (values : list cell) : list bool :=
  map (fun c => existsb (cell_eqb c) values) s.

End Pd.
Import Pd.

(* ================================================================== *)
(** * Github-app.py *)
(* ================================================================== *)

Module App.

Definition col (name : string) : label := StrLabel (lit name).
Arguments col name : simpl never.

(** [pd.DataFrame({name: values, ...})] *)
Definition DataFrame_of_dict (d : list (string * list string))
  : result DataFrame :=
  match d with
  | [] => Ok (DataFrame_empty [])
  | (_, v0) :: _ =>
      if forallb (fun kv => length (snd kv) =? length v0) d then
        Ok {| columns := map (fun kv => col (fst kv)) d;
              rows := map (fun i =>
                             map (fun kv => Some (lit (nth i (snd kv) EmptyString))) d)
                          (seq 0 (length v0)) |}
      else Raise ValueError
  end.

Definition DEMO_DATA : result DataFrame :=
  DataFrame_of_dict
    [ ("question"%string,
       ["Diet type"; "Alcohol consumption"; "Smoking status"; "Pet ownership"]%string);
      ("response"%string, ["Omnivore"; "Never"; "Former"; "Dog"]%string);
      ("biosample_id"%string, repeat "AGP123456"%string 4);
      ("accession_id"%string, repeat "ACC-98765"%string 4);
      ("source_url"%string, repeat "demo://agp/demo1"%string 4) ].

Definition sanitize_sheet_name (name : str) : result str :=
  name <- re_sub (lit "[:\\/?*\[\]]") (lit "-") name ;;
  let name := firstn 31 (strip name) in
  Ok (if nonempty name then name else lit "sheet").

(** [max(l, key=key)]: the first element with the greatest key. *)
Definition max_by {A} (key : A -> nat) (l : list A) : result A :=
  match l with
  | [] => Raise ValueError
  | x :: l' =>
      Ok (fold_left (fun best y => if key best <? key y then y else best) l' x)
  end.

(** [q, r = l] *)
Definition unpack2 {A} (l : list A) : result (A * A) :=
  match l with
  | [q; r] => Ok (q, r)
  | _ => Raise ValueError
  end.

(** The loop over the rows of the chosen table. *)
Fixpoint table_rows (trs : list node) (rows : list (list str))
  : list (list str) :=
  match trs with
  | [] => rows
  | tr :: rest =>
      let cols := map (get_text [] true) (find_all [lit "td"; lit "th"] tr) in
      match cols with
      | [] => table_rows rest rows
      | _ :: _ => table_rows rest (rows ++ [cols])
      end
  end.

(** The loop over the paragraphs and list items. *)
Fixpoint text_items (tags : list node) (items : list (list str))
  : result (list (list str)) :=
  match tags with
  | [] => Ok items
  | tag :: rest =>
      if contains_char ":" (get_text [] false tag) then
        qr <- unpack2 (split ":" 1 (get_text [] false tag)) ;;
        text_items rest (items ++ [[strip (fst qr); strip (snd qr)]])
      else text_items rest items
  end.

Definition biosample_pattern : str := lit "Biosample[:\t ]+([A-Za-z0-9_-]+)".
Definition accession_pattern : str := lit "Accession[:\t ]+([A-Za-z0-9._-]+)".
Definition sample_id_pattern : str :=
  lit "(Sample ID|Barcode)[:\t ]+([A-Za-z0-9._-]+)".

(** The identifier pair of a page (the three searches of
    [parse_survey_page] and the two conditional expressions after them):
    [(biosample_id, accession_id)].  The text is that of the page model;
    [Unicode.identifiers] below is the same on a text of any code
    points. *)
Definition identifiers (text : str) : result (cell * cell) :=
  biosample <- re_search biosample_pattern text true ;;
  accession <- re_search accession_pattern text true ;;
  sample_id <- re_search sample_id_pattern text true ;;
  let biosample_id :=
    match biosample with
    | Some m => Re.group m 1
    | None =>
        match sample_id with
        | Some m => Re.group m 2
        | None => None
        end
    end in
  let accession_id :=
    match accession with
    | Some m => Re.group m 1
    | None => None
    end in
  Ok (biosample_id, accession_id).

Definition parse_survey_page (soup : node) (url : str) : result DataFrame :=
  let text := get_text (lit " ") true soup in
  ids <- identifiers text ;;
  let biosample_id := fst ids in
  let accession_id := snd ids in
  (* Find largest table *)
  let tables := find_all [lit "table"] soup in
  survey <-
    match tables with
    | [] => Ok None
    | _ :: _ =>
        best <- max_by (fun t => length (find_all [lit "tr"] t)) tables ;;
        let rows := table_rows (find_all [lit "tr"] best) [] in
        let df := DataFrame_of_lists rows in
        if 2 <=? shape1 df then
          df <- set_columns [col "question"; col "response"] (iloc_cols 2 df) ;;
          Ok (Some df)
        else Ok None
    end ;;
  (* Fallback if no table *)
  survey <-
    match survey with
    | Some df => Ok df
    | None =>
        items <- text_items (find_all [lit "p"; lit "li"] soup) [] ;;
        match items with
        | _ :: _ =>
            DataFrame_of_lists_named items [col "question"; col "response"]
        | [] => Ok (DataFrame_empty [col "question"; col "response"])
        end
    end ;;
  let survey := setitem_scalar survey (col "biosample_id") biosample_id in
  let survey := setitem_scalar survey (col "accession_id") accession_id in
  let survey := setitem_scalar survey (col "source_url") (Some url) in
  Ok survey.

Definition filter_responses (df : DataFrame) (contains : str) (n : Z)
  : result DataFrame :=
  let contains := lower contains in
  response <- getitem df (col "response") ;;
  mask <- str_contains (str_lower response) contains false ;;
  let keep := bool_index df mask in
  b <- getitem keep (col "biosample_id") ;;
  a <- getitem keep (col "accession_id") ;;
  u <- getitem keep (col "source_url") ;;
  keep <- setitem_series keep (col "id")
            (add (add_str (add (add_str (fillna b []) (lit "_"))
                               (fillna a []))
                          (lit "_"))
                 (fillna u [])) ;;
  id <- getitem keep (col "id") ;;
  let ids := slice_to (unique id) n in
  id <- getitem keep (col "id") ;;
  Ok (bool_index keep (isin id ids)).

End App.
Import App.

(* ================================================================== *)
(** * The searches of [parse_survey_page] on a text of any code points *)
(* ================================================================== *)

(** The page model above holds text of the code points 0..255.  The
    three searches of [parse_survey_page] are modelled here on a text of
    arbitrary code points as well, because [re.I] takes four code points
    beyond that range for ASCII letters.  The patterns are those of
    [Re.compile]; under [re.I] only patterns of ASCII characters are
    modelled. *)

Module Unicode.

(** A text as the list of its code points. *)
Definition ustr := list N.

(** The text of the page model as code points. *)
Definition of_str (s : str) : ustr := map code s.

Definition groups := list (nat * ustr).

(** The ASCII characters that the code point [c] is taken for under
    [re.I]: an ASCII character for itself and its other case; and, as
    the documentation of [re.IGNORECASE] lists them, U+0130 (capital I
    with dot) and U+0131 (dotless i) for [i], U+017F (long s) for [s]
    and U+212A (Kelvin sign) for [k], in both cases.  No other code
    point is taken for an ASCII character. *)
Definition taken_for (c : N) : list ascii :=
  if (c <? 128)%N then [ascii_of_N c; other_case (ascii_of_N c)]
  else if (c =? 304)%N || (c =? 305)%N then ["i"; "I"]%char
  else if (c =? 383)%N then ["s"; "S"]%char
  else if (c =? 8490)%N then ["k"; "K"]%char
  else [].

Definition in_ranges (ranges : list (ascii * ascii)) (c : N) : bool :=
  existsb (fun r => (code (fst r) <=? c)%N && (c <=? code (snd r))%N) ranges.

(** One literal against one code point, with or without [re.I]. *)
Definition lit_matches (ic : bool) (p : ascii) (c : N) : bool :=
  if ic then existsb (Ascii.eqb p) (taken_for c) else (c =? code p)%N.

(** One class against one code point, with or without [re.I]. *)
Definition set_matches (ic : bool) (ranges : list (ascii * ascii)) (c : N)
  : bool :=
  if ic then existsb (Re.in_ranges ranges) (taken_for c)
  else in_ranges ranges c.

Section Matcher.
Variable A : Type.
Variable ic : bool.

(** The matcher of [Re.matcher], on code points. *)
Fixpoint matcher (r : Re.regex) (s : ustr) (g : groups)
         (k : ustr -> groups -> option A) {struct r} : option A :=
  match r with
  | Re.Eps => k s g
  | Re.Lit p =>
      match s with
      | c :: s' => if lit_matches ic p c then k s' g else None
      | [] => None
      end
  | Re.Any =>
      match s with
      | c :: s' => if (c =? 10)%N then None else k s' g
      | [] => None
      end
  | Re.In rs =>
      match s with
      | c :: s' => if set_matches ic rs c then k s' g else None
      | [] => None
      end
  | Re.Seq r1 r2 => matcher r1 s g (fun s1 g1 => matcher r2 s1 g1 k)
  | Re.Alt r1 r2 =>
      match matcher r1 s g k with
      | Some x => Some x
      | None => matcher r2 s g k
      end
  | Re.Plus r1 =>
      (fix loop (fuel : nat) (s : ustr) (g : groups) {struct fuel}
         : option A :=
         match fuel with
         | O => None
         | S f =>
             matcher r1 s g
               (fun s1 g1 =>
                  if length s1 <? length s then
                    match loop f s1 g1 with
                    | Some x => Some x
                    | None => k s1 g1
                    end
                  else k s1 g1)
         end) (S (length s)) s g
  | Re.Group n r1 =>
      matcher r1 s g
        (fun s1 g1 => k s1 ((n, firstn (length s - length s1) s) :: g1))
  end.
End Matcher.

Record match_obj := {
  m_start : nat;
  m_text : ustr;
  m_groups : groups
}.

Fixpoint assoc (n : nat) (g : groups) : option ustr :=
  match g with
  | [] => None
  | (i, s) :: g' => if Nat.eqb i n then Some s else assoc n g'
  end.

(** [m.group(n)] for [n >= 1] *)
Definition group (mo : match_obj) (n : nat) : option ustr :=
  assoc n (m_groups mo).

Definition match_here (ic : bool) (r : Re.regex) (s : ustr)
  : option (ustr * groups) :=
  matcher ic r s [] (fun rest g => Some (rest, g)).

(** Leftmost match, scanning start positions from [pos]. *)
Fixpoint search_at (ic : bool) (r : Re.regex) (pos : nat) (s : ustr)
  : option match_obj :=
  match match_here ic r s with
  | Some (rest, g) =>
      Some {| m_start := pos;
              m_text := firstn (length s - length rest) s;
              m_groups := g |}
  | None =>
      match s with
      | [] => None
      | _ :: s' => search_at ic r (S pos) s'
      end
  end.

Definition search_re (ic : bool) (r : Re.regex) (s : ustr) : option match_obj :=
  search_at ic r 0 s.

Definition ascii_pattern (pattern : str) : bool :=
  forallb (fun p => (code p <? 128)%N) pattern.

(** [re.search(pattern, text, flags)], with [ic] for the flag [re.I]. *)
Definition re_search (pattern : str) (text : ustr) (ic : bool)
  : result (option match_obj) :=
  if ic && negb (ascii_pattern pattern) then Raise Unmodelled
  else
    match Re.compile pattern with
    | Some r => Ok (search_re ic r text)
    | None => Raise Unmodelled
    end.

(** The identifier pair of a page (the three searches of
    [parse_survey_page] and the two conditional expressions after them):
    [(biosample_id, accession_id)]. *)
Definition identifiers (text : ustr) : result (option ustr * option ustr) :=
  biosample <- re_search biosample_pattern text true ;;
  accession <- re_search accession_pattern text true ;;
  sample_id <- re_search sample_id_pattern text true ;;
  let biosample_id :=
    match biosample with
    | Some m => group m 1
    | None =>
        match sample_id with
        | Some m => group m 2
        | None => None
        end
    end in
  let accession_id :=
    match accession with
    | Some m => group m 1
    | None => None
    end in
  Ok (biosample_id, accession_id).

End Unicode.

(* ================================================================== *)
(** * biosample_scraper.py *)
(* ================================================================== *)

Module Batch.

(** A dict with string keys and values, in insertion order. *)
Definition dict := list (str * str).

Fixpoint dict_get (d : dict) (k : str) : option str :=
  match d with
  | [] => None
  | (k', v) :: d' => if str_eqb k' k then Some v else dict_get d' k
  end.

Fixpoint dedup (seen : list str) (l : list str) : list str :=
  match l with
  | [] => []
  | x :: l' =>
      if existsb (str_eqb x) seen then dedup seen l'
      else x :: dedup (x :: seen) l'
  end.

(** [pd.DataFrame(records)] for a list of dicts: the columns are the keys
    in order of first appearance; an empty list gives a frame without
    columns. *)
Definition DataFrame_of_records (records : list dict) : DataFrame :=
  let keys := dedup [] (flat_map (map fst) records) in
  {| columns := map StrLabel keys;
     rows := map (fun d => map (dict_get d) keys) records |}.

Definition DEMO_DF : result DataFrame :=
  DataFrame_of_dict
    [ ("biosample_id"%string, ["DEMO1"; "DEMO2"; "DEMO3"]%string);
      ("question"%string, ["Diet type"; "Diet type"; "Diet type"]%string);
      ("response"%string, ["Omnivore"; "Vegetarian"; "Vegan"]%string) ].

(** [row[name]] for a row yielded by [df.iterrows()] *)
Definition row_get (df : DataFrame) (row : list cell) (name : label)
  : result cell :=
  match index_of name (columns df) with
  | Some i => Ok (nth i row None)
  | None => Raise KeyError
  end.

(** What [to_csv(path, index=False)] writes: the header and the records.
    The quoting of the fields in the text of the file is not modelled;
    a missing value is written as the empty field. *)
Record csv := {
  csv_header : list str;
  csv_records : list (list str)
}.

Definition label_text (l : label) : str :=
  match l with
  | StrLabel s => s
  | IntLabel n => lit (DecimalString.NilEmpty.string_of_uint (Nat.to_uint n))
  end.

Definition to_csv (df : DataFrame) : csv :=
  {| csv_header := map label_text (columns df);
     csv_records := map (map (fun c => match c with
                                       | Some s => s
                                       | None => []
                                       end)) (rows df) |}.

Definition LF : ascii := ascii_of_N 10.
Definition CR : ascii := ascii_of_N 13.

(** The lines a text file yields when it is iterated: each ends at a
    line feed, a carriage return or the pair of them, read as one line
    feed; the last line may have none. *)
Fixpoint file_lines (cur : str) (s : str) : list str :=
  match s with
  | [] =>
      match cur with
      | [] => []
      | _ :: _ => [cur]
      end
  | c :: s' =>
      if Ascii.eqb c LF then (cur ++ [LF]) :: file_lines [] s'
      else if Ascii.eqb c CR then
        match s' with
        | d :: s'' =>
            if Ascii.eqb d LF then (cur ++ [LF]) :: file_lines [] s''
            else (cur ++ [LF]) :: file_lines [] s'
        | [] => (cur ++ [LF]) :: file_lines [] s'
        end
      else file_lines (cur ++ [c]) s'
  end.

(** The file system the script meets: the text of the files that can be
    read, by path, and the paths that can be written.  Writing to any
    other path (a missing directory, a directory, a path without the
    permission) raises [OSError]. *)
Record files := {
  content : str -> option str;
  writable : str -> bool
}.

Definition open_read (fs : files) (path : str) : result (list str) :=
  match content fs path with
  | Some text => Ok (file_lines [] text)
  | None => Raise FileNotFoundError
  end.

(** One run of the script: what it printed, the file it wrote, and how
    it ended. *)
Record run := {
  stdout : list str;
  written : option (str * csv);
  ended : result unit
}.

(** The exit status of the process. *)
Definition exit_status (r : run) : Z :=
  match ended r with
  | Ok _ => 0
  | Raise (SystemExit n) => n
  | Raise _ => 1
  end.

Definition usage : str :=
  lit "Usage: python biosample_scraper.py input_ids.txt output.csv".

(** The inner loop: one record per row of the demo frame. *)
Fixpoint demo_rows (demo : DataFrame) (biosample_id : str)
         (rs : list (list cell)) (output_rows : list dict)
  : result (list dict) :=
  match rs with
  | [] => Ok output_rows
  | row :: rest =>
      q <- row_get demo row (col "question") ;;
      r <- row_get demo row (col "response") ;;
      let text (c : cell) := match c with Some s => s | None => [] end in
      demo_rows demo biosample_id rest
        (output_rows ++ [[ (lit "biosample_id", biosample_id);
                           (lit "question", text q);
                           (lit "response", text r) ]])
  end.

(** The outer loop: the identifiers in order, with what is printed. *)
Fixpoint process_ids (demo : DataFrame) (ids : list str)
         (out : list str) (output_rows : list dict)
  : result (list str * list dict) :=
  match ids with
  | [] => Ok (out, output_rows)
  | biosample_id :: rest =>
      let out := out ++ [lit "Processing: " ++ biosample_id
                                          ++ lit " -> using demo data"] in
      output_rows <- demo_rows demo biosample_id (rows demo) output_rows ;;
      process_ids demo rest out output_rows
  end.

Definition main (argv : list str) (fs : files) : run :=
  if negb (length argv =? 3) then
    {| stdout := [usage]; written := None; ended := Raise (SystemExit 1) |}
  else
    let input_file := nth 1 argv [] in
    let output_file := nth 2 argv [] in
    match open_read fs input_file with
    | Raise e => {| stdout := []; written := None; ended := Raise e |}
    | Ok f =>
        let ids := map strip (filter (fun line => nonempty (strip line)) f) in
        let out :=
          [lit "Attempting to fetch survey data... (will use demo data if unavailable)"
             ++ [LF]] in
        match (demo <- DEMO_DF ;; process_ids demo ids out []) with
        | Raise e => {| stdout := out; written := None; ended := Raise e |}
        | Ok (out, output_rows) =>
            (* Save CSV *)
            let out_df := DataFrame_of_records output_rows in
            if writable fs output_file then
              {| stdout := out ++ [LF :: lit "Saved CSV file: " ++ output_file;
                                   lit "Script complete."];
                 written := Some (output_file, to_csv out_df);
                 ended := Ok tt |}
            else {| stdout := out; written := None; ended := Raise OSError |}
        end
    end.

End Batch.

(** [fs path] is the text of the file at [path], when it can be read. *)
Coercion Batch.content : Batch.files >-> Funclass.

(* ================================================================== *)
(** * Vocabulary of the statements *)
(* ================================================================== *)

Module Spec.

(** The characters a sheet name may not hold. *)
Definition invalid_char (c : ascii) : bool :=
  contains_char c (lit ":\/?*[]").

Definition replace_invalid (c : ascii) : ascii :=
  if invalid_char c then "-"%char else c.

Definition placeholder : str := lit "sheet".

Definition or_placeholder (name : str) : str :=
  if nonempty name then name else placeholder.

(** The cell texts of one table row. *)
Definition cells (tr : node) : list str :=
  map (get_text [] true) (find_all [lit "td"; lit "th"] tr).

Definition row_count (t : node) : nat := length (find_all [lit "tr"] t).

(** A table qualifies when one of its rows has two cells or more. *)
Definition qualifying_table (t : node) : bool :=
  existsb (fun tr => 2 <=? length (cells tr)) (find_all [lit "tr"] t).

(** The table the table strategy looks at. *)
Definition selected_table (soup : node) : option node :=
  match max_by row_count (find_all [lit "table"] soup) with
  | Ok best => Some best
  | Raise _ => None
  end.

(** What a row of cell texts leaves in the two-column frame. *)
Definition first_two (cols : list str) : list (list cell) :=
  match cols with
  | [] => []
  | [q] => [[Some q; None]]
  | q :: r :: _ => [[Some q; Some r]]
  end.

(** The (question, response) part of every row of a frame. *)
Definition question_response (df : DataFrame) : list (list cell) :=
  map (firstn 2) (rows df).

Definition survey_columns : list label :=
  [col "question"; col "response"; col "biosample_id"; col "accession_id";
   col "source_url"].

(** [colon_record text qr]: [qr] is [text] cut at its first colon, both
    sides trimmed. *)
Inductive colon_record : str -> list cell -> Prop :=
| ColonRecord (q r : str) :
    ~ In ":"%char q ->
    colon_record (q ++ ":"%char :: r) [Some (strip q); Some (strip r)].

Definition has_colon (tag : node) : bool :=
  contains_char ":" (get_text [] false tag).

(** The record of one paragraph or list item that has a colon. *)
Definition item_of (tag : node) : list str :=
  match break_at ":" (get_text [] false tag) with
  | Some (q, r) => [strip q; strip r]
  | None => []
  end.

(** The (question, response) pairs of the free-text strategy. *)
Definition text_pairs (soup : node) : list (list cell) :=
  map (fun tag => map Some (item_of tag))
      (filter has_colon (find_all [lit "p"; lit "li"] soup)).

(** The (question, response) pairs of the table strategy on one table. *)
Definition table_pairs (best : node) : list (list cell) :=
  flat_map (fun tr => first_two (cells tr)) (find_all [lit "tr"] best).

(** The pairs of a page: those of the selected table when it qualifies,
    those of the free text otherwise. *)
Definition survey_pairs (soup : node) : list (list cell) :=
  match selected_table soup with
  | Some best =>
      if qualifying_table best then table_pairs best else text_pairs soup
  | None => text_pairs soup
  end.

(** Separators between a label and its token: colon, tab, space. *)
Definition is_sep (c : ascii) : bool :=
  Ascii.eqb c ":" || Ascii.eqb c (ascii_of_N 9) || Ascii.eqb c " ".

(** Token characters: ASCII letters and digits, [_], [-], and [.] when
    [dot] is set. *)
Definition is_token (dot : bool) (c : ascii) : bool :=
  Re.is_alnum c || Ascii.eqb c "_" || Ascii.eqb c "-"
  || (dot && Ascii.eqb c ".").

(** The response of a survey row and its composite identifier. *)
Definition response_of (row : list cell) : cell := nth 1 row None.

Definition text_of (c : cell) : str :=
  match c with
  | Some s => s
  | None => []
  end.

Definition composite_id (row : list cell) : str :=
  text_of (nth 2 row None) ++ lit "_" ++ text_of (nth 3 row None)
    ++ lit "_" ++ text_of (nth 4 row None).

(** The response holds the filter string, case-insensitively. *)
Definition response_contains (contains : str) (row : list cell) : bool :=
  match response_of row with
  | Some x => substringb (lower contains) (lower x)
  | None => false
  end.

Fixpoint distinct (seen : list str) (l : list str) : list str :=
  match l with
  | [] => []
  | x :: l' =>
      if existsb (str_eqb x) seen then distinct seen l'
      else x :: distinct (x :: seen) l'
  end.

(** The rows of [rs] that belong to the first [n] distinct composite
    identifiers of [rs]. *)
Definition first_individuals (n : nat) (rs : list (list cell))
  : list (list cell) :=
  let ids := firstn n (distinct [] (map composite_id rs)) in
  filter (fun row => existsb (str_eqb (composite_id row)) ids) rs.

(** The identifiers of an input file: its non-blank lines, trimmed. *)
Definition identifiers_of (content : str) : list str :=
  map strip (filter (fun line => nonempty (strip line))
                    (Batch.file_lines [] content)).

(** The class of the pattern of [sanitize_sheet_name], compiled. *)
Definition sheet_class : list (ascii * ascii) :=
  Eval vm_compute in map (fun c => (c, c)) (lit ":\/?*[]").

(** The two columns both strategies fill. *)
Definition qr_columns : list label := [col "question"; col "response"].

(** The demo frame of the batch script, evaluated. *)
Definition demo_df : DataFrame :=
  {| columns := [col "biosample_id"; col "question"; col "response"];
     rows := [ [Some (lit "DEMO1"); Some (lit "Diet type");
                Some (lit "Omnivore")];
               [Some (lit "DEMO2"); Some (lit "Diet type");
                Some (lit "Vegetarian")];
               [Some (lit "DEMO3"); Some (lit "Diet type");
                Some (lit "Vegan")] ] |}.

(** The dicts the inner loop of the batch script appends for one
    identifier. *)
Definition demo_dicts (biosample_id : str) : list Batch.dict :=
  map (fun qr => [ (lit "biosample_id", biosample_id);
                   (lit "question", fst qr);
                   (lit "response", snd qr) ])
      [ (lit "Diet type", lit "Omnivore");
        (lit "Diet type", lit "Vegetarian");
        (lit "Diet type", lit "Vegan") ].

(** The line the batch script prints for one identifier. *)
Definition processing_message (biosample_id : str) : str :=
  lit "Processing: " ++ biosample_id ++ lit " -> using demo data".

(** The three patterns of [identifiers], compiled. *)
Definition sep_class : list (ascii * ascii) :=
  [(":", ":"); (ascii_of_N 9, ascii_of_N 9); (" ", " ")]%char.

Definition token_class (dot : bool) : list (ascii * ascii) :=
  ([("A", "Z"); ("a", "z"); ("0", "9")]
     ++ (if dot then [(".", ".")] else [])
     ++ [("_", "_"); ("-", "-")])%char.

Definition lits (p : str) (r : Re.regex) : Re.regex :=
  fold_right (fun c r => Re.Seq (Re.Lit c) r) r p.

(** [[:\t ]+([...]+)] with the group numbered [n] *)
Definition token_re (n : nat) (dot : bool) : Re.regex :=
  Re.Seq (Re.Plus (Re.In sep_class))
         (Re.Seq (Re.Group n (Re.Seq (Re.Plus (Re.In (token_class dot)))
                                     Re.Eps))
                 Re.Eps).

Definition biosample_re : Re.regex :=
  lits (lit "Biosample") (token_re 1 false).

Definition accession_re : Re.regex :=
  lits (lit "Accession") (token_re 1 true).

Definition sample_id_re : Re.regex :=
  Re.Seq (Re.Group 1 (Re.Alt (lits (lit "Sample ID") Re.Eps)
                             (lits (lit "Barcode") Re.Eps)))
         (token_re 2 true).

(** [lits_prefix ic p s]: [s] starts with the literal text [p]. *)
Fixpoint lits_prefix (ic : bool) (p s : str) : bool :=
  match p, s with
  | [], _ => true
  | x :: p', y :: s' => Re.lit_matches ic x y && lits_prefix ic p' s'
  | _ :: _, [] => false
  end.

Fixpoint takewhile (P : ascii -> bool) (s : str) : str :=
  match s with
  | c :: s' => if P c then c :: takewhile P s' else []
  | [] => []
  end.

Fixpoint dropwhile (P : ascii -> bool) (s : str) : str :=
  match s with
  | c :: s' => if P c then dropwhile P s' else s
  | [] => []
  end.

(** A greedy repetition of one class [P], followed by [k]: the longest
    run first, then the shorter ones. *)
Fixpoint plus_class {A} (P : ascii -> bool) (k : str -> option A) (s : str)
  : option A :=
  match s with
  | c :: s' =>
      if P c then
        match plus_class P k s' with
        | Some x => Some x
        | None => k s'
        end
      else None
  | [] => None
  end.

(** Separators, then a token: the token and what follows it. *)
Definition token_match (dot : bool) (s : str) : option (str * str) :=
  match s with
  | c :: s' =>
      if is_sep c then
        let s'' := dropwhile is_sep s' in
        match takewhile (is_token dot) s'' with
        | [] => None
        | tok => Some (tok, dropwhile (is_token dot) s'')
        end
      else None
  | [] => None
  end.

(** The token of the first of [labels] that stands at the head of [s]
    with separators and a token behind it. *)
Fixpoint label_match (labels : list str) (dot : bool) (s : str)
  : option str :=
  match labels with
  | [] => None
  | label :: rest =>
      match (if lits_prefix true label s
             then token_match dot (skipn (length label) s)
             else None) with
      | Some (tok, _) => Some tok
      | None => label_match rest dot s
      end
  end.

(** The leftmost place of [s] where one of [labels] matches. *)
Fixpoint find_labelled (labels : list str) (dot : bool) (s : str)
  : option str :=
  match label_match labels dot s with
  | Some tok => Some tok
  | None =>
      match s with
      | [] => None
      | _ :: s' => find_labelled labels dot s'
      end
  end.

(** The three demo responses of the batch script, under one identifier. *)
Definition demo_records (biosample_id : str) : list (list str) :=
  [ [biosample_id; lit "Diet type"; lit "Omnivore"];
    [biosample_id; lit "Diet type"; lit "Vegetarian"];
    [biosample_id; lit "Diet type"; lit "Vegan"] ].

Definition csv_columns : list str :=
  [lit "biosample_id"; lit "question"; lit "response"].

(** A line of text: no line feed and no carriage return in it. *)
Definition one_line (l : str) : Prop :=
  forallb (fun c => negb (Ascii.eqb c Batch.LF || Ascii.eqb c Batch.CR)) l
  = true.

Definition no_metachar (s : str) : Prop :=
  forallb (fun c => negb (Re.metachar c)) s = true.

End Spec.
Import Spec.

(* ================================================================== *)
(** * Vocabulary of the statements on identifiers *)
(* ================================================================== *)

Module Labels.
Import Unicode.

(** Separators between a label and its token: colon, tab, space. *)
Definition separator (c : N) : bool :=
  ((c =? 58) || (c =? 9) || (c =? 32))%N.

(** Token characters: ASCII letters and digits, [_], [-], [.] when [dot]
    is set, and the four code points that [re.I] takes for a letter. *)
Definition token_char (dot : bool) (c : N) : bool :=
  ((48 <=? c) && (c <=? 57) || (65 <=? c) && (c <=? 90)
   || (97 <=? c) && (c <=? 122)
   || (c =? 95) || (c =? 45) || (dot && (c =? 46))
   || (c =? 304) || (c =? 305) || (c =? 383) || (c =? 8490))%N.

(** [c] is the character [p] of a label in some casing: [p] itself, its
    other case, U+0130 or U+0131 for [i], U+017F for [s], U+212A for
    [k]. *)
Definition cased_as (p : ascii) (c : N) : bool :=
  ((c =? code p) || (c =? code (other_case p))
   || (Ascii.eqb (lower_char p) "i" && ((c =? 304) || (c =? 305)))
   || (Ascii.eqb (lower_char p) "s" && (c =? 383))
   || (Ascii.eqb (lower_char p) "k" && (c =? 8490)))%N.

(** [lbl] is [label] in some casing. *)
Definition in_casing (label : str) (lbl : ustr) : Prop :=
  Forall2 (fun p c => cased_as p c = true) label lbl.

Definition every (P : N -> bool) (s : ustr) : Prop := forallb P s = true.

(** A text that does not go on with a token character. *)
Definition token_stops (dot : bool) (post : ustr) : Prop :=
  match post with
  | [] => True
  | c :: _ => token_char dot c = false
  end.

(** [matches_at label dot s tok]: [s] starts with [label] in some
    casing, then come one separator or more, then the token [tok], which
    is all the token characters there are at that place. *)
Definition matches_at (label : str) (dot : bool) (s tok : ustr) : Prop :=
  exists lbl seps post,
    s = lbl ++ seps ++ tok ++ post
    /\ in_casing label lbl
    /\ seps <> [] /\ every separator seps
    /\ tok <> [] /\ every (token_char dot) tok
    /\ token_stops dot post.

(** One of [labels] matches at the head of [s], with the token [tok]. *)
Definition matches_here (labels : list str) (dot : bool) (s tok : ustr)
  : Prop :=
  exists label, In label labels /\ matches_at label dot s tok.

(** [first_match labels dot text tok]: [tok] is the token at the
    leftmost place of [text] where one of [labels] matches. *)
Definition first_match (labels : list str) (dot : bool) (text tok : ustr)
  : Prop :=
  exists pre s,
    text = pre ++ s
    /\ matches_here labels dot s tok
    /\ forall pre1 pre2 t,
        pre = pre1 ++ pre2 -> pre2 <> [] ->
        ~ matches_here labels dot (pre2 ++ s) t.

(** None of [labels] matches anywhere in [text]. *)
Definition no_match (labels : list str) (dot : bool) (text : ustr) : Prop :=
  forall pre s t, text = pre ++ s -> ~ matches_here labels dot s t.

(** [tok] stands in [text] as a whole token behind a separator. *)
Definition whole_token (dot : bool) (text tok : ustr) : Prop :=
  exists pre sep post,
    text = pre ++ sep :: tok ++ post
    /\ separator sep = true
    /\ tok <> [] /\ every (token_char dot) tok
    /\ token_stops dot post.

(** The same, as functions. *)
Fixpoint label_prefix (label : str) (s : ustr) : bool :=
  match label, s with
  | [], _ => true
  | p :: label', c :: s' => cased_as p c && label_prefix label' s'
  | _ :: _, [] => false
  end.

Fixpoint take_while (P : N -> bool) (s : ustr) : ustr :=
  match s with
  | c :: s' => if P c then c :: take_while P s' else []
  | [] => []
  end.

Fixpoint drop_while (P : N -> bool) (s : ustr) : ustr :=
  match s with
  | c :: s' => if P c then drop_while P s' else s
  | [] => []
  end.

(** A greedy repetition of one class [P], followed by [k]: the longest
    run first, then the shorter ones. *)
Fixpoint repeat_class {A} (P : N -> bool) (k : ustr -> option A) (s : ustr)
  : option A :=
  match s with
  | c :: s' =>
      if P c then
        match repeat_class P k s' with
        | Some x => Some x
        | None => k s'
        end
      else None
  | [] => None
  end.

(** Separators, then a token: the token and what follows it. *)
Definition token_at (dot : bool) (s : ustr) : option (ustr * ustr) :=
  match s with
  | c :: s' =>
      if separator c then
        let s'' := drop_while separator s' in
        match take_while (token_char dot) s'' with
        | [] => None
        | tok => Some (tok, drop_while (token_char dot) s'')
        end
      else None
  | [] => None
  end.

(** The token of [label] at the head of [s]. *)
Definition match_at (label : str) (dot : bool) (s : ustr)
  : option (ustr * ustr) :=
  if label_prefix label s then token_at dot (skipn (length label) s)
  else None.

(** The token of the first of [labels] that matches at the head of
    [s]. *)
Fixpoint label_at (labels : list str) (dot : bool) (s : ustr)
  : option ustr :=
  match labels with
  | [] => None
  | label :: rest =>
      match match_at label dot s with
      | Some (tok, _) => Some tok
      | None => label_at rest dot s
      end
  end.

(** The token at the leftmost place of [s] where one of [labels]
    matches. *)
Fixpoint find_label (labels : list str) (dot : bool) (s : ustr)
  : option ustr :=
  match label_at labels dot s with
  | Some tok => Some tok
  | None =>
      match s with
      | [] => None
      | _ :: s' => find_label labels dot s'
      end
  end.

(** Labels that never give two different tokens at one place. *)
Definition single_valued (labels : list str) (dot : bool) : Prop :=
  forall s t1 t2,
    matches_here labels dot s t1 -> matches_here labels dot s t2 -> t1 = t2.

(** The places of [pre ++ s] before [s] where [labels] do not match. *)
Definition none_before (labels : list str) (dot : bool) (pre s : ustr)
  : bool :=
  forallb (fun i => match label_at labels dot (skipn i (pre ++ s)) with
                    | Some _ => false
                    | None => true
                    end)
          (seq 0 (length pre)).

(** The 128 ASCII characters and the 256 characters of the page model. *)
Definition ascii_chars : list ascii :=
  map (fun n => ascii_of_N (N.of_nat n)) (seq 0 128).

Definition page_chars : list ascii :=
  map (fun n => ascii_of_N (N.of_nat n)) (seq 0 256).

(** The identifiers of the page model as code points. *)
Definition of_cell (c : cell) : option ustr := option_map of_str c.

End Labels.
Import Labels.

(* ================================================================== *)
(** * Sample inputs *)
(* ================================================================== *)

Module Samples.

Definition text (s : string) : node := NavigableString (lit s).
Definition tag (name : string) (contents : list node) : node :=
  Tag (lit name) contents.

(** A table with a two-cell row, a one-cell row and a row without cells. *)
Definition ragged_table : node :=
  tag "table"
      [ tag "tr" [tag "td" [text "Q1"]; tag "td" [text "A1"]];
        tag "tr" [tag "th" [text "Header"]];
        tag "tr" [] ].

Definition ragged_page : node := tag "[document]" [ragged_table].

(** A page with three tables: one row, then two rows, then two rows
    again. *)
Definition short_table : node :=
  tag "table" [ tag "tr" [tag "td" [text "Age"]; tag "td" [text "30"]] ].

Definition first_long_table : node :=
  tag "table"
      [ tag "tr" [tag "td" [text "Diet"]; tag "td" [text "Omnivore"]];
        tag "tr" [tag "td" [text "Pets"]; tag "td" [text "Dog"]] ].

Definition second_long_table : node :=
  tag "table"
      [ tag "tr" [tag "td" [text "Sleep"]; tag "td" [text "8h"]];
        tag "tr" [tag "td" [text "Sport"]; tag "td" [text "Daily"]] ].

Definition tied_page : node :=
  tag "[document]" [short_table; first_long_table; second_long_table].

(** Two list items, one of them without a colon. *)
Definition list_page : node :=
  tag "[document]"
      [ tag "ul" [ tag "li" [text "Diet: Omnivore"];
                   tag "li" [text "NoColonHere"] ] ].

(** A page with a one-column table and a heading, and nothing else. *)
Definition bare_page : node :=
  tag "[document]"
      [ tag "h1" [text "Survey"];
        tag "table" [tag "tr" [tag "td" [text "only"]]] ].

Definition url : str := lit "http://example.org/page".

(** The demo frame of the dashboard. *)
Definition demo_frame : DataFrame :=
  match DEMO_DATA with
  | Ok df => df
  | Raise _ => DataFrame_empty []
  end.

(** A file system with one file, where every path can be written. *)
Definition one_file (path content : str) : Batch.files :=
  {| Batch.content := fun p => if str_eqb p path then Some content else None;
     Batch.writable := fun _ => true |}.

(** A file system with one file, where no path can be written. *)
Definition read_only (path content : str) : Batch.files :=
  {| Batch.content := fun p => if str_eqb p path then Some content else None;
     Batch.writable := fun _ => false |}.

Definition two_ids : str :=
  lit "S1" ++ [Batch.LF] ++ lit "S2" ++ [Batch.LF].

End Samples.

(* ================================================================== *)
(** * Github-app.py: scraping a topic *)
(* ================================================================== *)

Module Topic.

(** [df.empty]: no row or no column. *)
Definition empty (df : DataFrame) : bool :=
  match rows df, columns df with
  | [], _ => true
  | _, [] => true
  | _, _ => false
  end.

Fixpoint dedup_labels (seen : list label) (l : list label) : list label :=
  match l with
  | [] => []
  | x :: l' =>
      if existsb (label_eqb x) seen then dedup_labels seen l'
      else x :: dedup_labels (x :: seen) l'
  end.

(** One row of [df] laid out on the columns [cols]; a column that [df]
    does not have is filled with the missing value. *)
Definition reindex_row (df : DataFrame) (cols : list label) (r : list cell)
  : list cell :=
  map (fun c => match index_of c (columns df) with
                | Some i => nth i r None
                | None => None
                end) cols.

(** [pd.concat(frames, ignore_index=True)]: the columns are those of the
    frames in order of first appearance, the rows follow each other. *)
Definition concat (frames : list DataFrame) : result DataFrame :=
  match frames with
  | [] => Raise ValueError
  | _ :: _ =>
      let cols := dedup_labels [] (flat_map columns frames) in
      Ok {| columns := cols;
            rows := flat_map (fun df => map (reindex_row df cols) (rows df))
                             frames |}
  end.

(** What [except Exception] catches. *)
Definition caught (e : exn) : bool :=
  match e with
  | SystemExit _ => false
  | Unmodelled => false
  | _ => true
  end.

Section Collaborators.

(** The two functions that reach the network are taken as given:
    [ddg_search topic limit] is the frame of search results or an
    exception, [fetch_page url] the parsed document or an exception. *)
Variable ddg_search : str -> Z -> result DataFrame.
Variable fetch_page : str -> result node.

(** The body of the [try]: fetch the page of one search result and parse
    it.  A result without a URL cannot be fetched. *)
Definition scrape_page (pages : DataFrame) (row : list cell)
  : result DataFrame :=
  url <- Batch.row_get pages row (col "url") ;;
  match url with
  | Some u =>
      soup <- fetch_page u ;;
      parse_survey_page soup u
  | None => Raise ValueError
  end.

(** The loop over the search results. *)
Fixpoint scrape_pages (pages : DataFrame) (rs : list (list cell))
         (rows : list DataFrame) : result (list DataFrame) :=
  match rs with
  | [] => Ok rows
  | row :: rest =>
      match scrape_page pages row with
      | Ok parsed => scrape_pages pages rest (rows ++ [parsed])
      | Raise e =>
          if caught e then scrape_pages pages rest rows else Raise e
      end
  end.

Definition scrape_topic (topic : str) (max_pages : Z) : result DataFrame :=
  pages <- ddg_search topic max_pages ;;
  if empty pages then DEMO_DATA
  else
    rows <- scrape_pages pages (rows pages) [] ;;
    match rows with
    | _ :: _ => concat rows
    | [] => DEMO_DATA
    end.

End Collaborators.

End Topic.

(* ================================================================== *)
(** * Vocabulary of the further statements *)
(* ================================================================== *)

Module Further.

(** The rows [parse_survey_page] returns for a page. *)
Definition page_rows (soup : node) (url : str) : list (list cell) :=
  match parse_survey_page soup url with
  | Ok df => rows df
  | Raise _ => []
  end.

(** The rows of the pages [pages], one page after the other. *)
Definition pages_rows (pages : list (node * str)) : list (list cell) :=
  flat_map (fun su => page_rows (fst su) (snd su)) pages.

(** What one search result gives: its page when it has a URL and the
    page can be fetched, nothing otherwise. *)
Definition fetched_row (fetch_page : str -> result node) (pages : DataFrame)
           (row : list cell) : list (node * str) :=
  match Batch.row_get pages row (col "url") with
  | Ok (Some u) =>
      match fetch_page u with
      | Ok soup => [(soup, u)]
      | Raise _ => []
      end
  | _ => []
  end.

(** The search results whose page could be fetched, in order. *)
Definition fetched (fetch_page : str -> result node) (pages : DataFrame)
  : list (node * str) :=
  flat_map (fetched_row fetch_page pages) (rows pages).

(** A collaborator that fails with ordinary exceptions only. *)
Definition ordinary (fetch_page : str -> result node) : Prop :=
  forall u e, fetch_page u = Raise e -> Topic.caught e = true.

(** A frame of search results with two results. *)
Definition two_results : DataFrame :=
  {| columns := [col "title"; col "url"];
     rows := [ [Some (lit "first"); Some (lit "http://a")];
               [Some (lit "second"); Some (lit "http://b")] ] |}.

(** A fetcher that reaches the first result only. *)
Definition fetch_first (u : str) : result node :=
  if str_eqb u (lit "http://a") then Ok Samples.list_page
  else Raise ValueError.

Definition fetch_none (u : str) : result node := Raise ValueError.

Definition search_two (topic : str) (limit : Z) : result DataFrame :=
  Ok two_results.

(** The three ways a line can end. *)
Definition line_end (eol : str) : Prop :=
  eol = [Batch.LF] \/ eol = [Batch.CR; Batch.LF] \/ eol = [Batch.CR].

End Further.
Import Further.

(** Every character is one of the 256 code points. *)
Ltac each_char c :=
  destruct c as [[] [] [] [] [] [] [] []].

(* ================================================================== *)
(** * Characters and strings: lemmas *)
(* ================================================================== *)

Lemma ascii_eqb_true (a b : ascii) : Ascii.eqb a b = true <-> a = b.
Proof. apply Ascii.eqb_eq. Qed.

Lemma str_eqb_eq (a b : str) : str_eqb a b = true <-> a = b.
Proof.
  revert b; induction a as [|x a IH]; intros [|y b]; simpl;
    try (split; congruence).
  rewrite andb_true_iff, Ascii.eqb_eq, IH. split.
  - intros [-> ->]; reflexivity.
  - intros E; inversion E; auto.
Qed.

Lemma str_eqb_refl (a : str) : str_eqb a a = true.
Proof. apply str_eqb_eq; reflexivity. Qed.

Lemma contains_char_In (c : ascii) (s : str) :
  contains_char c s = true <-> In c s.
Proof.
  unfold contains_char. rewrite existsb_exists. split.
  - intros [x [Hx E]]. apply Ascii.eqb_eq in E. subst; assumption.
  - intros H. exists c. split; [assumption | apply Ascii.eqb_refl].
Qed.

Lemma lstrip_app_nonspace (l : str) (c : ascii) :
  isspace c = false -> lstrip (l ++ [c]) = lstrip l ++ [c].
Proof.
  intros Hc. induction l as [|x l IH]; simpl.
  - rewrite Hc; reflexivity.
  - destruct (isspace x); [assumption | reflexivity].
Qed.

Lemma lstrip_nonspace (c : ascii) (s : str) :
  isspace c = false -> lstrip (c :: s) = c :: s.
Proof. intros H; simpl; rewrite H; reflexivity. Qed.

Lemma rstrip_cons_nonspace (c : ascii) (s : str) :
  isspace c = false -> rstrip (c :: s) = c :: rstrip s.
Proof.
  intros Hc. unfold rstrip. simpl.
  rewrite lstrip_app_nonspace by assumption.
  rewrite rev_app_distr. reflexivity.
Qed.

Lemma lstrip_head (s : str) :
  match lstrip s with
  | [] => True
  | c :: _ => isspace c = false
  end.
Proof.
  induction s as [|x s IH]; simpl; [exact I|].
  destruct (isspace x) eqn:E; [assumption | assumption].
Qed.

Lemma lstrip_suffix (s : str) : exists a, s = a ++ lstrip s.
Proof.
  induction s as [|x s [a IH]]; simpl.
  - exists []; reflexivity.
  - destruct (isspace x).
    + exists (x :: a). simpl. congruence.
    + exists []. reflexivity.
Qed.

Lemma rstrip_prefix (s : str) : exists b, s = rstrip s ++ b.
Proof.
  unfold rstrip. destruct (lstrip_suffix (rev s)) as [a Ha].
  exists (rev a). rewrite <- rev_app_distr, <- Ha, rev_involutive. reflexivity.
Qed.

Lemma strip_head (s : str) :
  match strip s with
  | [] => True
  | c :: _ => isspace c = false
  end.
Proof.
  unfold strip. pose proof (lstrip_head s) as H.
  destruct (lstrip s) as [|c t]; [exact I|].
  rewrite rstrip_cons_nonspace by assumption. assumption.
Qed.

Lemma forallb_app_inv {A} (P : A -> bool) (a b : list A) :
  forallb P (a ++ b) = true -> forallb P a = true /\ forallb P b = true.
Proof. rewrite forallb_app, andb_true_iff. auto. Qed.

Lemma strip_forallb (P : ascii -> bool) (s : str) :
  forallb P s = true -> forallb P (strip s) = true.
Proof.
  intros H. unfold strip.
  destruct (lstrip_suffix s) as [a Ha].
  destruct (rstrip_prefix (lstrip s)) as [b Hb].
  rewrite Ha in H. apply forallb_app_inv in H. destruct H as [_ H].
  rewrite Hb in H. apply forallb_app_inv in H. tauto.
Qed.

Lemma firstn_forallb {A} (P : A -> bool) (n : nat) (s : list A) :
  forallb P s = true -> forallb P (firstn n s) = true.
Proof.
  intros H. rewrite <- (firstn_skipn n s) in H.
  apply forallb_app_inv in H. tauto.
Qed.

Lemma lstrip_firstn_head (n : nat) (s : str) :
  match s with
  | [] => True
  | c :: _ => isspace c = false
  end ->
  lstrip (firstn n s) = firstn n s.
Proof.
  destruct s as [|c s]; destruct n; simpl; try reflexivity.
  intros ->. reflexivity.
Qed.

(* ================================================================== *)
(** * Sheet names *)
(* ================================================================== *)

Section SheetNames.

Lemma sheet_pattern_compiles :
  Re.compile (lit "[:\\/?*\[\]]") = Some (Re.Seq (Re.In sheet_class) Re.Eps).
Proof. reflexivity. Qed.

Lemma sheet_class_invalid (c : ascii) :
  Re.set_matches false sheet_class c = invalid_char c.
Proof. each_char c; reflexivity. Qed.

(** Replacing the matches of a one-character class rewrites the text
    character by character. *)
Lemma sub_class (rs : list (ascii * ascii)) (repl : str) :
  forall (s : str) (fuel : nat),
    length s < fuel ->
    Re.sub_loop fuel false (Re.Seq (Re.In rs) Re.Eps) repl false s
    = flat_map (fun c => if Re.set_matches false rs c then repl else [c]) s.
Proof.
  induction s as [|c s IH]; intros fuel Hf;
    (destruct fuel as [|f]; [inversion Hf|]); simpl.
  - reflexivity.
  - destruct (Re.set_matches false rs c) eqn:E.
    + replace (length s <? S (length s)) with true
        by (symmetry; apply Nat.ltb_lt; lia).
      rewrite IH by (simpl in Hf; lia). reflexivity.
    + rewrite IH by (simpl in Hf; lia). reflexivity.
Qed.

Lemma re_sub_sheet (name : str) :
  re_sub (lit "[:\\/?*\[\]]") (lit "-") name = Ok (map replace_invalid name).
Proof.
  unfold re_sub. rewrite sheet_pattern_compiles. unfold Re.sub_re.
  rewrite sub_class by lia. f_equal.
  induction name as [|c s IH]; [reflexivity|].
  cbn [flat_map map]. rewrite IH, sheet_class_invalid.
  unfold replace_invalid. destruct (invalid_char c); reflexivity.
Qed.

End SheetNames.

Lemma sanitize_sheet_name_eq (name : str) :
  sanitize_sheet_name name
  = Ok (or_placeholder (firstn 31 (strip (map replace_invalid name)))).
Proof.
  unfold sanitize_sheet_name. rewrite re_sub_sheet. reflexivity.
Qed.

Lemma replace_invalid_valid (c : ascii) :
  invalid_char (replace_invalid c) = false.
Proof. each_char c; reflexivity. Qed.

Lemma replace_invalid_id (c : ascii) :
  invalid_char c = false -> replace_invalid c = c.
Proof. unfold replace_invalid. intros ->. reflexivity. Qed.

Lemma map_replace_invalid_id (s : str) :
  forallb (fun c => negb (invalid_char c)) s = true ->
  map replace_invalid s = s.
Proof.
  induction s as [|c s IH]; simpl; [reflexivity|].
  rewrite andb_true_iff, negb_true_iff. intros [Hc Hs].
  rewrite replace_invalid_id, IH by assumption. reflexivity.
Qed.

Lemma map_replace_invalid_valid (s : str) :
  forallb (fun c => negb (invalid_char c)) (map replace_invalid s) = true.
Proof.
  induction s as [|c s IH]; simpl; [reflexivity|].
  rewrite replace_invalid_valid, IH. reflexivity.
Qed.

Lemma invalid_not_space (c : ascii) :
  invalid_char c = true -> isspace (replace_invalid c) = false.
Proof. each_char c; vm_compute; congruence. Qed.

Lemma map_replace_all_invalid (s : str) :
  forallb invalid_char s = true ->
  map replace_invalid s = repeat "-"%char (length s).
Proof.
  induction s as [|c s IH]; simpl; [reflexivity|].
  rewrite andb_true_iff. intros [Hc Hs].
  rewrite IH by assumption. unfold replace_invalid. rewrite Hc. reflexivity.
Qed.

Lemma strip_dashes (n : nat) :
  strip (repeat "-"%char n) = repeat "-"%char n.
Proof.
  unfold strip. destruct n as [|n]; [reflexivity|].
  simpl repeat. rewrite lstrip_nonspace by reflexivity.
  induction n as [|n IH].
  - reflexivity.
  - rewrite rstrip_cons_nonspace by reflexivity.
    simpl repeat. rewrite IH. reflexivity.
Qed.

Lemma firstn_repeat {A} (x : A) (k n : nat) :
  firstn k (repeat x n) = repeat x (Nat.min k n).
Proof.
  revert n; induction k as [|k IH]; intros [|n]; simpl; try reflexivity.
  rewrite IH. reflexivity.
Qed.

(** C5, the input on which it fails: a name of invalid characters only
    becomes a name of dashes, not the placeholder. *)
Lemma sanitize_all_invalid_not_placeholder :
  forallb invalid_char (lit "///") = true
  /\ sanitize_sheet_name (lit "///") = Ok (lit "---")
  /\ sanitize_sheet_name (lit "///") <> Ok placeholder.
Proof.
  split; [reflexivity|]. split; [reflexivity|].
  vm_compute. discriminate.
Qed.

(** C5 (amended): [sanitize_sheet_name] replaces each of [: \ / ? * [ ]]
    by a dash, trims, keeps the first 31 characters and gives the
    placeholder when nothing is left; "a/b:c*d" becomes "a-b-c-d"; a
    non-empty name of invalid characters only becomes as many dashes, at
    most 31. *)
Theorem sanitize_sheet_name_spec (name : str) :
  sanitize_sheet_name name
  = Ok (let kept := firstn 31 (strip (map replace_invalid name)) in
        match kept with
        | [] => placeholder
        | _ :: _ => kept
        end)
  /\ sanitize_sheet_name (lit "a/b:c*d") = Ok (lit "a-b-c-d")
  /\ (name <> [] -> forallb invalid_char name = true ->
      sanitize_sheet_name name
      = Ok (repeat "-"%char (Nat.min 31 (length name)))).
Proof.
  split; [|split].
  - rewrite sanitize_sheet_name_eq. unfold or_placeholder.
    destruct (firstn 31 (strip (map replace_invalid name))); reflexivity.
  - reflexivity.
  - intros Hne Hall. rewrite sanitize_sheet_name_eq.
    rewrite map_replace_all_invalid by assumption.
    rewrite strip_dashes, firstn_repeat.
    destruct name as [|c s]; [congruence|]. reflexivity.
Qed.

Lemma sanitize_sheet_name_spec_witness :
  lit "///" <> []
  /\ forallb invalid_char (lit "///") = true
  /\ sanitize_sheet_name (lit "///") = Ok (repeat "-"%char 3).
Proof.
  split; [discriminate|]. split; [reflexivity|].
  apply (sanitize_sheet_name_spec (lit "///")); [discriminate | reflexivity].
Defined.

Lemma Ok_inj {A} (a b : A) : Ok a = Ok b -> a = b.
Proof. congruence. Qed.

Lemma lstrip_idem (s : str) : lstrip (lstrip s) = lstrip s.
Proof.
  pose proof (lstrip_head s) as H.
  destruct (lstrip s) as [|c t]; [reflexivity|].
  apply lstrip_nonspace; assumption.
Qed.

Lemma rstrip_idem (s : str) : rstrip (rstrip s) = rstrip s.
Proof.
  unfold rstrip. rewrite rev_involutive, lstrip_idem. reflexivity.
Qed.

Lemma rstrip_length (s : str) : length (rstrip s) <= length s.
Proof.
  destruct (rstrip_prefix s) as [b Hb].
  rewrite Hb at 2. rewrite length_app. lia.
Qed.

Lemma lstrip_map (f : ascii -> ascii) (s : str) :
  (forall c, isspace (f c) = isspace c) ->
  lstrip (map f s) = map f (lstrip s).
Proof.
  intros Hf. induction s as [|c s IH]; simpl; [reflexivity|].
  rewrite Hf. destruct (isspace c); [assumption | reflexivity].
Qed.

Lemma strip_map (f : ascii -> ascii) (s : str) :
  (forall c, isspace (f c) = isspace c) ->
  strip (map f s) = map f (strip s).
Proof.
  intros Hf. unfold strip, rstrip.
  rewrite lstrip_map by assumption.
  rewrite <- map_rev, lstrip_map by assumption.
  rewrite map_rev. reflexivity.
Qed.

Lemma replace_invalid_space (c : ascii) :
  isspace (replace_invalid c) = isspace c.
Proof. each_char c; reflexivity. Qed.

(** A sanitized name, sanitized again, loses its trailing whitespace and
    nothing else. *)
Lemma sanitize_again (s : str) :
  let t := or_placeholder (firstn 31 (strip (map replace_invalid s))) in
  sanitize_sheet_name t = Ok (rstrip t).
Proof.
  intros t. rewrite sanitize_sheet_name_eq. subst t.
  set (u := strip (map replace_invalid s)).
  assert (Hvalid : forallb (fun c => negb (invalid_char c)) (firstn 31 u) = true).
  { apply firstn_forallb, strip_forallb, map_replace_invalid_valid. }
  assert (Hhead : lstrip (firstn 31 u) = firstn 31 u).
  { apply lstrip_firstn_head. apply strip_head. }
  assert (Hlen : length (firstn 31 u) <= 31) by apply firstn_le_length.
  unfold or_placeholder at 2 3.
  destruct (firstn 31 u) as [|c t] eqn:E.
  - reflexivity.
  - cbn [nonempty].
    rewrite map_replace_invalid_id by assumption.
    unfold strip. rewrite Hhead.
    rewrite firstn_all2 by (pose proof (rstrip_length (c :: t)); lia).
    assert (Hc : isspace c = false).
    { simpl in Hhead. destruct (isspace c); [|reflexivity].
      pose proof (lstrip_suffix t) as [a Ha].
      apply (f_equal (@length ascii)) in Hhead.
      rewrite Ha in Hhead at 2. simpl in Hhead. rewrite length_app in Hhead. lia. }
    rewrite rstrip_cons_nonspace by assumption. reflexivity.
Qed.

(** C10, the input on which it fails: thirty letters, a space and one
    letter more.  The cut at 31 characters leaves the space at the end,
    and the second pass trims it. *)
Lemma sanitize_sheet_name_not_idempotent :
  (name <- sanitize_sheet_name (lit "aaaaaaaaaaaaaaaaaaaaaaaaaaaaaa b") ;;
   sanitize_sheet_name name)
  <> sanitize_sheet_name (lit "aaaaaaaaaaaaaaaaaaaaaaaaaaaaaa b").
Proof. vm_compute. discriminate. Qed.

(** C10 (amended): sanitizing a sanitized name removes its trailing
    whitespace and changes nothing else; so
    [sanitize_sheet_name (sanitize_sheet_name s) = sanitize_sheet_name s]
    whenever [sanitize_sheet_name s] does not end in whitespace, and in
    particular whenever [s] trimmed has at most 31 characters. *)
Theorem sanitize_sheet_name_idempotent_trimmed (s : str) :
  (name <- sanitize_sheet_name s ;; sanitize_sheet_name name)
  = (name <- sanitize_sheet_name s ;; Ok (rstrip name))
  /\ (forall name, sanitize_sheet_name s = Ok name -> rstrip name = name ->
      sanitize_sheet_name name = Ok name)
  /\ (length (strip s) <= 31 ->
      (name <- sanitize_sheet_name s ;; sanitize_sheet_name name)
      = sanitize_sheet_name s).
Proof.
  pose proof (sanitize_again s) as H. cbv zeta in H.
  rewrite (sanitize_sheet_name_eq s). cbn [bind].
  split; [exact H|]. split.
  - intros name E Hr. apply Ok_inj in E. subst name.
    rewrite H. f_equal. exact Hr.
  - intros Hlen. rewrite H. f_equal.
    rewrite strip_map by apply replace_invalid_space.
    rewrite firstn_all2 by (rewrite length_map; assumption).
    unfold or_placeholder.
    destruct (map replace_invalid (strip s)) as [|c t] eqn:E; [reflexivity|].
    cbn [nonempty]. rewrite <- E.
    rewrite <- strip_map by apply replace_invalid_space.
    unfold strip. apply rstrip_idem.
Qed.

Lemma sanitize_sheet_name_idempotent_trimmed_witness :
  length (strip (lit " a/b ")) <= 31
  /\ (name <- sanitize_sheet_name (lit " a/b ") ;; sanitize_sheet_name name)
     = sanitize_sheet_name (lit " a/b ").
Proof.
  split; [vm_compute; lia|].
  apply (sanitize_sheet_name_idempotent_trimmed (lit " a/b ")).
  vm_compute; lia.
Defined.

(* ================================================================== *)
(** * The survey page: the two strategies *)
(* ================================================================== *)

Section SurveyPage.

Lemma table_rows_acc (trs : list node) (acc : list (list str)) :
  table_rows trs acc
  = acc ++ filter (fun cols => negb (length cols =? 0)) (map cells trs).
Proof.
  revert acc; induction trs as [|tr trs IH]; intros acc.
  - symmetry; apply app_nil_r.
  - change (table_rows (tr :: trs) acc)
      with (match cells tr with
            | [] => table_rows trs acc
            | _ :: _ => table_rows trs (acc ++ [cells tr])
            end).
    cbn [map filter]. destruct (cells tr) as [|c cs] eqn:E.
    + apply IH.
    + rewrite IH, <- app_assoc. reflexivity.
Qed.

Lemma leb_max (k a b : nat) :
  (k <=? Nat.max a b) = (k <=? a) || (k <=? b).
Proof.
  destruct (k <=? a) eqn:A; destruct (k <=? b) eqn:B; simpl;
    repeat match goal with
           | H : (_ <=? _) = true |- _ => apply Nat.leb_le in H
           | H : (_ <=? _) = false |- _ => apply Nat.leb_gt in H
           end;
    [apply Nat.leb_le | apply Nat.leb_le | apply Nat.leb_le
     | apply Nat.leb_gt]; lia.
Qed.

Lemma width_two (rs : list (list str)) :
  (2 <=? width rs) = existsb (fun r => 2 <=? length r) rs.
Proof.
  induction rs as [|r rs IH]; [reflexivity|].
  cbn [existsb]. rewrite <- IH.
  change (width (r :: rs)) with (Nat.max (length r) (width rs)).
  apply leb_max.
Qed.

Lemma width_bound (rs : list (list str)) (r : list str) :
  In r rs -> length r <= width rs.
Proof.
  induction rs as [|x rs IH]; simpl; [tauto|].
  intros [->|H]; [lia | specialize (IH H); lia].
Qed.

Lemma firstn_two_pad (w : nat) (r : list str) :
  2 <= w -> length r <= w -> r <> [] ->
  first_two r = [firstn 2 (pad w r)].
Proof.
  intros Hw Hr Hne. unfold pad.
  destruct r as [|q [|a r]]; [congruence| |reflexivity].
  simpl. destruct w as [|[|w]]; try lia. reflexivity.
Qed.

Lemma first_two_rows (w : nat) (rs : list (list str)) :
  2 <= w -> (forall r, In r rs -> length r <= w) ->
  flat_map first_two rs
  = map (firstn 2)
        (map (pad w) (filter (fun cols => negb (length cols =? 0)) rs)).
Proof.
  intros Hw. induction rs as [|r rs IH]; intros Hb; simpl; [reflexivity|].
  rewrite IH by (intros; apply Hb; right; assumption).
  destruct r as [|q r]; [reflexivity|].
  rewrite (@firstn_two_pad w (q :: r)); try assumption;
    [reflexivity | apply Hb; left; reflexivity | discriminate].
Qed.

Lemma existsb_map_comp {A B} (f : B -> bool) (g : A -> B) (l : list A) :
  existsb f (map g l) = existsb (fun x => f (g x)) l.
Proof.
  induction l as [|x l IH]; [reflexivity|].
  cbn [map existsb]. rewrite IH. reflexivity.
Qed.

Lemma flat_map_map_comp {A B C} (f : B -> list C) (g : A -> B)
      (l : list A) :
  flat_map f (map g l) = flat_map (fun x => f (g x)) l.
Proof.
  induction l as [|x l IH]; [reflexivity|].
  cbn [map flat_map]. rewrite IH. reflexivity.
Qed.

Lemma existsb_filter_rows (rs : list (list str)) :
  existsb (fun r => 2 <=? length r)
          (filter (fun cols => negb (length cols =? 0)) rs)
  = existsb (fun r => 2 <=? length r) rs.
Proof.
  induction rs as [|r rs IH]; [reflexivity|].
  destruct r as [|q r]; cbn [filter length Nat.eqb negb existsb];
    rewrite IH; reflexivity.
Qed.

(** What the table strategy makes of the rows of a table. *)
Lemma table_frame (best : node) :
  let df := DataFrame_of_lists (table_rows (find_all [lit "tr"] best) []) in
  (2 <=? shape1 df) = qualifying_table best
  /\ (qualifying_table best = true ->
      set_columns qr_columns (iloc_cols 2 df)
      = Ok {| columns := qr_columns; rows := table_pairs best |}).
Proof.
  cbv zeta. rewrite table_rows_acc. cbn [app].
  set (rs := filter _ _).
  assert (Hq : (2 <=? width rs) = qualifying_table best).
  { rewrite width_two. unfold rs. rewrite existsb_filter_rows.
    unfold qualifying_table.
    exact (existsb_map_comp (fun r => 2 <=? length r) cells _). }
  assert (Hs : shape1 (DataFrame_of_lists rs) = width rs).
  { unfold shape1, DataFrame_of_lists. cbn [columns].
    rewrite length_map, length_seq. reflexivity. }
  split.
  - rewrite Hs. exact Hq.
  - intros Hqual. rewrite Hqual in Hq. apply Nat.leb_le in Hq.
    unfold set_columns, iloc_cols, DataFrame_of_lists. cbn [columns rows].
    rewrite length_firstn, length_map, length_seq.
    rewrite (Nat.min_l 2 (width rs)) by assumption.
    change (length qr_columns =? 2) with true. cbv iota.
    f_equal. f_equal. unfold table_pairs.
    transitivity (flat_map first_two (map cells (find_all [lit "tr"] best))).
    + unfold rs. symmetry. apply first_two_rows; [assumption|].
      intros r Hr. destruct r as [|q r]; [simpl; lia|].
      apply width_bound. apply filter_In. split; [assumption | reflexivity].
    + exact (flat_map_map_comp first_two cells _).
Qed.

End SurveyPage.

Section FreeText.

Lemma break_at_spec (c : ascii) (s q r : str) :
  break_at c s = Some (q, r) <-> s = q ++ c :: r /\ ~ In c q.
Proof.
  revert q; induction s as [|x s IH]; intros q; cbn [break_at].
  - split; [discriminate|]. intros [E _]. destruct q; discriminate.
  - destruct (Ascii.eqb x c) eqn:E.
    + apply Ascii.eqb_eq in E. subst x. split.
      * intros H. injection H as <- <-. split; [reflexivity | tauto].
      * intros [H Hn]. destruct q as [|y q].
        -- injection H as ->. reflexivity.
        -- injection H as <- _. exfalso. apply Hn. left; reflexivity.
    + apply Ascii.eqb_neq in E. split.
      * destruct (break_at c s) as [[a b]|] eqn:B; [|discriminate].
        intros H. injection H as <- <-.
        destruct (proj1 (IH a) eq_refl) as [-> Hn].
        split; [reflexivity|]. intros [H|H]; [congruence | tauto].
      * intros [H Hn]. destruct q as [|y q].
        -- injection H as H _. congruence.
        -- injection H as <- ->.
           rewrite (proj2 (IH q)); [reflexivity|].
           split; [reflexivity|]. intros H. apply Hn. right; assumption.
Qed.

Lemma break_at_contains (c : ascii) (s : str) :
  contains_char c s = true -> exists q r, break_at c s = Some (q, r).
Proof.
  induction s as [|x s IH]; cbn [contains_char existsb break_at];
    [discriminate|].
  rewrite Ascii.eqb_sym.
  destruct (Ascii.eqb x c); [intros _; eauto|].
  cbn [orb]. intros H. destruct (IH H) as [q [r ->]]. eauto.
Qed.

Lemma text_items_acc (tags : list node) (acc : list (list str)) :
  text_items tags acc = Ok (acc ++ map item_of (filter has_colon tags)).
Proof.
  revert acc; induction tags as [|tag tags IH]; intros acc.
  - cbn [text_items filter map]. rewrite app_nil_r. reflexivity.
  - cbn [text_items filter]. fold (has_colon tag).
    destruct (has_colon tag) eqn:E.
    + destruct (break_at_contains _ _ E) as [q [r B]].
      cbn [split]. rewrite B. cbn [unpack2 bind fst snd].
      rewrite IH, <- app_assoc. cbn [map app].
      unfold item_of at 2. rewrite B. reflexivity.
    + apply IH.
Qed.

Lemma item_of_length (tag : node) :
  has_colon tag = true -> length (item_of tag) = 2.
Proof.
  intros E. destruct (break_at_contains _ _ E) as [q [r B]].
  unfold item_of. rewrite B. reflexivity.
Qed.

Lemma width_const (k : nat) (rs : list (list str)) :
  rs <> [] -> (forall r, In r rs -> length r = k) -> width rs = k.
Proof.
  induction rs as [|r rs IH]; [congruence|]. intros _ H.
  change (width (r :: rs)) with (Nat.max (length r) (width rs)).
  rewrite (H r) by (left; reflexivity).
  destruct rs as [|r' rs'].
  - cbn. lia.
  - rewrite IH; [lia | discriminate |].
    intros x Hx. apply H. right; assumption.
Qed.

Lemma pad_exact (r : list str) : pad (length r) r = map Some r.
Proof. unfold pad. rewrite Nat.sub_diag. apply app_nil_r. Qed.

(** What the free-text strategy makes of the paragraphs and items. *)
Lemma text_frame (soup : node) :
  (items <- text_items (find_all [lit "p"; lit "li"] soup) [] ;;
   match items with
   | _ :: _ => DataFrame_of_lists_named items qr_columns
   | [] => Ok (DataFrame_empty qr_columns)
   end)
  = Ok {| columns := qr_columns; rows := text_pairs soup |}.
Proof.
  rewrite text_items_acc. cbn [app bind]. unfold text_pairs.
  set (tags := filter has_colon _).
  assert (Hlen : forall r, In r (map item_of tags) -> length r = 2).
  { intros r Hr. apply in_map_iff in Hr. destruct Hr as [t [<- Ht]].
    apply item_of_length. apply filter_In in Ht. tauto. }
  rewrite <- (map_map item_of (map Some)).
  destruct (map item_of tags) as [|i items] eqn:E; [reflexivity|].
  unfold DataFrame_of_lists_named, DataFrame_of_lists, set_columns.
  rewrite (@width_const 2 (i :: items)) by (discriminate || assumption).
  cbn [columns rows]. change (length qr_columns =? _) with true. cbv iota.
  f_equal. f_equal. apply map_ext_in. intros r Hr.
  rewrite <- (Hlen r Hr). apply pad_exact.
Qed.

End FreeText.

(* ================================================================== *)
(** * The survey page: the frame that is returned *)
(* ================================================================== *)

Lemma biosample_pattern_compiles :
  Re.compile biosample_pattern = Some biosample_re.
Proof. reflexivity. Qed.

Lemma accession_pattern_compiles :
  Re.compile accession_pattern = Some accession_re.
Proof. reflexivity. Qed.

Lemma sample_id_pattern_compiles :
  Re.compile sample_id_pattern = Some sample_id_re.
Proof. reflexivity. Qed.

(** The identifier pair in terms of the three compiled patterns. *)
Lemma identifiers_eq (text : str) :
  identifiers text
  = Ok (match Re.search_re true biosample_re text with
        | Some m => Re.group m 1
        | None =>
            match Re.search_re true sample_id_re text with
            | Some m => Re.group m 2
            | None => None
            end
        end,
        match Re.search_re true accession_re text with
        | Some m => Re.group m 1
        | None => None
        end).
Proof.
  unfold identifiers, re_search.
  rewrite biosample_pattern_compiles, accession_pattern_compiles,
    sample_id_pattern_compiles.
  reflexivity.
Qed.

Lemma attach_columns (qr : list (list cell)) (b a u : cell) :
  setitem_scalar
    (setitem_scalar
       (setitem_scalar
          {| columns := qr_columns; rows := qr |}
          (col "biosample_id") b)
       (col "accession_id") a)
    (col "source_url") u
  = {| columns := survey_columns;
       rows := map (fun r => r ++ [b; a; u]) qr |}.
Proof.
  unfold setitem_scalar. cbn [columns rows].
  change (index_of (col "biosample_id") qr_columns) with (@None nat).
  cbn [columns rows].
  change (index_of (col "accession_id") (qr_columns ++ [col "biosample_id"]))
    with (@None nat).
  cbn [columns rows].
  change (index_of (col "source_url")
                   ((qr_columns ++ [col "biosample_id"])
                      ++ [col "accession_id"]))
    with (@None nat).
  cbn [columns rows].
  f_equal. rewrite !map_map. apply map_ext. intros r.
  rewrite <- !app_assoc. reflexivity.
Qed.

(** [parse_survey_page] never raises; it returns the pairs of the one
    strategy that ran, each with the identifiers and the URL of the page
    behind it. *)
Lemma parse_survey_page_eq (soup : node) (url : str) :
  exists ids,
    identifiers (get_text (lit " ") true soup) = Ok ids
    /\ parse_survey_page soup url
       = Ok {| columns := survey_columns;
               rows := map (fun r => r ++ [fst ids; snd ids; Some url])
                           (survey_pairs soup) |}.
Proof.
  unfold parse_survey_page. fold qr_columns.
  rewrite (identifiers_eq (get_text (lit " ") true soup)).
  eexists. split; [reflexivity|]. cbn [bind].
  set (b := fst _). set (a := snd _).
  unfold survey_pairs, selected_table.
  destruct (find_all [lit "table"] soup) as [|t ts] eqn:Et.
  - cbn [bind max_by]. rewrite text_frame. cbn [bind].
    rewrite attach_columns. reflexivity.
  - cbn [max_by bind].
    set (best := fold_left _ ts t).
    change (fold_left _ ts t) with best.
    destruct (table_frame best) as [H1 H2]. fold (row_count).
    rewrite H1. destruct (qualifying_table best) eqn:Q.
    + rewrite H2 by reflexivity. cbn [bind].
      rewrite attach_columns. reflexivity.
    + cbn [bind]. rewrite text_frame. cbn [bind].
      rewrite attach_columns. reflexivity.
Qed.

Lemma fold_left_max {A} (key : A -> nat) (l : list A) (x : A) :
  let best := fold_left (fun b y => if key b <? key y then y else b) l x in
  (best = x \/ In best l)
  /\ key x <= key best
  /\ (forall y, In y l -> key y <= key best).
Proof.
  revert x; induction l as [|y l IH]; intros x; cbn [fold_left].
  - cbv zeta. split; [left; reflexivity|]. split; [lia | intros y []].
  - specialize (IH (if key x <? key y then y else x)). cbv zeta in IH |- *.
    destruct IH as [Hin [Hle Hall]].
    destruct (key x <? key y) eqn:E;
      [apply Nat.ltb_lt in E | apply Nat.ltb_ge in E].
    + split; [right; destruct Hin as [->|Hin]; [left; reflexivity
                                               | right; assumption]|].
      split; [lia|]. intros z [<-|Hz]; [assumption | apply Hall; assumption].
    + split; [destruct Hin as [->|Hin]; [left; reflexivity
                                        | right; right; assumption]|].
      split; [assumption|].
      intros z [<-|Hz]; [lia | apply Hall; assumption].
Qed.

(** The selected table is one of the tables of the page, and none has
    more rows. *)
Lemma selected_table_spec (soup best : node) :
  selected_table soup = Some best ->
  In best (find_all [lit "table"] soup)
  /\ (forall t, In t (find_all [lit "table"] soup) ->
      row_count t <= row_count best).
Proof.
  unfold selected_table.
  destruct (find_all [lit "table"] soup) as [|t ts]; [discriminate|].
  cbn [max_by]. intros E. injection E as <-.
  destruct (fold_left_max row_count ts t) as [Hin [Hle Hall]].
  split.
  - destruct Hin as [->|Hin]; [left; reflexivity | right; assumption].
  - intros x [<-|Hx]; [assumption | apply Hall; assumption].
Qed.

Lemma selected_table_none (soup : node) :
  selected_table soup = None <-> find_all [lit "table"] soup = [].
Proof.
  unfold selected_table.
  destruct (find_all [lit "table"] soup) as [|t ts]; cbn [max_by].
  - tauto.
  - split; discriminate.
Qed.

Lemma first_two_shape (cols : list str) (qr : list cell) :
  In qr (first_two cols) -> exists q r, qr = [Some q; r].
Proof.
  destruct cols as [|q [|r cols]]; cbn [first_two In]; [tauto | |];
    intros [<-|[]]; eauto.
Qed.

Lemma table_pairs_shape (best : node) (qr : list cell) :
  In qr (table_pairs best) -> exists q r, qr = [Some q; r].
Proof.
  unfold table_pairs. intros H. apply in_flat_map in H.
  destruct H as [tr [_ H]]. exact (first_two_shape _ _ H).
Qed.

Lemma text_pairs_shape (soup : node) (qr : list cell) :
  In qr (text_pairs soup) -> exists q r, qr = [Some q; Some r].
Proof.
  unfold text_pairs. intros H. apply in_map_iff in H.
  destruct H as [t [<- Ht]]. apply filter_In in Ht. destruct Ht as [_ Ht].
  destruct (break_at_contains _ _ Ht) as [q [r B]].
  unfold item_of. rewrite B. cbn [map]. eauto.
Qed.

Lemma survey_pairs_shape (soup : node) (qr : list cell) :
  In qr (survey_pairs soup) -> exists q r, qr = [Some q; r].
Proof.
  unfold survey_pairs.
  assert (T : In qr (text_pairs soup) -> exists q r, qr = [Some q; r]).
  { intros H. destruct (text_pairs_shape _ _ H) as [q [r ->]]. eauto. }
  destruct (selected_table soup) as [best|]; [|exact T].
  destruct (qualifying_table best); [apply table_pairs_shape | exact T].
Qed.

(** The (question, response) part of the returned frame is what the
    strategy that ran has found. *)
Lemma parse_survey_page_pairs (soup : node) (url : str) :
  exists df,
    parse_survey_page soup url = Ok df
    /\ columns df = survey_columns
    /\ question_response df = survey_pairs soup.
Proof.
  destruct (parse_survey_page_eq soup url) as [ids [_ E]].
  eexists. split; [exact E|]. split; [reflexivity|].
  unfold question_response. cbn [rows]. rewrite map_map.
  rewrite <- (map_id (survey_pairs soup)) at 2.
  apply map_ext_in. intros qr Hqr.
  destruct (survey_pairs_shape _ _ Hqr) as [q [r ->]]. reflexivity.
Qed.

Lemma Forall2_map_both {A B C} (R : B -> C -> Prop) (f : A -> B) (g : A -> C)
      (l : list A) :
  (forall x, In x l -> R (f x) (g x)) -> Forall2 R (map f l) (map g l).
Proof.
  induction l as [|x l IH]; intros H; cbn [map]; constructor.
  - apply H. left; reflexivity.
  - apply IH. intros y Hy. apply H. right; assumption.
Qed.

Lemma survey_pairs_text (soup : node) :
  (forall best, selected_table soup = Some best ->
                qualifying_table best = false) ->
  survey_pairs soup = text_pairs soup.
Proof.
  intros H. unfold survey_pairs.
  destruct (selected_table soup) as [best|]; [|reflexivity].
  rewrite (H best eq_refl). reflexivity.
Qed.

(* ------------------------------------------------------------------ *)
(** ** C1 *)

(** C1, the page on which it fails: the selected table has a row of two
    cells and a row of one cell; the one-cell row is kept, with its cell
    as the question and a missing response. *)
Lemma one_cell_row_is_kept :
  exists df,
    parse_survey_page Samples.ragged_page Samples.url = Ok df
    /\ In [Some (lit "Header"); None; None; None; Some Samples.url] (rows df).
Proof.
  eexists. split; [vm_compute; reflexivity|].
  right. left. reflexivity.
Qed.

(** C1 (amended): when the selected table has a row of two cells or more,
    every row of it with at least one cell gives one record, in order:
    the first two cell texts as (question, response) when the row has two
    cells or more, the only cell text as the question with a missing
    response when it has one; rows without cells give nothing, and the
    question is never missing.  When no row of the selected table has two
    cells, the table gives nothing and the free-text strategy runs. *)
Theorem table_rows_first_two_cells (soup : node) (url : str) (best : node) :
  selected_table soup = Some best ->
  exists df,
    parse_survey_page soup url = Ok df
    /\ (qualifying_table best = true ->
        question_response df
        = flat_map (fun tr =>
                      match cells tr with
                      | [] => []
                      | [q] => [[Some q; None]]
                      | q :: r :: _ => [[Some q; Some r]]
                      end) (find_all [lit "tr"] best)
        /\ Forall (fun row => exists q, nth_error row 0 = Some (Some q))
                  (rows df))
    /\ (qualifying_table best = false ->
        question_response df = text_pairs soup).
Proof.
  intros Hsel.
  destruct (parse_survey_page_eq soup url) as [ids [_ E]].
  destruct (parse_survey_page_pairs soup url) as [df [E' [_ Hqr]]].
  exists df. split; [exact E'|].
  unfold survey_pairs in Hqr. rewrite Hsel in Hqr.
  split; intros Q; rewrite Q in Hqr; [|exact Hqr].
  split; [exact Hqr|].
  rewrite E in E'. apply Ok_inj in E'. subst df. cbn [rows].
  apply Forall_forall. intros row Hrow. apply in_map_iff in Hrow.
  destruct Hrow as [qr [<- Hqr']].
  destruct (survey_pairs_shape _ _ Hqr') as [q [r ->]].
  exists q. reflexivity.
Qed.

Lemma table_rows_first_two_cells_witness :
  selected_table Samples.ragged_page = Some Samples.ragged_table
  /\ exists df,
    parse_survey_page Samples.ragged_page Samples.url = Ok df
    /\ (qualifying_table Samples.ragged_table = true ->
        question_response df
        = flat_map (fun tr =>
                      match cells tr with
                      | [] => []
                      | [q] => [[Some q; None]]
                      | q :: r :: _ => [[Some q; Some r]]
                      end) (find_all [lit "tr"] Samples.ragged_table)
        /\ Forall (fun row => exists q, nth_error row 0 = Some (Some q))
                  (rows df))
    /\ (qualifying_table Samples.ragged_table = false ->
        question_response df = text_pairs Samples.ragged_page).
Proof.
  split; [reflexivity|].
  apply (table_rows_first_two_cells Samples.ragged_page Samples.url
                                    (best := Samples.ragged_table)).
  reflexivity.
Defined.

(* ------------------------------------------------------------------ *)
(** ** C2 *)

(** C2: exactly one strategy gives the rows.  Either the page has tables,
    the one looked at is a table with the most rows, it has a row of two
    cells or more, and the rows are those of that table; or the page has
    no table, or the table with the most rows that is looked at has no
    row of two cells, and the rows are those of the free text. *)
Theorem one_strategy_contributes (soup : node) (url : str) :
  exists df,
    parse_survey_page soup url = Ok df
    /\ ((exists best,
            In best (find_all [lit "table"] soup)
            /\ Forall (fun t => length (find_all [lit "tr"] t)
                               <= length (find_all [lit "tr"] best))
                      (find_all [lit "table"] soup)
            /\ selected_table soup = Some best
            /\ qualifying_table best = true
            /\ question_response df = table_pairs best)
        \/ ((find_all [lit "table"] soup = []
             \/ exists best,
                 In best (find_all [lit "table"] soup)
                 /\ Forall (fun t => length (find_all [lit "tr"] t)
                                    <= length (find_all [lit "tr"] best))
                           (find_all [lit "table"] soup)
                 /\ selected_table soup = Some best
                 /\ qualifying_table best = false)
            /\ question_response df = text_pairs soup)).
Proof.
  destruct (parse_survey_page_pairs soup url) as [df [E [_ Hqr]]].
  exists df. split; [exact E|].
  unfold survey_pairs in Hqr.
  destruct (selected_table soup) as [best|] eqn:Hsel.
  - destruct (selected_table_spec _ Hsel) as [Hin Hmax].
    apply Forall_forall in Hmax.
    destruct (qualifying_table best) eqn:Q.
    + left. exists best. repeat split; assumption.
    + right. split; [|exact Hqr].
      right. exists best. repeat split; assumption.
  - right. split; [|exact Hqr].
    left. apply selected_table_none. exact Hsel.
Qed.

(* ------------------------------------------------------------------ *)
(** ** C3 *)

(** C3: when the free-text strategy runs, the paragraphs and list items
    with a colon give one record each, in order, cut at the first colon
    with both sides trimmed, and the others give nothing; two list items
    "Diet: Omnivore" and "NoColonHere" on a page without tables give the
    one record (Diet, Omnivore). *)
Theorem free_text_first_colon (soup : node) (url : str) :
  (forall best, selected_table soup = Some best ->
                qualifying_table best = false) ->
  exists df,
    parse_survey_page soup url = Ok df
    /\ Forall2 colon_record
               (map (get_text [] false)
                    (filter (fun tag =>
                               contains_char ":" (get_text [] false tag))
                            (find_all [lit "p"; lit "li"] soup)))
               (question_response df)
    /\ (map (get_text [] false) (find_all [lit "p"; lit "li"] soup)
        = [lit "Diet: Omnivore"; lit "NoColonHere"] ->
        question_response df = [[Some (lit "Diet"); Some (lit "Omnivore")]]).
Proof.
  intros Hfree.
  destruct (parse_survey_page_pairs soup url) as [df [E [_ Hqr]]].
  exists df. split; [exact E|].
  rewrite (survey_pairs_text _ Hfree) in Hqr. rewrite Hqr.
  unfold text_pairs. split.
  - apply Forall2_map_both. intros tag Htag.
    apply filter_In in Htag. destruct Htag as [_ Hc].
    destruct (break_at_contains _ _ Hc) as [q [r B]].
    unfold item_of. rewrite B. cbn [map].
    apply break_at_spec in B. destruct B as [-> Hn].
    constructor. exact Hn.
  - intros Htexts.
    destruct (find_all [lit "p"; lit "li"] soup) as [|a [|b [|c l]]];
      try discriminate.
    cbn [map] in Htexts. injection Htexts as Ha Hb.
    cbn [filter]. unfold has_colon, item_of. rewrite Ha, Hb.
    change (contains_char ":" (lit "Diet: Omnivore")) with true.
    change (contains_char ":" (lit "NoColonHere")) with false.
    cbn [map]. rewrite Ha. reflexivity.
Qed.

Lemma free_text_first_colon_witness :
  (forall best, selected_table Samples.list_page = Some best ->
                qualifying_table best = false)
  /\ exists df,
    parse_survey_page Samples.list_page Samples.url = Ok df
    /\ Forall2 colon_record
               (map (get_text [] false)
                    (filter (fun tag =>
                               contains_char ":" (get_text [] false tag))
                            (find_all [lit "p"; lit "li"] Samples.list_page)))
               (question_response df)
    /\ (map (get_text [] false)
            (find_all [lit "p"; lit "li"] Samples.list_page)
        = [lit "Diet: Omnivore"; lit "NoColonHere"] ->
        question_response df = [[Some (lit "Diet"); Some (lit "Omnivore")]]).
Proof.
  assert (H : forall best, selected_table Samples.list_page = Some best ->
                           qualifying_table best = false)
    by (intros best H; vm_compute in H; discriminate).
  split; [exact H|].
  apply (free_text_first_colon Samples.list_page Samples.url H).
Defined.

(* ------------------------------------------------------------------ *)
(** ** C7 *)

(** C7: a page on which no table has a row of two cells and no paragraph
    or list item has a colon gives, without an exception, the frame of
    the five columns and no row. *)
Theorem empty_page_empty_frame (soup : node) (url : str) :
  (forall t, In t (find_all [lit "table"] soup) ->
             qualifying_table t = false) ->
  (forall tag, In tag (find_all [lit "p"; lit "li"] soup) ->
               contains_char ":" (get_text [] false tag) = false) ->
  parse_survey_page soup url
  = Ok {| columns := [col "question"; col "response"; col "biosample_id";
                      col "accession_id"; col "source_url"];
          rows := [] |}.
Proof.
  intros Htab Htext.
  destruct (parse_survey_page_eq soup url) as [ids [_ E]]. rewrite E.
  rewrite survey_pairs_text.
  - unfold text_pairs.
    replace (filter has_colon (find_all [lit "p"; lit "li"] soup))
      with (@nil node); [reflexivity|].
    symmetry.
    induction (find_all [lit "p"; lit "li"] soup) as [|tag tags IH];
      [reflexivity|].
    cbn [filter]. unfold has_colon at 1.
    rewrite Htext by (left; reflexivity).
    apply IH. intros t Ht. apply Htext. right; assumption.
  - intros best Hsel. apply Htab.
    apply (selected_table_spec _ Hsel).
Qed.

Lemma empty_page_empty_frame_witness :
  (forall t, In t (find_all [lit "table"] Samples.bare_page) ->
             qualifying_table t = false)
  /\ (forall tag, In tag (find_all [lit "p"; lit "li"] Samples.bare_page) ->
                  contains_char ":" (get_text [] false tag) = false)
  /\ parse_survey_page Samples.bare_page Samples.url
  = Ok {| columns := [col "question"; col "response"; col "biosample_id";
                      col "accession_id"; col "source_url"];
          rows := [] |}.
Proof.
  assert (H1 : forall t, In t (find_all [lit "table"] Samples.bare_page) ->
                         qualifying_table t = false)
    by (intros t Ht; vm_compute in Ht; destruct Ht as [<-|[]]; reflexivity).
  assert (H2 : forall tag,
             In tag (find_all [lit "p"; lit "li"] Samples.bare_page) ->
             contains_char ":" (get_text [] false tag) = false)
    by (intros tag Ht; vm_compute in Ht; destruct Ht).
  split; [exact H1|]. split; [exact H2|].
  apply (empty_page_empty_frame Samples.bare_page Samples.url H1 H2).
Defined.

(* ------------------------------------------------------------------ *)
(** ** C8 *)

(** C8: every row of the returned frame ends in the same three values:
    the biosample identifier of the page, its accession identifier and
    the URL that was passed. *)
Theorem page_metadata_on_every_row (soup : node) (url : str) :
  exists df biosample_id accession_id,
    parse_survey_page soup url = Ok df
    /\ identifiers (get_text (lit " ") true soup)
       = Ok (biosample_id, accession_id)
    /\ columns df = [col "question"; col "response"; col "biosample_id";
                     col "accession_id"; col "source_url"]
    /\ Forall (fun row =>
                 exists question response,
                   row = [question; response; biosample_id; accession_id;
                          Some url])
              (rows df).
Proof.
  destruct (parse_survey_page_eq soup url) as [[b a] [Hid E]].
  eexists. exists b, a. split; [exact E|]. split; [exact Hid|].
  split; [reflexivity|]. cbn [rows fst snd].
  apply Forall_forall. intros row Hrow. apply in_map_iff in Hrow.
  destruct Hrow as [qr [<- Hqr]].
  destruct (survey_pairs_shape _ _ Hqr) as [q [r ->]].
  exists (Some q), r. reflexivity.
Qed.

(* ================================================================== *)
(** * The matcher on the patterns of the program *)
(* ================================================================== *)

Section MatcherSteps.
Variable A : Type.
Variable ic : bool.
Implicit Types (k : str -> Re.groups -> option A) (s : str) (g : Re.groups).

Lemma matcher_seq r1 r2 s g k :
  Re.matcher ic (Re.Seq r1 r2) s g k
  = Re.matcher ic r1 s g (fun s1 g1 => Re.matcher ic r2 s1 g1 k).
Proof. reflexivity. Qed.

Lemma matcher_eps s g k : Re.matcher ic Re.Eps s g k = k s g.
Proof. reflexivity. Qed.

Lemma matcher_alt r1 r2 s g k :
  Re.matcher ic (Re.Alt r1 r2) s g k
  = match Re.matcher ic r1 s g k with
    | Some x => Some x
    | None => Re.matcher ic r2 s g k
    end.
Proof. reflexivity. Qed.

Lemma matcher_group n r s g k :
  Re.matcher ic (Re.Group n r) s g k
  = Re.matcher ic r s g
      (fun s1 g1 => k s1 ((n, firstn (length s - length s1) s) :: g1)).
Proof. reflexivity. Qed.

Lemma matcher_lits p r s g k :
  Re.matcher ic (lits p r) s g k
  = if lits_prefix ic p s
    then Re.matcher ic r (skipn (length p) s) g k
    else None.
Proof.
  revert s; induction p as [|x p IH]; intros s.
  - reflexivity.
  - cbn [lits fold_right lits_prefix length skipn].
    rewrite matcher_seq. cbn [Re.matcher].
    destruct s as [|y s]; [reflexivity|].
    destruct (Re.lit_matches ic x y); cbn [andb]; [apply IH | reflexivity].
Qed.

Lemma plus_class_cons (P : ascii -> bool) (k' : str -> option A) c s :
  plus_class P k' (c :: s)
  = if P c then
      match plus_class P k' s with
      | Some x => Some x
      | None => k' s
      end
    else None.
Proof. reflexivity. Qed.

(** A repeated class is matched by the longest run first. *)
Lemma matcher_plus_class rs s g k :
  Re.matcher ic (Re.Plus (Re.In rs)) s g k
  = plus_class (Re.set_matches ic rs) (fun s' => k s' g) s.
Proof.
  cbn [Re.matcher].
  destruct s as [|c s]; [reflexivity|].
  rewrite plus_class_cons.
  destruct (Re.set_matches ic rs c); [|reflexivity].
  replace (length s <? length (c :: s)) with true
    by (symmetry; apply Nat.ltb_lt; cbn [length]; lia).
  match goal with
  | |- match ?F ?n s g with _ => _ end = _ =>
      assert (H : forall s' fuel, length s' < fuel ->
                  F fuel s' g
                  = plus_class (Re.set_matches ic rs) (fun s' => k s' g) s')
  end.
  { induction s' as [|d s' IH]; intros fuel Hf;
      (destruct fuel as [|f]; [inversion Hf|]).
    - reflexivity.
    - rewrite plus_class_cons.
      destruct (Re.set_matches ic rs d); [|reflexivity].
      replace (length s' <? length (d :: s')) with true
        by (symmetry; apply Nat.ltb_lt; cbn [length]; lia).
      rewrite IH by (cbn [length] in Hf; lia). reflexivity. }
  rewrite H by (cbn [length]; lia). reflexivity.
Qed.

Lemma plus_class_ext (P Q : ascii -> bool) (k' : str -> option A) s :
  (forall c, P c = Q c) -> plus_class P k' s = plus_class Q k' s.
Proof.
  intros H. induction s as [|c s IH]; [reflexivity|].
  rewrite !plus_class_cons, H, IH. reflexivity.
Qed.

(** When the continuation that fails after the longest run fails after
    every shorter one, only the longest run counts. *)
Lemma plus_class_longest (P : ascii -> bool) (k' : str -> option A) c s :
  P c = true ->
  (forall d s', P d = true -> k' (dropwhile P s') = None ->
                k' (d :: s') = None) ->
  plus_class P k' (c :: s) = k' (dropwhile P s).
Proof.
  intros Hc H. revert c Hc; induction s as [|d s IH]; intros c Hc;
    rewrite plus_class_cons, Hc.
  - reflexivity.
  - cbn [dropwhile]. destruct (P d) eqn:Hd.
    + rewrite (IH d Hd).
      destruct (k' (dropwhile P s)) eqn:E; [reflexivity|].
      apply H; assumption.
    + rewrite plus_class_cons, Hd. reflexivity.
Qed.

End MatcherSteps.

Lemma take_drop (P : ascii -> bool) (s : str) :
  s = takewhile P s ++ dropwhile P s.
Proof.
  induction s as [|c s IH]; [reflexivity|].
  cbn [takewhile dropwhile]. destruct (P c); [|reflexivity].
  cbn [app]. f_equal. exact IH.
Qed.

Lemma firstn_takewhile (P : ascii -> bool) (s : str) :
  firstn (length s - length (dropwhile P s)) s = takewhile P s.
Proof.
  rewrite (take_drop P s) at 1 3. rewrite length_app.
  replace (length (takewhile P s) + length (dropwhile P s)
           - length (dropwhile P s)) with (length (takewhile P s) + 0) by lia.
  rewrite firstn_app_2. cbn [firstn]. apply app_nil_r.
Qed.

Lemma sep_class_is_sep (c : ascii) :
  Re.set_matches true sep_class c = is_sep c.
Proof. each_char c; reflexivity. Qed.

Lemma token_class_is_token (dot : bool) (c : ascii) :
  Re.set_matches true (token_class dot) c = is_token dot c.
Proof. destruct dot; each_char c; reflexivity. Qed.

Lemma sep_not_token (dot : bool) (c : ascii) :
  is_sep c = true -> is_token dot c = false.
Proof. destruct dot; each_char c; vm_compute; congruence. Qed.

(** The group of the token: the longest run of token characters. *)
Lemma matcher_token_group (n : nat) (dot : bool) (s : str) (g0 : Re.groups) :
  Re.matcher true
    (Re.Seq (Re.Group n (Re.Seq (Re.Plus (Re.In (token_class dot))) Re.Eps))
            Re.Eps)
    s g0 (fun rest g => Some (rest, g))
  = match takewhile (is_token dot) s with
    | [] => None
    | tok => Some (dropwhile (is_token dot) s, (n, tok) :: g0)
    end.
Proof.
  rewrite matcher_seq, matcher_group, matcher_seq, matcher_plus_class.
  rewrite plus_class_ext with (Q := is_token dot)
    by apply token_class_is_token.
  destruct s as [|c s]; [reflexivity|].
  cbn [takewhile]. destruct (is_token dot c) eqn:Hc.
  - rewrite plus_class_longest; [|assumption|discriminate].
    rewrite !matcher_eps.
    pose proof (firstn_takewhile (is_token dot) (c :: s)) as E.
    cbn [takewhile dropwhile] in E. rewrite Hc in E. rewrite E.
    cbn [dropwhile]. rewrite Hc. reflexivity.
  - rewrite plus_class_cons, Hc. reflexivity.
Qed.

(** Separators and token: [token_re] is [token_match]. *)
Lemma matcher_token_re (n : nat) (dot : bool) (s : str) (g0 : Re.groups) :
  Re.matcher true (token_re n dot) s g0 (fun rest g => Some (rest, g))
  = match token_match dot s with
    | Some (tok, rest) => Some (rest, (n, tok) :: g0)
    | None => None
    end.
Proof.
  unfold token_re. rewrite matcher_seq, matcher_plus_class.
  rewrite plus_class_ext with (Q := is_sep) by apply sep_class_is_sep.
  destruct s as [|c s]; [reflexivity|].
  unfold token_match. destruct (is_sep c) eqn:Hc.
  - rewrite plus_class_longest; [|assumption|].
    + rewrite matcher_token_group. cbv zeta.
      destruct (takewhile (is_token dot) (dropwhile is_sep s)); reflexivity.
    + intros d s' Hd _. rewrite matcher_token_group.
      cbn [takewhile]. rewrite (sep_not_token dot d Hd). reflexivity.
  - rewrite plus_class_cons, Hc. reflexivity.
Qed.

Lemma match_here_label (label : str) (n : nat) (dot : bool) (s : str) :
  Re.match_here true (lits label (token_re n dot)) s
  = if lits_prefix true label s then
      match token_match dot (skipn (length label) s) with
      | Some (tok, rest) => Some (rest, [(n, tok)])
      | None => None
      end
    else None.
Proof.
  unfold Re.match_here. rewrite matcher_lits.
  destruct (lits_prefix true label s); [apply matcher_token_re | reflexivity].
Qed.

(** The search for one label is the leftmost [label_match]. *)
Lemma search_label (label : str) (n : nat) (dot : bool) (text : str)
      (pos : nat) :
  option_map (fun m => Re.group m n)
             (Re.search_at true (lits label (token_re n dot)) pos text)
  = option_map Some (find_labelled [label] dot text).
Proof.
  revert pos; induction text as [|c text IH]; intros pos;
    cbn [Re.search_at find_labelled label_match];
    rewrite match_here_label;
    destruct (lits_prefix true label _);
    try destruct (token_match dot _) as [[tok rest]|];
    cbn [option_map]; unfold Re.group; cbn [Re.m_groups Re.assoc];
    rewrite ?Nat.eqb_refl; try reflexivity; apply IH.
Qed.

Lemma match_here_sample_id (s : str) :
  Re.match_here true sample_id_re s
  = match (if lits_prefix true (lit "Sample ID") s
           then token_match true (skipn 9 s) else None) with
    | Some (tok, rest) =>
        Some (rest, [(2, tok); (1, firstn (length s - length (skipn 9 s)) s)])
    | None =>
        match (if lits_prefix true (lit "Barcode") s
               then token_match true (skipn 7 s) else None) with
        | Some (tok, rest) =>
            Some (rest,
                  [(2, tok); (1, firstn (length s - length (skipn 7 s)) s)])
        | None => None
        end
    end.
Proof.
  unfold Re.match_here, sample_id_re.
  rewrite matcher_seq, matcher_group, matcher_alt, !matcher_lits.
  change (length (lit "Sample ID")) with 9.
  change (length (lit "Barcode")) with 7.
  destruct (lits_prefix true (lit "Sample ID") s).
  - rewrite matcher_eps, matcher_token_re.
    destruct (token_match true (skipn 9 s)) as [[tok rest]|]; [reflexivity|].
    destruct (lits_prefix true (lit "Barcode") s); [|reflexivity].
    rewrite matcher_eps, matcher_token_re.
    destruct (token_match true (skipn 7 s)) as [[tok rest]|]; reflexivity.
  - destruct (lits_prefix true (lit "Barcode") s); [|reflexivity].
    rewrite matcher_eps, matcher_token_re.
    destruct (token_match true (skipn 7 s)) as [[tok rest]|]; reflexivity.
Qed.

Lemma search_sample_id (text : str) (pos : nat) :
  option_map (fun m => Re.group m 2)
             (Re.search_at true sample_id_re pos text)
  = option_map Some
               (find_labelled [lit "Sample ID"; lit "Barcode"] true text).
Proof.
  revert pos; induction text as [|c text IH]; intros pos;
    cbn [Re.search_at find_labelled label_match];
    rewrite match_here_sample_id;
    change (length (lit "Sample ID")) with 9;
    change (length (lit "Barcode")) with 7;
    destruct (lits_prefix true (lit "Sample ID") _);
    try destruct (token_match true (skipn 9 _)) as [[tok rest]|];
    try reflexivity;
    destruct (lits_prefix true (lit "Barcode") _);
    try destruct (token_match true (skipn 7 _)) as [[tok' rest']|];
    try reflexivity; apply IH.
Qed.

Lemma group_or_else (n : nat) (r : option Re.match_obj) (f : option str)
      (other : option str) :
  option_map (fun m => Re.group m n) r = option_map Some f ->
  match r with
  | Some m => Re.group m n
  | None => other
  end
  = match f with
    | Some tok => Some tok
    | None => other
    end.
Proof.
  destruct r, f; cbn [option_map]; intros E;
    try discriminate; [injection E as ->|]; reflexivity.
Qed.

(** The identifier pair in terms of the leftmost labelled tokens. *)
Lemma identifiers_find (text : str) :
  identifiers text
  = Ok (match find_labelled [lit "Biosample"] false text with
        | Some tok => Some tok
        | None => find_labelled [lit "Sample ID"; lit "Barcode"] true text
        end,
        find_labelled [lit "Accession"] true text).
Proof.
  rewrite identifiers_eq. unfold Re.search_re.
  rewrite (@group_or_else 2 _ _ None (search_sample_id text 0)).
  rewrite (@group_or_else 1 (Re.search_at true biosample_re 0 text) _ _
             (search_label (lit "Biosample") 1 false text 0)).
  rewrite (@group_or_else 1 (Re.search_at true accession_re 0 text) _ None
             (search_label (lit "Accession") 1 true text 0)).
  f_equal. f_equal.
  - destruct (find_labelled [lit "Biosample"] false text); [reflexivity|].
    destruct (find_labelled _ true text); reflexivity.
  - destruct (find_labelled [lit "Accession"] true text); reflexivity.
Qed.

(* ================================================================== *)
(** * Texts of the page model: searching *)
(* ================================================================== *)

Lemma find_labelled_unfold (labels : list str) (dot : bool) (s : str) :
  find_labelled labels dot s
  = match label_match labels dot s with
    | Some tok => Some tok
    | None =>
        match s with
        | [] => None
        | _ :: s' => find_labelled labels dot s'
        end
    end.
Proof. destruct s; reflexivity. Qed.

Lemma substringb_unfold (p s : str) :
  substringb p s
  = prefixb p s || match s with
                   | [] => false
                   | _ :: s' => substringb p s'
                   end.
Proof. destruct s; reflexivity. Qed.

(* ================================================================== *)
(** * Code points: lemmas *)
(* ================================================================== *)

Lemma code_ascii_of_N (c : N) : (c < 256)%N -> code (ascii_of_N c) = c.
Proof. apply N_ascii_embedding. Qed.

Lemma code_bound (a : ascii) : (code a < 256)%N.
Proof. apply N_ascii_bounded. Qed.

Lemma In_page_chars (a : ascii) : In a page_chars.
Proof.
  unfold page_chars. apply in_map_iff. exists (N.to_nat (code a)). split.
  - rewrite N2Nat.id. apply ascii_N_embedding.
  - apply in_seq. pose proof (code_bound a). lia.
Qed.

Lemma In_ascii_chars (a : ascii) : (code a < 128)%N -> In a ascii_chars.
Proof.
  intros H. unfold ascii_chars. apply in_map_iff.
  exists (N.to_nat (code a)). split.
  - rewrite N2Nat.id. apply ascii_N_embedding.
  - apply in_seq. lia.
Qed.

(** A test on all characters, or on all pairs of an ASCII character and
    a character, is decided by running it. *)
Lemma all_page_chars (f : ascii -> bool) :
  forallb f page_chars = true -> forall a, f a = true.
Proof.
  intros H a. rewrite forallb_forall in H. apply H, In_page_chars.
Qed.

Lemma all_ascii_pairs (f : ascii -> ascii -> bool) :
  forallb (fun p => forallb (f p) page_chars) ascii_chars = true ->
  forall p a, (code p < 128)%N -> f p a = true.
Proof.
  intros H p a Hp. rewrite forallb_forall in H.
  specialize (H p (In_ascii_chars p Hp)).
  rewrite forallb_forall in H. apply H, In_page_chars.
Qed.

Lemma separator_code (a : ascii) : separator (code a) = is_sep a.
Proof.
  apply eqb_prop. revert a. apply all_page_chars. vm_compute. reflexivity.
Qed.

Lemma token_char_code (dot : bool) (a : ascii) :
  token_char dot (code a) = is_token dot a.
Proof.
  apply eqb_prop. revert a. apply all_page_chars.
  destruct dot; vm_compute; reflexivity.
Qed.

Lemma cased_as_code (p a : ascii) :
  (code p < 128)%N -> cased_as p (code a) = Re.lit_matches true p a.
Proof.
  intros Hp. apply eqb_prop. revert p a Hp.
  apply (all_ascii_pairs
           (fun p a => eqb (cased_as p (code a)) (Re.lit_matches true p a))).
  vm_compute. reflexivity.
Qed.

Lemma taken_for_code (a : ascii) :
  (code a < 128)%N -> Unicode.taken_for (code a) = [a; other_case a].
Proof.
  intros H. unfold Unicode.taken_for.
  apply N.ltb_lt in H. rewrite H. unfold code. rewrite ascii_N_embedding.
  reflexivity.
Qed.

(** A code point below 128 is the code of an ASCII character. *)
Lemma small_code (c : N) :
  (c < 128)%N -> exists a, c = code a /\ (code a < 128)%N.
Proof.
  intros H. exists (ascii_of_N c).
  rewrite code_ascii_of_N by lia. split; [reflexivity | exact H].
Qed.

Lemma other_case_ascii (p : ascii) :
  (code p < 128)%N -> (code (other_case p) < 128)%N.
Proof.
  intros Hp. apply N.ltb_lt.
  revert p Hp.
  assert (H : forall p a : ascii, (code p < 128)%N ->
                (code (other_case p) <? 128)%N = true).
  { apply (all_ascii_pairs (fun p _ => (code (other_case p) <? 128)%N)).
    vm_compute. reflexivity. }
  intros p Hp. exact (H p p Hp).
Qed.

Lemma sep_class_separator (c : N) :
  Unicode.set_matches true sep_class c = separator c.
Proof.
  unfold Unicode.set_matches.
  destruct (N.ltb_spec c 128) as [Hc|Hc].
  - destruct (small_code Hc) as [a [-> Ha]].
    rewrite taken_for_code by assumption. rewrite separator_code.
    clear Hc Ha. each_char a; reflexivity.
  - unfold Unicode.taken_for, separator.
    destruct (N.ltb_spec c 128); [lia|].
    destruct (N.eqb_spec c 58); [lia|].
    destruct (N.eqb_spec c 9); [lia|].
    destruct (N.eqb_spec c 32); [lia|].
    destruct (N.eqb_spec c 304); [reflexivity|].
    destruct (N.eqb_spec c 305); [reflexivity|].
    destruct (N.eqb_spec c 383); [reflexivity|].
    destruct (N.eqb_spec c 8490); reflexivity.
Qed.

Lemma token_class_token_char (dot : bool) (c : N) :
  Unicode.set_matches true (token_class dot) c = token_char dot c.
Proof.
  unfold Unicode.set_matches.
  destruct (N.ltb_spec c 128) as [Hc|Hc].
  - destruct (small_code Hc) as [a [-> Ha]].
    rewrite taken_for_code by assumption. rewrite token_char_code.
    clear Hc Ha. destruct dot; each_char a; reflexivity.
  - unfold Unicode.taken_for, token_char.
    destruct (N.ltb_spec c 128); [lia|].
    destruct (N.leb_spec c 57); [lia|].
    destruct (N.leb_spec c 90); [lia|].
    destruct (N.leb_spec c 122); [lia|].
    destruct (N.eqb_spec c 95); [lia|].
    destruct (N.eqb_spec c 45); [lia|].
    destruct (N.eqb_spec c 46); [lia|].
    rewrite !andb_false_r. cbn [orb].
    destruct (N.eqb_spec c 304); [destruct dot; reflexivity|].
    destruct (N.eqb_spec c 305); [destruct dot; reflexivity|].
    destruct (N.eqb_spec c 383); [destruct dot; reflexivity|].
    destruct (N.eqb_spec c 8490); destruct dot; reflexivity.
Qed.

Lemma lit_matches_cased_as (p : ascii) (c : N) :
  (code p < 128)%N -> Unicode.lit_matches true p c = cased_as p c.
Proof.
  intros Hp. unfold Unicode.lit_matches.
  destruct (N.ltb_spec c 128) as [Hc|Hc].
  - destruct (small_code Hc) as [a [-> Ha]].
    rewrite taken_for_code by assumption.
    clear Hc. apply eqb_prop. revert p a Hp Ha.
    assert (H : forall p a : ascii, (code p < 128)%N ->
                  implb (code a <? 128)%N
                        (eqb (existsb (Ascii.eqb p) [a; other_case a])
                             (cased_as p (code a))) = true).
    { apply (all_ascii_pairs
               (fun p a => implb (code a <? 128)%N
                             (eqb (existsb (Ascii.eqb p) [a; other_case a])
                                  (cased_as p (code a))))).
      vm_compute. reflexivity. }
    intros p a Hp Ha. specialize (H p a Hp).
    apply N.ltb_lt in Ha. rewrite Ha in H. exact H.
  - pose proof (other_case_ascii p Hp) as Ho.
    unfold Unicode.taken_for, cased_as.
    destruct (N.ltb_spec c 128); [lia|].
    destruct (N.eqb_spec c (code p)); [lia|].
    destruct (N.eqb_spec c (code (other_case p))); [lia|].
    cbn [orb].
    destruct (N.eqb_spec c 304);
      [subst c; clear; each_char p; reflexivity|].
    destruct (N.eqb_spec c 305);
      [subst c; clear; each_char p; reflexivity|].
    destruct (N.eqb_spec c 383);
      [subst c; clear; each_char p; reflexivity|].
    destruct (N.eqb_spec c 8490);
      [subst c; clear; each_char p; reflexivity|].
    cbn [existsb orb andb]. rewrite !andb_false_r. reflexivity.
Qed.

Lemma separator_not_token (dot : bool) (c : N) :
  separator c = true -> token_char dot c = false.
Proof.
  unfold separator, token_char.
  destruct (N.eqb_spec c 58); [subst; destruct dot; reflexivity|].
  destruct (N.eqb_spec c 9); [subst; destruct dot; reflexivity|].
  destruct (N.eqb_spec c 32); [subst; destruct dot; reflexivity|].
  discriminate.
Qed.

(* ================================================================== *)
(** * The matcher on code points *)
(* ================================================================== *)

Section CodePointSteps.
Import Unicode.
Variable A : Type.
Implicit Types (k : ustr -> groups -> option A) (s : ustr) (g : groups).

Lemma seq_step ic r1 r2 s g k :
  matcher ic (Re.Seq r1 r2) s g k
  = matcher ic r1 s g (fun s1 g1 => matcher ic r2 s1 g1 k).
Proof. reflexivity. Qed.

Lemma eps_step ic s g k : matcher ic Re.Eps s g k = k s g.
Proof. reflexivity. Qed.

Lemma alt_step ic r1 r2 s g k :
  matcher ic (Re.Alt r1 r2) s g k
  = match matcher ic r1 s g k with
    | Some x => Some x
    | None => matcher ic r2 s g k
    end.
Proof. reflexivity. Qed.

Lemma group_step ic n r s g k :
  matcher ic (Re.Group n r) s g k
  = matcher ic r s g
      (fun s1 g1 => k s1 ((n, firstn (length s - length s1) s) :: g1)).
Proof. reflexivity. Qed.

Lemma label_chars_prefix label r s g k :
  ascii_pattern label = true ->
  matcher true (lits label r) s g k
  = if label_prefix label s
    then matcher true r (skipn (length label) s) g k
    else None.
Proof.
  revert s; induction label as [|x p IH]; intros s Hp.
  - reflexivity.
  - cbn [ascii_pattern forallb] in Hp. apply andb_true_iff in Hp.
    destruct Hp as [Hx Hp]. apply N.ltb_lt in Hx.
    cbn [lits fold_right label_prefix length skipn].
    rewrite seq_step. cbn [matcher].
    destruct s as [|y s]; [reflexivity|].
    rewrite (@lit_matches_cased_as x y Hx).
    destruct (cased_as x y); cbn [andb]; [apply IH; exact Hp | reflexivity].
Qed.

Lemma repeat_class_cons (P : N -> bool) (k' : ustr -> option A) c s :
  repeat_class P k' (c :: s)
  = if P c then
      match repeat_class P k' s with
      | Some x => Some x
      | None => k' s
      end
    else None.
Proof. reflexivity. Qed.

(** A repeated class is matched by the longest run first. *)
Lemma repeat_of_class ic rs s g k :
  matcher ic (Re.Plus (Re.In rs)) s g k
  = repeat_class (set_matches ic rs) (fun s' => k s' g) s.
Proof.
  cbn [matcher].
  destruct s as [|c s]; [reflexivity|].
  rewrite repeat_class_cons.
  destruct (set_matches ic rs c); [|reflexivity].
  replace (length s <? length (c :: s)) with true
    by (symmetry; apply Nat.ltb_lt; cbn [length]; lia).
  match goal with
  | |- match ?F ?n s g with _ => _ end = _ =>
      assert (H : forall s' fuel, length s' < fuel ->
                  F fuel s' g
                  = repeat_class (set_matches ic rs) (fun s' => k s' g) s')
  end.
  { induction s' as [|d s' IH]; intros fuel Hf;
      (destruct fuel as [|f]; [inversion Hf|]).
    - reflexivity.
    - rewrite repeat_class_cons.
      destruct (set_matches ic rs d); [|reflexivity].
      replace (length s' <? length (d :: s')) with true
        by (symmetry; apply Nat.ltb_lt; cbn [length]; lia).
      rewrite IH by (cbn [length] in Hf; lia). reflexivity. }
  rewrite H by (cbn [length]; lia). reflexivity.
Qed.

Lemma repeat_class_ext (P Q : N -> bool) (k' : ustr -> option A) s :
  (forall c, P c = Q c) -> repeat_class P k' s = repeat_class Q k' s.
Proof.
  intros H. induction s as [|c s IH]; [reflexivity|].
  rewrite !repeat_class_cons, H, IH. reflexivity.
Qed.

(** When the continuation that fails after the longest run fails after
    every shorter one, only the longest run counts. *)
Lemma repeat_class_longest (P : N -> bool) (k' : ustr -> option A) c s :
  P c = true ->
  (forall d s', P d = true -> k' (drop_while P s') = None ->
                k' (d :: s') = None) ->
  repeat_class P k' (c :: s) = k' (drop_while P s).
Proof.
  intros Hc H. revert c Hc; induction s as [|d s IH]; intros c Hc;
    rewrite repeat_class_cons, Hc.
  - reflexivity.
  - cbn [drop_while]. destruct (P d) eqn:Hd.
    + rewrite (IH d Hd).
      destruct (k' (drop_while P s)) eqn:E; [reflexivity|].
      apply H; assumption.
    + rewrite repeat_class_cons, Hd. reflexivity.
Qed.

End CodePointSteps.

Section CodePointTokens.
Import Unicode.

Lemma take_drop_while (P : N -> bool) (s : ustr) :
  s = take_while P s ++ drop_while P s.
Proof.
  induction s as [|c s IH]; [reflexivity|].
  cbn [take_while drop_while]. destruct (P c); [|reflexivity].
  cbn [app]. f_equal. exact IH.
Qed.

Lemma firstn_take_while (P : N -> bool) (s : ustr) :
  firstn (length s - length (drop_while P s)) s = take_while P s.
Proof.
  rewrite (take_drop_while P s) at 1 3. rewrite length_app.
  replace (length (take_while P s) + length (drop_while P s)
           - length (drop_while P s)) with (length (take_while P s) + 0)
    by lia.
  rewrite firstn_app_2. cbn [firstn]. apply app_nil_r.
Qed.

(** The group of the token: the longest run of token characters. *)
Lemma token_group (n : nat) (dot : bool) (s : ustr) (g0 : groups) :
  matcher true
    (Re.Seq (Re.Group n (Re.Seq (Re.Plus (Re.In (token_class dot))) Re.Eps))
            Re.Eps)
    s g0 (fun rest g => Some (rest, g))
  = match take_while (token_char dot) s with
    | [] => None
    | tok => Some (drop_while (token_char dot) s, (n, tok) :: g0)
    end.
Proof.
  rewrite seq_step, group_step, seq_step, repeat_of_class.
  rewrite repeat_class_ext with (Q := token_char dot)
    by apply token_class_token_char.
  destruct s as [|c s]; [reflexivity|].
  cbn [take_while]. destruct (token_char dot c) eqn:Hc.
  - rewrite repeat_class_longest; [|assumption|discriminate].
    rewrite !eps_step.
    pose proof (firstn_take_while (token_char dot) (c :: s)) as E.
    cbn [take_while drop_while] in E. rewrite Hc in E. rewrite E.
    cbn [drop_while]. rewrite Hc. reflexivity.
  - rewrite repeat_class_cons, Hc. reflexivity.
Qed.

(** Separators and token: [token_re] is [token_at]. *)
Lemma token_re_token_at (n : nat) (dot : bool) (s : ustr) (g0 : groups) :
  matcher true (token_re n dot) s g0 (fun rest g => Some (rest, g))
  = match token_at dot s with
    | Some (tok, rest) => Some (rest, (n, tok) :: g0)
    | None => None
    end.
Proof.
  unfold token_re. rewrite seq_step, repeat_of_class.
  rewrite repeat_class_ext with (Q := separator) by apply sep_class_separator.
  destruct s as [|c s]; [reflexivity|].
  unfold token_at. destruct (separator c) eqn:Hc.
  - rewrite repeat_class_longest; [|assumption|].
    + rewrite token_group. cbv zeta.
      destruct (take_while (token_char dot) (drop_while separator s));
        reflexivity.
    + intros d s' Hd _. rewrite token_group.
      cbn [take_while]. rewrite (separator_not_token dot d Hd). reflexivity.
  - rewrite repeat_class_cons, Hc. reflexivity.
Qed.

Lemma match_here_label_at (label : str) (n : nat) (dot : bool) (s : ustr) :
  ascii_pattern label = true ->
  match_here true (lits label (token_re n dot)) s
  = match match_at label dot s with
    | Some (tok, rest) => Some (rest, [(n, tok)])
    | None => None
    end.
Proof.
  intros Hl. unfold match_here, match_at.
  rewrite label_chars_prefix by assumption.
  destruct (label_prefix label s); [apply token_re_token_at | reflexivity].
Qed.

Lemma find_label_unfold (labels : list str) (dot : bool) (s : ustr) :
  find_label labels dot s
  = match label_at labels dot s with
    | Some tok => Some tok
    | None =>
        match s with
        | [] => None
        | _ :: s' => find_label labels dot s'
        end
    end.
Proof. destruct s; reflexivity. Qed.

Lemma search_at_unfold (ic : bool) (r : Re.regex) (pos : nat) (s : ustr) :
  search_at ic r pos s
  = match match_here ic r s with
    | Some (rest, g) =>
        Some {| m_start := pos;
                m_text := firstn (length s - length rest) s;
                m_groups := g |}
    | None =>
        match s with
        | [] => None
        | _ :: s' => search_at ic r (S pos) s'
        end
    end.
Proof. destruct s; reflexivity. Qed.

(** The search for one label is the leftmost [label_at]. *)
Lemma search_one_label (label : str) (n : nat) (dot : bool) (text : ustr)
      (pos : nat) :
  ascii_pattern label = true ->
  option_map (fun m => group m n)
             (search_at true (lits label (token_re n dot)) pos text)
  = option_map Some (find_label [label] dot text).
Proof.
  intros Hl.
  revert pos; induction text as [|c text IH]; intros pos;
    rewrite search_at_unfold, find_label_unfold; cbn [label_at];
    rewrite match_here_label_at by assumption;
    destruct (match_at label dot _) as [[tok rest]|];
    cbn [option_map]; unfold group; cbn [m_groups assoc];
    rewrite ?Nat.eqb_refl; try reflexivity; apply IH.
Qed.

Lemma match_here_sample_id_at (s : ustr) :
  match_here true sample_id_re s
  = match match_at (lit "Sample ID") true s with
    | Some (tok, rest) =>
        Some (rest, [(2, tok); (1, firstn (length s - length (skipn 9 s)) s)])
    | None =>
        match match_at (lit "Barcode") true s with
        | Some (tok, rest) =>
            Some (rest,
                  [(2, tok); (1, firstn (length s - length (skipn 7 s)) s)])
        | None => None
        end
    end.
Proof.
  unfold match_here, sample_id_re, match_at.
  rewrite seq_step, group_step, alt_step.
  rewrite !label_chars_prefix by reflexivity.
  change (length (lit "Sample ID")) with 9.
  change (length (lit "Barcode")) with 7.
  destruct (label_prefix (lit "Sample ID") s).
  - rewrite eps_step, token_re_token_at.
    destruct (token_at true (skipn 9 s)) as [[tok rest]|]; [reflexivity|].
    destruct (label_prefix (lit "Barcode") s); [|reflexivity].
    rewrite eps_step, token_re_token_at.
    destruct (token_at true (skipn 7 s)) as [[tok rest]|]; reflexivity.
  - destruct (label_prefix (lit "Barcode") s); [|reflexivity].
    rewrite eps_step, token_re_token_at.
    destruct (token_at true (skipn 7 s)) as [[tok rest]|]; reflexivity.
Qed.

Lemma search_sample_id_label (text : ustr) (pos : nat) :
  option_map (fun m => group m 2) (search_at true sample_id_re pos text)
  = option_map Some
               (find_label [lit "Sample ID"; lit "Barcode"] true text).
Proof.
  revert pos; induction text as [|c text IH]; intros pos;
    rewrite search_at_unfold, find_label_unfold; cbn [label_at];
    rewrite match_here_sample_id_at;
    destruct (match_at (lit "Sample ID") true _) as [[tok rest]|];
    try reflexivity;
    destruct (match_at (lit "Barcode") true _) as [[tok' rest']|];
    try reflexivity; apply IH.
Qed.

Lemma group_or_other (n : nat) (r : option match_obj) (f : option ustr)
      (other : option ustr) :
  option_map (fun m => group m n) r = option_map Some f ->
  match r with
  | Some m => group m n
  | None => other
  end
  = match f with
    | Some tok => Some tok
    | None => other
    end.
Proof.
  destruct r, f; cbn [option_map]; intros E;
    try discriminate; [injection E as ->|]; reflexivity.
Qed.

(** The identifier pair in terms of the leftmost labels with a token. *)
Lemma identifiers_find_label (text : ustr) :
  identifiers text
  = Ok (match find_label [lit "Biosample"] false text with
        | Some tok => Some tok
        | None => find_label [lit "Sample ID"; lit "Barcode"] true text
        end,
        find_label [lit "Accession"] true text).
Proof.
  unfold identifiers, re_search.
  change (ascii_pattern biosample_pattern) with true.
  change (ascii_pattern accession_pattern) with true.
  change (ascii_pattern sample_id_pattern) with true.
  cbn [negb andb].
  rewrite biosample_pattern_compiles, accession_pattern_compiles,
    sample_id_pattern_compiles.
  cbn [bind]. unfold search_re.
  rewrite (@group_or_other 2 _ _ None (search_sample_id_label text 0)).
  rewrite (@group_or_other 1 (search_at true biosample_re 0 text) _ _
             (@search_one_label (lit "Biosample") 1 false text 0 eq_refl)).
  rewrite (@group_or_other 1 (search_at true accession_re 0 text) _ None
             (@search_one_label (lit "Accession") 1 true text 0 eq_refl)).
  f_equal. f_equal.
  - destruct (find_label [lit "Biosample"] false text); [reflexivity|].
    destruct (find_label _ true text); reflexivity.
  - destruct (find_label [lit "Accession"] true text); reflexivity.
Qed.

End CodePointTokens.

(* ================================================================== *)
(** * Labels and tokens *)
(* ================================================================== *)

Section LabelsAndTokens.
Import Unicode.

Lemma take_while_every (P : N -> bool) (s : ustr) :
  every P (take_while P s).
Proof.
  unfold every. induction s as [|c s IH]; [reflexivity|].
  cbn [take_while]. destruct (P c) eqn:E; [|reflexivity].
  cbn [forallb]. rewrite E, IH. reflexivity.
Qed.

Lemma drop_while_head (P : N -> bool) (s : ustr) :
  match drop_while P s with
  | [] => True
  | c :: _ => P c = false
  end.
Proof.
  induction s as [|c s IH]; [exact I|].
  cbn [drop_while]. destruct (P c) eqn:E; assumption.
Qed.

Lemma take_while_app (P : N -> bool) (a b : ustr) :
  every P a -> take_while P (a ++ b) = a ++ take_while P b.
Proof.
  unfold every. induction a as [|c a IH]; [reflexivity|].
  cbn [forallb app take_while]. rewrite andb_true_iff. intros [-> H].
  rewrite IH by assumption. reflexivity.
Qed.

Lemma drop_while_app (P : N -> bool) (a b : ustr) :
  every P a -> drop_while P (a ++ b) = drop_while P b.
Proof.
  unfold every. induction a as [|c a IH]; [reflexivity|].
  cbn [forallb app drop_while]. rewrite andb_true_iff. intros [-> H].
  apply IH; assumption.
Qed.

Lemma token_stops_take (dot : bool) (post : ustr) :
  token_stops dot post -> take_while (token_char dot) post = [].
Proof.
  destruct post as [|c post]; [reflexivity|].
  cbn [token_stops take_while]. intros ->. reflexivity.
Qed.

Lemma token_at_split (dot : bool) (s tok rest : ustr) :
  token_at dot s = Some (tok, rest) ->
  exists seps,
    s = seps ++ tok ++ rest
    /\ seps <> [] /\ every separator seps
    /\ tok <> [] /\ every (token_char dot) tok
    /\ token_stops dot rest.
Proof.
  unfold token_at. destruct s as [|c s]; [discriminate|].
  destruct (separator c) eqn:Hc; [|discriminate]. cbv zeta.
  pose proof (take_while_every (token_char dot) (drop_while separator s))
    as Hall.
  pose proof (drop_while_head (token_char dot) (drop_while separator s))
    as Hend.
  pose proof (take_drop_while (token_char dot) (drop_while separator s))
    as Htd.
  destruct (take_while (token_char dot) (drop_while separator s))
    as [|t tok']; [discriminate|].
  intros E. injection E as <- <-.
  exists (c :: take_while separator s). repeat split.
  - rewrite <- Htd. cbn [app]. f_equal. apply take_drop_while.
  - discriminate.
  - unfold every. cbn [forallb]. rewrite Hc. apply take_while_every.
  - discriminate.
  - exact Hall.
  - exact Hend.
Qed.

Lemma token_at_complete (dot : bool) (seps tok post : ustr) :
  seps <> [] -> every separator seps ->
  tok <> [] -> every (token_char dot) tok ->
  token_at dot (seps ++ tok ++ post)
  = Some (tok ++ take_while (token_char dot) post,
          drop_while (token_char dot) post).
Proof.
  intros Hs Hsep Ht Htok.
  destruct seps as [|c seps]; [congruence|].
  destruct tok as [|t tok]; [congruence|].
  pose proof Htok as Htok'. pose proof Hsep as Hsep'.
  unfold every in Hsep, Htok. cbn [forallb] in Hsep, Htok.
  apply andb_true_iff in Hsep. destruct Hsep as [Hc Hsep].
  apply andb_true_iff in Htok. destruct Htok as [Htc Htok].
  unfold token_at. cbn [app]. rewrite Hc. cbv zeta.
  rewrite drop_while_app by exact Hsep.
  assert (Hns : separator t = false).
  { destruct (separator t) eqn:E; [|reflexivity].
    rewrite (separator_not_token dot t E) in Htc. discriminate. }
  cbn [drop_while]. rewrite Hns.
  change (t :: tok ++ post) with ((t :: tok) ++ post).
  rewrite take_while_app, drop_while_app by exact Htok'.
  reflexivity.
Qed.

Lemma label_prefix_split (label : str) (s : ustr) :
  label_prefix label s = true ->
  in_casing label (firstn (length label) s).
Proof.
  revert s; induction label as [|x label IH]; intros s.
  - intros _. constructor.
  - destruct s as [|y s]; [discriminate|].
    cbn [label_prefix length firstn].
    rewrite andb_true_iff. intros [Hxy H].
    constructor; [exact Hxy | apply IH; exact H].
Qed.

Lemma label_prefix_app (label : str) (lbl x : ustr) :
  in_casing label lbl ->
  label_prefix label (lbl ++ x) = true
  /\ skipn (length label) (lbl ++ x) = x.
Proof.
  induction 1 as [|p c label lbl Hpc _ IH].
  - split; reflexivity.
  - destruct IH as [H1 H2].
    cbn [app label_prefix length skipn]. rewrite Hpc, H1.
    split; [reflexivity | exact H2].
Qed.

(** [match_at] decides [matches_at]. *)
Lemma match_at_sound (label : str) (dot : bool) (s tok rest : ustr) :
  match_at label dot s = Some (tok, rest) -> matches_at label dot s tok.
Proof.
  unfold match_at. destruct (label_prefix label s) eqn:P; [|discriminate].
  intros T.
  destruct (token_at_split _ _ T) as [seps [Hs [H1 [H2 [H3 [H4 H5]]]]]].
  exists (firstn (length label) s), seps, rest.
  split; [rewrite <- Hs; symmetry; apply firstn_skipn|].
  split; [apply label_prefix_split; exact P|].
  repeat split; assumption.
Qed.

Lemma match_at_complete (label : str) (dot : bool) (s tok : ustr) :
  matches_at label dot s tok ->
  exists rest, match_at label dot s = Some (tok, rest).
Proof.
  intros [lbl [seps [post [-> [Hl [Hs [Hsep [Ht [Htok Hend]]]]]]]]].
  destruct (label_prefix_app (seps ++ tok ++ post) Hl) as [P S].
  unfold match_at. rewrite P, S.
  rewrite token_at_complete by assumption.
  rewrite (token_stops_take dot post Hend), app_nil_r. eauto.
Qed.

Lemma label_at_sound (labels : list str) (dot : bool) (s tok : ustr) :
  label_at labels dot s = Some tok -> matches_here labels dot s tok.
Proof.
  induction labels as [|label labels IH]; [discriminate|].
  cbn [label_at].
  destruct (match_at label dot s) as [[t rest]|] eqn:E.
  - intros H. injection H as <-. exists label.
    split; [left; reflexivity | exact (match_at_sound _ _ _ E)].
  - intros H. destruct (IH H) as [l [Hin Hm]].
    exists l. split; [right; exact Hin | exact Hm].
Qed.

Lemma label_at_none (labels : list str) (dot : bool) (s t : ustr) :
  label_at labels dot s = None -> ~ matches_here labels dot s t.
Proof.
  induction labels as [|label labels IH]; intros E [l [Hin Hm]].
  - destruct Hin.
  - cbn [label_at] in E.
    destruct (match_at label dot s) as [[t' rest]|] eqn:M; [discriminate|].
    destruct Hin as [<-|Hin].
    + destruct (match_at_complete Hm) as [rest M']. congruence.
    + apply (IH E). exists l. split; assumption.
Qed.

Lemma label_at_complete (labels : list str) (dot : bool) (s tok : ustr) :
  single_valued labels dot ->
  matches_here labels dot s tok -> label_at labels dot s = Some tok.
Proof.
  intros SV H. destruct (label_at labels dot s) as [t|] eqn:E.
  - f_equal. apply (SV s); [apply label_at_sound; exact E | exact H].
  - exfalso. exact (label_at_none E H).
Qed.

Lemma single_valued_one (label : str) (dot : bool) :
  single_valued [label] dot.
Proof.
  intros s t1 t2 [l1 [[<-|[]] H1]] [l2 [[<-|[]] H2]].
  destruct (match_at_complete H1) as [r1 E1].
  destruct (match_at_complete H2) as [r2 E2].
  congruence.
Qed.

Lemma sample_or_barcode (s : ustr) :
  label_prefix (lit "Sample ID") s = true ->
  label_prefix (lit "Barcode") s = true -> False.
Proof.
  destruct s as [|c s]; [discriminate|].
  change (lit "Sample ID") with ("S"%char :: lit "ample ID").
  change (lit "Barcode") with ("B"%char :: lit "arcode").
  cbn [label_prefix]. rewrite !andb_true_iff. intros [HS _] [HB _].
  unfold cased_as in HS, HB.
  change (code "S") with 83%N in HS.
  change (code (other_case "S")) with 115%N in HS.
  change (code "B") with 66%N in HB.
  change (code (other_case "B")) with 98%N in HB.
  change (lower_char "S") with "s"%char in HS.
  change (lower_char "B") with "b"%char in HB.
  cbn [Ascii.eqb Bool.eqb andb orb] in HS, HB.
  destruct (N.eqb_spec c 66) as [->|]; [discriminate HS|].
  destruct (N.eqb_spec c 98) as [->|]; [discriminate HS|].
  discriminate HB.
Qed.

Lemma single_valued_sample_id :
  single_valued [lit "Sample ID"; lit "Barcode"] true.
Proof.
  intros s t1 t2 [l1 [Hin1 H1]] [l2 [Hin2 H2]].
  destruct (match_at_complete H1) as [r1 E1].
  destruct (match_at_complete H2) as [r2 E2].
  assert (P1 : label_prefix l1 s = true)
    by (unfold match_at in E1; destruct (label_prefix l1 s);
        [reflexivity | discriminate]).
  assert (P2 : label_prefix l2 s = true)
    by (unfold match_at in E2; destruct (label_prefix l2 s);
        [reflexivity | discriminate]).
  destruct Hin1 as [<-|[<-|[]]]; destruct Hin2 as [<-|[<-|[]]];
    try congruence; exfalso; eauto using sample_or_barcode.
Qed.

(** [find_label] decides [first_match] and [no_match]. *)
Lemma find_label_sound (labels : list str) (dot : bool) (text tok : ustr) :
  find_label labels dot text = Some tok -> first_match labels dot text tok.
Proof.
  induction text as [|c text IH]; rewrite find_label_unfold.
  - destruct (label_at labels dot []) as [t|] eqn:E; [|discriminate].
    intros H. injection H as ->. exists [], [].
    split; [reflexivity|]. split; [apply label_at_sound; exact E|].
    intros pre1 pre2 t Hp Hne. destruct pre1, pre2; try discriminate.
    congruence.
  - destruct (label_at labels dot (c :: text)) as [t|] eqn:E.
    + intros H. injection H as ->. exists [], (c :: text).
      split; [reflexivity|]. split; [apply label_at_sound; exact E|].
      intros pre1 pre2 t Hp Hne. destruct pre1, pre2; try discriminate.
      congruence.
    + intros H. destruct (IH H) as [pre [s [-> [Hm Hfirst]]]].
      exists (c :: pre), s. split; [reflexivity|]. split; [exact Hm|].
      intros pre1 pre2 t Hp Hne.
      destruct pre1 as [|d pre1]; cbn [app] in Hp.
      * subst pre2. cbn [app]. apply label_at_none. exact E.
      * injection Hp as _ Hp. apply (Hfirst pre1 pre2 t Hp Hne).
Qed.

Lemma find_label_complete (labels : list str) (dot : bool)
      (text tok : ustr) :
  single_valued labels dot ->
  first_match labels dot text tok -> find_label labels dot text = Some tok.
Proof.
  intros SV [pre [s [-> [Hm Hfirst]]]].
  induction pre as [|c pre IH]; rewrite find_label_unfold; cbn [app].
  - rewrite (label_at_complete SV Hm). reflexivity.
  - destruct (label_at labels dot (c :: pre ++ s)) as [t|] eqn:E.
    + exfalso. apply (Hfirst [] (c :: pre) t); [reflexivity | discriminate|].
      apply label_at_sound. exact E.
    + apply IH. intros pre1 pre2 t Hp Hne.
      apply (Hfirst (c :: pre1) pre2 t); [cbn [app]; f_equal; exact Hp|].
      exact Hne.
Qed.

Lemma find_label_none (labels : list str) (dot : bool) (text : ustr) :
  find_label labels dot text = None <-> no_match labels dot text.
Proof.
  split.
  - induction text as [|c text IH]; rewrite find_label_unfold;
      destruct (label_at labels dot _) as [t|] eqn:E; try discriminate;
      intros H pre s t Hp.
    + destruct pre, s; try discriminate. apply label_at_none. exact E.
    + destruct pre as [|d pre]; cbn [app] in Hp.
      * subst s. apply label_at_none. exact E.
      * injection Hp as _ Hp. exact (IH H pre s t Hp).
  - intros H. destruct (find_label labels dot text) as [t|] eqn:E;
      [|reflexivity].
    destruct (find_label_sound _ _ _ E) as [pre [s [Hp [Hm _]]]].
    exfalso. exact (H pre s t Hp Hm).
Qed.

(** A token that is found stands in the text as a whole token. *)
Lemma first_match_whole_token (labels : list str) (dot : bool)
      (text tok : ustr) :
  first_match labels dot text tok -> whole_token dot text tok.
Proof.
  intros [pre [s [-> [[label [_ Hm]] _]]]].
  destruct Hm as [lbl [seps [post [-> [_ [Hs [Hsep [Ht [Htok Hend]]]]]]]]].
  destruct (exists_last Hs) as [seps' [sep ->]].
  exists (pre ++ lbl ++ seps'), sep, post.
  split; [rewrite <- !app_assoc; reflexivity|].
  split.
  - unfold every in Hsep. rewrite forallb_app in Hsep.
    apply andb_true_iff in Hsep. destruct Hsep as [_ Hsep].
    cbn [forallb] in Hsep. rewrite andb_true_r in Hsep. exact Hsep.
  - repeat split; assumption.
Qed.

(** The places before [s] where nothing matches, by running the search. *)
Lemma none_before_spec (labels : list str) (dot : bool) (pre s : ustr) :
  none_before labels dot pre s = true ->
  forall pre1 pre2 t,
    pre = pre1 ++ pre2 -> pre2 <> [] ->
    ~ matches_here labels dot (pre2 ++ s) t.
Proof.
  unfold none_before. intros H pre1 pre2 t -> Hne.
  rewrite forallb_forall in H.
  specialize (H (length pre1)).
  rewrite <- app_assoc, skipn_app, skipn_all, Nat.sub_diag in H.
  cbn [skipn app] in H.
  destruct (label_at labels dot (pre2 ++ s)) eqn:E.
  - assert (F : false = true).
    { apply H. apply in_seq. rewrite length_app.
      destruct pre2; [congruence|]. cbn [length]. lia. }
    discriminate F.
  - apply label_at_none. exact E.
Qed.

End LabelsAndTokens.

(* ================================================================== *)
(** * The page model and the code points *)
(* ================================================================== *)

Section PageText.
Import Unicode.

Lemma label_prefix_of_str (label s : str) :
  ascii_pattern label = true ->
  label_prefix label (of_str s) = lits_prefix true label s.
Proof.
  revert s; induction label as [|p label IH]; intros s Hl; [reflexivity|].
  cbn [ascii_pattern forallb] in Hl. apply andb_true_iff in Hl.
  destruct Hl as [Hp Hl]. apply N.ltb_lt in Hp.
  destruct s as [|a s]; [reflexivity|].
  cbn [of_str map label_prefix lits_prefix].
  rewrite (@cased_as_code p a Hp). f_equal. apply IH. exact Hl.
Qed.

Lemma take_while_of_str (P : N -> bool) (Q : ascii -> bool) (s : str) :
  (forall a, P (code a) = Q a) ->
  take_while P (of_str s) = of_str (takewhile Q s).
Proof.
  intros H. induction s as [|a s IH]; [reflexivity|].
  cbn [of_str map take_while takewhile]. rewrite H.
  destruct (Q a); [|reflexivity]. cbn [map]. f_equal. exact IH.
Qed.

Lemma drop_while_of_str (P : N -> bool) (Q : ascii -> bool) (s : str) :
  (forall a, P (code a) = Q a) ->
  drop_while P (of_str s) = of_str (dropwhile Q s).
Proof.
  intros H. induction s as [|a s IH]; [reflexivity|].
  cbn [of_str map drop_while dropwhile]. rewrite H.
  destruct (Q a); [exact IH | reflexivity].
Qed.

Lemma token_at_of_str (dot : bool) (s : str) :
  token_at dot (of_str s)
  = option_map (fun tr => (of_str (fst tr), of_str (snd tr)))
               (token_match dot s).
Proof.
  destruct s as [|a s]; [reflexivity|].
  unfold token_at, token_match. cbn [of_str map].
  rewrite separator_code. destruct (is_sep a); [|reflexivity]. cbv zeta.
  change (map code s) with (of_str s).
  rewrite (drop_while_of_str separator is_sep s separator_code).
  rewrite (take_while_of_str (token_char dot) (is_token dot) _
             (token_char_code dot)).
  rewrite (drop_while_of_str (token_char dot) (is_token dot) _
             (token_char_code dot)).
  destruct (takewhile (is_token dot) (dropwhile is_sep s)); reflexivity.
Qed.

Lemma label_at_of_str (labels : list str) (dot : bool) (s : str) :
  Forall (fun l => ascii_pattern l = true) labels ->
  label_at labels dot (of_str s) = option_map of_str (label_match labels dot s).
Proof.
  induction 1 as [|label labels Hl _ IH]; [reflexivity|].
  cbn [label_at label_match]. unfold match_at.
  rewrite label_prefix_of_str by assumption.
  destruct (lits_prefix true label s).
  - unfold of_str at 1. rewrite skipn_map.
    fold (of_str (skipn (length label) s)).
    rewrite token_at_of_str.
    destruct (token_match dot (skipn (length label) s)) as [[t r]|];
      [reflexivity | exact IH].
  - exact IH.
Qed.

Lemma find_label_of_str (labels : list str) (dot : bool) (s : str) :
  Forall (fun l => ascii_pattern l = true) labels ->
  find_label labels dot (of_str s)
  = option_map of_str (find_labelled labels dot s).
Proof.
  intros Hl. induction s as [|a s IH];
    rewrite find_label_unfold, find_labelled_unfold;
    rewrite label_at_of_str by assumption;
    destruct (label_match labels dot _); try reflexivity.
  exact IH.
Qed.

(** On a text of the page model the searches on code points give the
    identifiers of [identifiers]. *)
Lemma identifiers_of_str (s : str) :
  Unicode.identifiers (of_str s)
  = match App.identifiers s with
    | Ok ids => Ok (of_cell (fst ids), of_cell (snd ids))
    | Raise e => Raise e
    end.
Proof.
  rewrite identifiers_find_label, identifiers_find.
  rewrite !find_label_of_str by (repeat constructor).
  cbn [fst snd]. unfold of_cell.
  destruct (find_labelled [lit "Biosample"] false s); reflexivity.
Qed.

End PageText.

Lemma none_before_label (label : str) (dot : bool) (pre s : Unicode.ustr) :
  none_before [label] dot pre s = true ->
  forall pre1 pre2 t,
    pre = pre1 ++ pre2 -> pre2 <> [] ->
    ~ matches_at label dot (pre2 ++ s) t.
Proof.
  intros H pre1 pre2 t Hp Hne Hm.
  apply (@none_before_spec [label] dot pre s H pre1 pre2 t Hp Hne).
  exists label. split; [left; reflexivity | exact Hm].
Qed.

(** The example of the specification, where it holds. *)
Lemma first_biosample_example (pre lbl post : Unicode.ustr) :
  in_casing (lit "Biosample") lbl ->
  token_stops false post ->
  (forall pre1 pre2 t,
      pre = pre1 ++ pre2 -> pre2 <> [] ->
      ~ matches_at (lit "Biosample") false
          (pre2 ++ lbl ++ Unicode.of_str (lit ": AGP123456") ++ post) t) ->
  first_match [lit "Biosample"] false
              (pre ++ lbl ++ Unicode.of_str (lit ": AGP123456") ++ post)
              (Unicode.of_str (lit "AGP123456")).
Proof.
  intros Hl Hend Hfirst.
  exists pre, (lbl ++ Unicode.of_str (lit ": AGP123456") ++ post).
  split; [reflexivity|]. split.
  - exists (lit "Biosample"). split; [left; reflexivity|].
    exists lbl, (Unicode.of_str (lit ": ")), post.
    split; [reflexivity|]. split; [exact Hl|].
    split; [discriminate|]. split; [reflexivity|].
    split; [discriminate|]. split; [reflexivity | exact Hend].
  - intros pre1 pre2 t Hp Hne [l [[<-|[]] Hm]].
    exact (Hfirst pre1 pre2 t Hp Hne Hm).
Qed.

(* ------------------------------------------------------------------ *)
(** ** C6 *)

(** C6, the inputs on which it fails.  A text that contains
    "Biosample: AGP123456" need not give the identifier "AGP123456":
    the token goes on as far as token characters follow, and an earlier
    "Biosample" label with a token of its own comes first. *)
Lemma text_with_example_other_identifier :
  (exists pre post,
      lit "Biosample: AGP1234567"
      = pre ++ lit "Biosample: AGP123456" ++ post)
  /\ identifiers (lit "Biosample: AGP1234567")
     = Ok (Some (lit "AGP1234567"), None)
  /\ Unicode.identifiers (Unicode.of_str (lit "Biosample: AGP1234567"))
     = Ok (Some (Unicode.of_str (lit "AGP1234567")), None)
  /\ (exists pre post,
         lit "biosample: x Biosample: AGP123456"
         = pre ++ lit "Biosample: AGP123456" ++ post)
  /\ identifiers (lit "biosample: x Biosample: AGP123456")
     = Ok (Some (lit "x"), None)
  /\ Unicode.identifiers
       (Unicode.of_str (lit "biosample: x Biosample: AGP123456"))
     = Ok (Some (Unicode.of_str (lit "x")), None)
  /\ lit "AGP1234567" <> lit "AGP123456"
  /\ lit "x" <> lit "AGP123456".
Proof.
  split; [exists [], (lit "7"); reflexivity|].
  split; [vm_compute; reflexivity|].
  split; [vm_compute; reflexivity|].
  split; [exists (lit "biosample: x "), []; reflexivity|].
  split; [vm_compute; reflexivity|].
  split; [vm_compute; reflexivity|].
  split; discriminate.
Qed.

(** Beyond the code points 0..255: the long s (U+017F) stands for the
    [s] of a label, and the long s and the Kelvin sign (U+212A) are
    token characters. *)
Lemma long_s_and_kelvin_sign :
  Unicode.identifiers
    ([66; 105; 111; 383; 97; 109; 112; 108; 101; 58; 32;
      65; 66; 383; 8490; 57; 32; 120]%N)
  = Ok (Some [65; 66; 383; 8490; 57]%N, None)
  /\ Unicode.identifiers
       ([65; 99; 99; 101; 383; 383; 105; 111; 110; 58; 32; 55]%N)
     = Ok (None, Some [55%N]).
Proof. split; vm_compute; reflexivity. Qed.

(** C6 (amended): the identifiers are read off the text, a text of any
    code points, by three searches that never raise.  A place of the
    text matches a label when the label stands there in some casing
    (with U+0130 or U+0131 for [i] and U+017F for [s] as well), followed
    by one or more of colon, tab and space, followed by a token: all the
    token characters that stand there, which are the ASCII letters and
    digits, [_], [-], the four code points U+0130, U+0131, U+017F and
    U+212A, and [.] for the labels other than "Biosample".  The
    biosample identifier is the token of the leftmost place that matches
    "Biosample" or, when no place does, the token of the leftmost place
    that matches "Sample ID" or "Barcode"; it is null exactly when no
    place matches any of the three.  The accession identifier is the
    token of the leftmost place that matches "Accession", and null
    exactly when there is none.  When "Biosample" in some casing is
    followed by ": AGP123456", no token character follows and no earlier
    place matches "Biosample", the biosample identifier is "AGP123456".
    On a text of the page model the identifiers are those of
    [identifiers], which [parse_survey_page] puts on every row of the
    frame it returns. *)
Theorem identifier_extraction (text : Unicode.ustr) :
  exists biosample_id accession_id,
    Unicode.identifiers text = Ok (biosample_id, accession_id)
    /\ (forall tok,
        biosample_id = Some tok <->
        first_match [lit "Biosample"] false text tok
        \/ (no_match [lit "Biosample"] false text
            /\ first_match [lit "Sample ID"; lit "Barcode"] true text tok))
    /\ (biosample_id = None <->
        no_match [lit "Biosample"] false text
        /\ no_match [lit "Sample ID"; lit "Barcode"] true text)
    /\ (forall tok,
        accession_id = Some tok <->
        first_match [lit "Accession"] true text tok)
    /\ (accession_id = None <-> no_match [lit "Accession"] true text)
    /\ (forall pre lbl post,
        text = pre ++ lbl ++ Unicode.of_str (lit ": AGP123456") ++ post ->
        in_casing (lit "Biosample") lbl ->
        token_stops false post ->
        (forall pre1 pre2 t,
            pre = pre1 ++ pre2 -> pre2 <> [] ->
            ~ matches_at (lit "Biosample") false
                (pre2 ++ lbl ++ Unicode.of_str (lit ": AGP123456") ++ post)
                t) ->
        biosample_id = Some (Unicode.of_str (lit "AGP123456")))
    /\ (forall s,
        text = Unicode.of_str s ->
        exists b a,
          identifiers s = Ok (b, a)
          /\ biosample_id = of_cell b /\ accession_id = of_cell a)
    /\ (forall soup url,
        text = Unicode.of_str (get_text (lit " ") true soup) ->
        exists df,
          parse_survey_page soup url = Ok df
          /\ Forall (fun row =>
                       of_cell (nth 2 row None) = biosample_id
                       /\ of_cell (nth 3 row None) = accession_id)
                    (rows df)).
Proof.
  rewrite identifiers_find_label.
  set (fb := find_label [lit "Biosample"] false text).
  set (fs := find_label [lit "Sample ID"; lit "Barcode"] true text).
  set (fa := find_label [lit "Accession"] true text).
  pose proof (@single_valued_one (lit "Biosample") false) as Vb.
  pose proof (@single_valued_one (lit "Accession") true) as Va.
  pose proof single_valued_sample_id as Vs.
  assert (Nb : fb = None <-> no_match [lit "Biosample"] false text)
    by apply find_label_none.
  assert (Ns : fs = None
               <-> no_match [lit "Sample ID"; lit "Barcode"] true text)
    by apply find_label_none.
  assert (Na : fa = None <-> no_match [lit "Accession"] true text)
    by apply find_label_none.
  assert (Fb : forall tok, fb = Some tok
                           <-> first_match [lit "Biosample"] false text tok)
    by (intros tok; split;
        [apply find_label_sound | apply find_label_complete; exact Vb]).
  assert (Fs : forall tok,
             fs = Some tok
             <-> first_match [lit "Sample ID"; lit "Barcode"] true text tok)
    by (intros tok; split;
        [apply find_label_sound | apply find_label_complete; exact Vs]).
  assert (Fa : forall tok, fa = Some tok
                           <-> first_match [lit "Accession"] true text tok)
    by (intros tok; split;
        [apply find_label_sound | apply find_label_complete; exact Va]).
  assert (Hs : forall s,
             text = Unicode.of_str s ->
             exists b a,
               identifiers s = Ok (b, a)
               /\ match fb with
                  | Some tok => Some tok
                  | None => fs
                  end = of_cell b
               /\ fa = of_cell a).
  { intros s Ht.
    pose proof (identifiers_of_str s) as E.
    rewrite identifiers_find_label, <- Ht in E. fold fb fs fa in E.
    destruct (identifiers s) as [[b a]|e]; [|discriminate E].
    exists b, a. split; [reflexivity|].
    apply Ok_inj in E. cbn [fst snd] in E.
    split; congruence. }
  eexists. eexists. split; [reflexivity|].
  split; [|split; [|split; [|split; [|split; [|split]]]]].
  - intros tok. destruct fb as [t|] eqn:Eb.
    + split.
      * intros E. left. apply Fb. exact E.
      * intros [H|[H _]]; [apply Fb; exact H|].
        apply Nb in H. discriminate H.
    + split.
      * intros E. right. split; [apply Nb; reflexivity | apply Fs; exact E].
      * intros [H|[_ H]]; [apply Fb in H; discriminate H | apply Fs; exact H].
  - destruct fb as [t|] eqn:Eb.
    + split; [discriminate|]. intros [H _]. apply Nb in H. discriminate H.
    + split.
      * intros E. split; [apply Nb; reflexivity | apply Ns; exact E].
      * intros [_ H]. apply Ns. exact H.
  - exact Fa.
  - exact Na.
  - intros pre lbl post -> Hl Hend Hfirst.
    assert (E : fb = Some (Unicode.of_str (lit "AGP123456")))
      by (apply Fb, first_biosample_example; assumption).
    rewrite E. reflexivity.
  - exact Hs.
  - intros soup url Ht.
    destruct (Hs _ Ht) as [b [a [Hid [Hb Ha]]]].
    destruct (parse_survey_page_eq soup url) as [ids [Hid' E]].
    rewrite Hid in Hid'. apply Ok_inj in Hid'. subst ids.
    eexists. split; [exact E|]. cbn [rows fst snd].
    apply Forall_forall. intros row Hrow. apply in_map_iff in Hrow.
    destruct Hrow as [qr [<- Hqr]].
    destruct (survey_pairs_shape _ _ Hqr) as [q [r ->]].
    cbn [app nth]. split; symmetry; assumption.
Qed.

Lemma identifier_extraction_witness :
  in_casing (lit "Biosample") [98; 73; 111; 383; 97; 77; 112; 76; 101]%N
  /\ token_stops false (Unicode.of_str (lit ", Accession ACC-1"))
  /\ (forall pre1 pre2 t,
         Unicode.of_str (lit "Biosamples list. ") = pre1 ++ pre2 ->
         pre2 <> [] ->
         ~ matches_at (lit "Biosample") false
             (pre2 ++ [98; 73; 111; 383; 97; 77; 112; 76; 101]%N
                   ++ Unicode.of_str (lit ": AGP123456")
                   ++ Unicode.of_str (lit ", Accession ACC-1")) t)
  /\ exists biosample_id accession_id,
      Unicode.identifiers
        (Unicode.of_str (lit "Biosamples list. ")
           ++ [98; 73; 111; 383; 97; 77; 112; 76; 101]%N
           ++ Unicode.of_str (lit ": AGP123456")
           ++ Unicode.of_str (lit ", Accession ACC-1"))
      = Ok (biosample_id, accession_id)
      /\ biosample_id = Some (Unicode.of_str (lit "AGP123456")).
Proof.
  assert (Hl : in_casing (lit "Biosample")
                         [98; 73; 111; 383; 97; 77; 112; 76; 101]%N)
    by (repeat constructor).
  assert (Hfirst :
            forall pre1 pre2 t,
              Unicode.of_str (lit "Biosamples list. ") = pre1 ++ pre2 ->
              pre2 <> [] ->
              ~ matches_at (lit "Biosample") false
                  (pre2 ++ [98; 73; 111; 383; 97; 77; 112; 76; 101]%N
                        ++ Unicode.of_str (lit ": AGP123456")
                        ++ Unicode.of_str (lit ", Accession ACC-1")) t)
    by (apply none_before_label; vm_compute; reflexivity).
  split; [exact Hl|]. split; [reflexivity|]. split; [exact Hfirst|].
  destruct (identifier_extraction
              (Unicode.of_str (lit "Biosamples list. ")
                 ++ [98; 73; 111; 383; 97; 77; 112; 76; 101]%N
                 ++ Unicode.of_str (lit ": AGP123456")
                 ++ Unicode.of_str (lit ", Accession ACC-1")))
    as [b [a [E [_ [_ [_ [_ [H _]]]]]]]].
  exists b, a. split; [exact E|].
  exact (H (Unicode.of_str (lit "Biosamples list. "))
           [98; 73; 111; 383; 97; 77; 112; 76; 101]%N
           (Unicode.of_str (lit ", Accession ACC-1"))
           eq_refl Hl eq_refl Hfirst).
Defined.

(* ================================================================== *)
(** * Filtering the responses *)
(* ================================================================== *)

Lemma metachar_tests (c : ascii) :
  Re.metachar c = false ->
  Ascii.eqb c "\" = false /\ Ascii.eqb c "[" = false
  /\ Ascii.eqb c "(" = false /\ Ascii.eqb c ")" = false
  /\ Ascii.eqb c "|" = false /\ Ascii.eqb c "+" = false
  /\ Ascii.eqb c "." = false.
Proof.
  each_char c; vm_compute; intros H; try discriminate H;
    repeat split; reflexivity.
Qed.

Lemma metachar_lower (c : ascii) :
  Re.metachar (lower_char c) = Re.metachar c.
Proof. each_char c; reflexivity. Qed.

Lemma no_metachar_lower (s : str) : no_metachar s -> no_metachar (lower s).
Proof.
  unfold no_metachar. induction s as [|c s IH]; [reflexivity|].
  cbn [lower map forallb]. rewrite metachar_lower, !andb_true_iff.
  intros [H1 H2]. split; [assumption | apply IH; assumption].
Qed.

(** A pattern without metacharacters is read as its own text. *)
Lemma lex_literal (s : str) (fuel : nat) :
  length s < fuel -> no_metachar s ->
  Re.lex fuel s = Some (map Re.TLit s).
Proof.
  unfold no_metachar.
  revert fuel; induction s as [|c s IH]; intros fuel Hf Hm;
    (destruct fuel as [|f]; [inversion Hf|]).
  - reflexivity.
  - cbn [forallb] in Hm. apply andb_true_iff in Hm.
    destruct Hm as [Hc Hs]. apply negb_true_iff in Hc.
    destruct (metachar_tests c Hc) as [T1 [T2 [T3 [T4 [T5 [T6 T7]]]]]].
    cbn [Re.lex]. rewrite T1, T2, T3, T4, T5, T6, T7, Hc.
    rewrite IH by (assumption || (cbn [length] in Hf; lia)).
    reflexivity.
Qed.

Lemma parse_seq_literal (s : str) (fuel n : nat) :
  length s < fuel ->
  Re.parse_seq fuel n (map Re.TLit s) = Some (lits s Re.Eps, n, []).
Proof.
  revert fuel; induction s as [|c s IH]; intros fuel Hf;
    (destruct fuel as [|f]; [inversion Hf|]).
  - reflexivity.
  - cbn [length] in Hf. cbn [map Re.parse_seq].
    destruct f as [|f']; [lia|]. cbn [Re.parse_atom].
    specialize (IH (S f') ltac:(lia)).
    destruct s as [|d s]; cbn [map] in IH |- *; rewrite IH; reflexivity.
Qed.

Lemma compile_literal (p : str) :
  no_metachar p -> Re.compile p = Some (lits p Re.Eps).
Proof.
  intros H. unfold Re.compile. rewrite lex_literal by (assumption || lia).
  rewrite length_map.
  replace (3 * length p + 3) with (S (3 * length p + 2)) by lia.
  cbn [Re.parse_alt]. rewrite parse_seq_literal by lia. reflexivity.
Qed.

Lemma lits_prefix_exact (p s : str) : lits_prefix false p s = prefixb p s.
Proof.
  revert s; induction p as [|x p IH]; intros [|y s]; try reflexivity.
  cbn [lits_prefix prefixb]. rewrite IH. reflexivity.
Qed.

(** Searching a literal pattern is looking for a substring. *)
Lemma search_literal (p s : str) (pos : nat) :
  match Re.search_at false (lits p Re.Eps) pos s with
  | Some _ => true
  | None => false
  end = substringb p s.
Proof.
  revert pos; induction s as [|c s IH]; intros pos;
    cbn [Re.search_at]; unfold Re.match_here;
    rewrite matcher_lits, matcher_eps, lits_prefix_exact, substringb_unfold;
    destruct (prefixb p _); try reflexivity.
  apply IH.
Qed.

Lemma str_contains_literal (s : series) (p : str) :
  no_metachar p ->
  str_contains s p false
  = Ok (map (fun c => match c with
                      | Some x => substringb p x
                      | None => false
                      end) s).
Proof.
  intros H. unfold str_contains. rewrite compile_literal by assumption.
  f_equal. apply map_ext. intros [x|]; [|reflexivity].
  apply search_literal.
Qed.

Lemma select_map {A} (f : A -> bool) (l : list A) :
  select l (map f l) = filter f l.
Proof.
  induction l as [|x l IH]; [reflexivity|].
  cbn [map select filter]. rewrite IH. reflexivity.
Qed.

Lemma select_map2 {A B} (g : A -> B) (f : A -> bool) (l : list A) :
  select (map g l) (map f l) = map g (filter f l).
Proof.
  induction l as [|x l IH]; [reflexivity|].
  cbn [map select filter]. rewrite IH. destruct (f x); reflexivity.
Qed.

Lemma add_map {A} (f g : A -> cell) (l : list A) :
  add (map f l) (map g l)
  = map (fun x => match f x, g x with
                  | Some a, Some b => Some (a ++ b)
                  | _, _ => None
                  end) l.
Proof.
  unfold add. induction l as [|x l IH]; [reflexivity|].
  cbn [map combine]. rewrite IH. reflexivity.
Qed.

Lemma id_cell (b a u : cell) :
  match
    option_map (fun x => x ++ lit "_")
      match
        option_map (fun x => x ++ lit "_")
                   match b with Some x => Some x | None => Some [] end,
        match a with Some x => Some x | None => Some [] end
      with
      | Some x, Some y => Some (x ++ y)
      | _, _ => None
      end,
    match u with Some x => Some x | None => Some [] end
  with
  | Some x, Some y => Some (x ++ y)
  | _, _ => None
  end
  = Some (text_of b ++ lit "_" ++ text_of a ++ lit "_" ++ text_of u).
Proof.
  destruct b, a, u; cbn [option_map text_of]; rewrite <- ?app_assoc;
    reflexivity.
Qed.

Lemma id_series (rs : list (list cell)) :
  add (add_str (add (add_str (fillna (map (fun r => nth 2 r None) rs) [])
                             (lit "_"))
                    (fillna (map (fun r => nth 3 r None) rs) []))
               (lit "_"))
      (fillna (map (fun r => nth 4 r None) rs) [])
  = map (fun row => Some (composite_id row)) rs.
Proof.
  unfold add_str, fillna. rewrite !map_map, add_map, map_map, add_map.
  apply map_ext. intros row.
  exact (id_cell (nth 2 row None) (nth 3 row None) (nth 4 row None)).
Qed.

Lemma combine_map_snd {A B} (g : A -> B) (l : list A) :
  combine l (map g l) = map (fun x => (x, g x)) l.
Proof.
  induction l as [|x l IH]; [reflexivity|].
  cbn [map combine]. rewrite IH. reflexivity.
Qed.

Lemma unique_distinct (seen l : list str) :
  unique_acc (map Some seen) (map Some l) = map Some (distinct seen l).
Proof.
  revert seen; induction l as [|x l IH]; intros seen; [reflexivity|].
  cbn [map unique_acc distinct].
  rewrite existsb_map_comp. cbn [cell_eqb].
  destruct (existsb (fun y => str_eqb x y) seen); [apply IH|].
  cbn [map]. f_equal. exact (IH (x :: seen)).
Qed.

Lemma firstn_map_comm {A B} (f : A -> B) (n : nat) (l : list A) :
  firstn n (map f l) = map f (firstn n l).
Proof.
  revert l; induction n as [|n IH]; intros [|x l]; try reflexivity.
  cbn [map firstn]. rewrite IH. reflexivity.
Qed.

Lemma nth_after {A} (row : list A) (x d : A) :
  nth (length row) (row ++ [x]) d = x.
Proof.
  rewrite app_nth2 by lia. rewrite Nat.sub_diag. reflexivity.
Qed.

Lemma nth_before {A} (i : nat) (row : list A) (x d : A) :
  i < length row -> nth i (row ++ [x]) d = nth i row d.
Proof. intros H. apply app_nth1. exact H. Qed.

Lemma response_contains_cell (contains : str) (c : cell) :
  match c with
  | Some x => substringb (lower contains) (lower x)
  | None => false
  end
  = match option_map lower c with
    | Some x => substringb (lower contains) x
    | None => false
    end.
Proof. destruct c; reflexivity. Qed.

(** [filter_responses] on a survey frame and a filter string that is read
    as plain text. *)
Lemma filter_responses_eq (df : DataFrame) (contains : str) (n : Z) :
  columns df = survey_columns ->
  Forall (fun row => length row = 5) (rows df) ->
  no_metachar contains ->
  (0 <= n)%Z ->
  filter_responses df contains n
  = Ok {| columns := survey_columns ++ [col "id"];
          rows := map (fun row => row ++ [Some (composite_id row)])
                      (first_individuals
                         (Z.to_nat n)
                         (filter (response_contains contains) (rows df))) |}.
Proof.
  intros Hc Hr Hm Hn. unfold filter_responses.
  unfold getitem at 1. rewrite Hc.
  change (index_of (col "response") survey_columns) with (Some 1).
  cbn [bind]. unfold str_lower.
  rewrite str_contains_literal by (apply no_metachar_lower; assumption).
  cbn [bind]. rewrite !map_map.
  replace (map _ (rows df)) with (map (response_contains contains) (rows df)).
  2:{ apply map_ext. intros row.
      exact (response_contains_cell contains (nth 1 row None)). }
  unfold bool_index at 1 2 3 4. rewrite select_map, Hc.
  set (R := filter (response_contains contains) (rows df)).
  assert (HR : forall row, In row R -> length row = 5).
  { intros row Hin. apply filter_In in Hin. destruct Hin as [Hin _].
    rewrite Forall_forall in Hr. apply Hr. exact Hin. }
  unfold getitem at 1 2 3. cbn [columns rows].
  change (index_of (col "biosample_id") survey_columns) with (Some 2).
  change (index_of (col "accession_id") survey_columns) with (Some 3).
  change (index_of (col "source_url") survey_columns) with (Some 4).
  cbn [bind]. rewrite id_series.
  unfold setitem_series. cbn [columns rows].
  rewrite length_map, Nat.eqb_refl.
  change (index_of (col "id") survey_columns) with (@None nat).
  cbn [bind]. rewrite combine_map_snd, map_map. cbn [fst snd].
  unfold getitem. cbn [columns rows].
  change (index_of (col "id") (survey_columns ++ [col "id"])) with (Some 5).
  cbn [bind]. rewrite map_map.
  match goal with
  | |- context [isin ?m _] =>
      replace m with (map (@Some str) (map composite_id R))
  end.
  2:{ rewrite map_map. apply map_ext_in. intros row Hin.
      rewrite <- (HR row Hin). symmetry. apply nth_after. }
  unfold slice_to.
  replace (0 <=? n)%Z with true by (symmetry; apply Z.leb_le; assumption).
  unfold unique.
  pose proof (unique_distinct [] (map composite_id R)) as U.
  change (map Some []) with (@nil cell) in U.
  rewrite U, firstn_map_comm.
  unfold isin, bool_index, first_individuals. cbn [columns rows].
  rewrite !map_map. f_equal. f_equal.
  rewrite <- select_map2. f_equal. apply map_ext. intros row.
  rewrite existsb_map_comp. reflexivity.
Qed.

(* ------------------------------------------------------------------ *)
(** ** C9 *)

(** C9, the input on which it fails: the filter string "." is read as a
    pattern and finds any character, so a row whose response is "Dog" is
    kept although "dog" holds no full stop. *)
Lemma filter_string_is_a_pattern :
  exists df out row,
    DEMO_DATA = Ok df
    /\ filter_responses df (lit ".") 10 = Ok out
    /\ In row (rows df)
    /\ response_of row = Some (lit "Dog")
    /\ substringb (lower (lit ".")) (lower (lit "Dog")) = false
    /\ In (row ++ [Some (composite_id row)]) (rows out).
Proof.
  eexists. eexists. eexists.
  split; [reflexivity|].
  split; [vm_compute; reflexivity|].
  split; [right; right; right; left; reflexivity|].
  split; [reflexivity|].
  split; [reflexivity|].
  right; right; right; left; reflexivity.
Qed.

(** C9 (amended): the filter string is a regular expression.  When it
    holds none of the characters [. ^ $ * + ? { } [ ] \ | ( )], and the
    limit [n] is not negative, [filter_responses] on a survey frame keeps
    exactly the rows whose response, in lower case, holds the filter
    string in lower case (never a row with a missing response), then
    exactly those of them whose composite identifier is one of the first
    [n] distinct composite identifiers in row order, and puts the
    composite identifier behind each row as the column "id". *)
Theorem filter_responses_literal (df : DataFrame) (contains : str) (n : Z) :
  columns df = survey_columns ->
  Forall (fun row => length row = 5) (rows df) ->
  no_metachar contains ->
  (0 <= n)%Z ->
  exists out,
    filter_responses df contains n = Ok out
    /\ columns out = survey_columns ++ [col "id"]
    /\ rows out
       = map (fun row => row ++ [Some (composite_id row)])
             (first_individuals
                (Z.to_nat n)
                (filter (fun row =>
                           match response_of row with
                           | Some x => substringb (lower contains) (lower x)
                           | None => false
                           end) (rows df)))
    /\ Forall (fun row => exists x, response_of row = Some x) (rows out).
Proof.
  intros Hc Hr Hm Hn. eexists.
  split; [apply filter_responses_eq; assumption|].
  split; [reflexivity|]. split; [reflexivity|].
  cbn [rows]. apply Forall_forall. intros row Hin.
  apply in_map_iff in Hin. destruct Hin as [r [<- Hin]].
  unfold first_individuals in Hin. apply filter_In in Hin.
  destruct Hin as [Hin _]. apply filter_In in Hin. destruct Hin as [Hin Hk].
  rewrite Forall_forall in Hr. specialize (Hr r Hin).
  unfold response_contains in Hk. unfold response_of in *.
  rewrite nth_before by lia.
  destruct (nth 1 r None) as [x|]; [eauto | discriminate].
Qed.

Lemma filter_responses_literal_witness :
  columns Samples.demo_frame = survey_columns
  /\ Forall (fun row => length row = 5) (rows Samples.demo_frame)
  /\ no_metachar (lit "O")
  /\ (0 <= 1)%Z
  /\ exists out,
      filter_responses Samples.demo_frame (lit "O") 1 = Ok out
      /\ columns out = survey_columns ++ [col "id"]
      /\ rows out
         = map (fun row => row ++ [Some (composite_id row)])
               (first_individuals
                  (Z.to_nat 1)
                  (filter (fun row =>
                             match response_of row with
                             | Some x =>
                                 substringb (lower (lit "O")) (lower x)
                             | None => false
                             end) (rows Samples.demo_frame)))
      /\ Forall (fun row => exists x, response_of row = Some x) (rows out).
Proof.
  split; [reflexivity|].
  split; [repeat constructor|].
  split; [reflexivity|].
  split; [lia|].
  apply (@filter_responses_literal Samples.demo_frame (lit "O") 1);
    [reflexivity | repeat constructor | reflexivity | lia].
Defined.

(* ================================================================== *)
(** * The batch script *)
(* ================================================================== *)

Section BatchScript.
Import Batch.

Lemma DEMO_DF_eq : DEMO_DF = Ok demo_df.
Proof. reflexivity. Qed.

Lemma demo_rows_eq (biosample_id : str) (acc : list dict) :
  demo_rows demo_df biosample_id (rows demo_df) acc
  = Ok (acc ++ demo_dicts biosample_id).
Proof.
  cbn [rows demo_df demo_rows]. unfold row_get. cbn [columns demo_df].
  change (index_of (col "question") _) with (Some 1).
  change (index_of (col "response") _) with (Some 2).
  cbn [bind nth]. rewrite <- !app_assoc. reflexivity.
Qed.

Lemma process_ids_eq (ids : list str) (out : list str) (acc : list dict) :
  process_ids demo_df ids out acc
  = Ok (out ++ map processing_message ids, acc ++ flat_map demo_dicts ids).
Proof.
  revert out acc; induction ids as [|i ids IH]; intros out acc.
  - cbn [process_ids map flat_map]. rewrite !app_nil_r. reflexivity.
  - cbn [process_ids]. rewrite demo_rows_eq. cbn [bind].
    rewrite IH. cbn [map flat_map]. rewrite <- !app_assoc. reflexivity.
Qed.

Lemma dedup_seen (seen l : list str) :
  (forall x, In x l -> existsb (str_eqb x) seen = true) ->
  dedup seen l = [].
Proof.
  induction l as [|x l IH]; intros H; [reflexivity|].
  cbn [dedup]. rewrite (H x) by (left; reflexivity).
  apply IH. intros y Hy. apply H. right; assumption.
Qed.

Lemma keys_of_demo_dicts (ids : list str) (x : str) :
  In x (flat_map (map fst) (flat_map demo_dicts ids)) ->
  existsb (str_eqb x) [lit "response"; lit "question"; lit "biosample_id"]
  = true.
Proof.
  intros H. apply in_flat_map in H. destruct H as [d [Hd Hx]].
  apply in_flat_map in Hd. destruct Hd as [i [_ Hd]].
  cbn [demo_dicts map In] in Hd.
  destruct Hd as [<-|[<-|[<-|[]]]]; cbn [map fst In] in Hx;
    destruct Hx as [<-|[<-|[<-|[]]]]; reflexivity.
Qed.

Lemma rows_of_dicts (ids : list str) :
  map (fun d => map (dict_get d) csv_columns) (flat_map demo_dicts ids)
  = map (map Some) (flat_map demo_records ids).
Proof.
  induction ids as [|i ids IH]; [reflexivity|].
  cbn [flat_map]. rewrite !map_app, IH. reflexivity.
Qed.

(** The frame of the output rows: three columns as soon as there is one
    row, none when there is no row. *)
Lemma out_df_eq (ids : list str) :
  DataFrame_of_records (flat_map demo_dicts ids)
  = {| columns := match ids with
                  | [] => []
                  | _ :: _ => map StrLabel csv_columns
                  end;
       rows := map (map Some) (flat_map demo_records ids) |}.
Proof.
  unfold DataFrame_of_records.
  destruct ids as [|i ids]; [reflexivity|].
  assert (K : dedup [] (flat_map (map fst) (flat_map demo_dicts (i :: ids)))
              = csv_columns).
  { cbn [flat_map demo_dicts map fst app dedup existsb].
    change (str_eqb (lit "question") (lit "biosample_id")) with false.
    change (str_eqb (lit "response") (lit "question")) with false.
    change (str_eqb (lit "response") (lit "biosample_id")) with false.
    cbn [orb].
    rewrite dedup_seen; [reflexivity|].
    intros x Hx.
    apply (keys_of_demo_dicts (i :: ids)).
    cbn [flat_map demo_dicts map fst app].
    repeat (first [exact Hx | right]). }
  rewrite K. f_equal. apply rows_of_dicts.
Qed.

Lemma main_usage (argv : list str) (fs : files) :
  length argv <> 3 ->
  main argv fs
  = {| stdout := [usage]; written := None;
       ended := Raise (SystemExit 1) |}.
Proof.
  intros H. unfold main.
  destruct (length argv =? 3) eqn:E; [|reflexivity].
  apply Nat.eqb_eq in E. congruence.
Qed.

(** A run with two arguments and a readable input file, up to the
    writing of the CSV. *)
Lemma main_reads (prog input_file output_file content : str)
      (fs : files) :
  fs input_file = Some content ->
  let ids := identifiers_of content in
  let out :=
    (lit "Attempting to fetch survey data... (will use demo data if unavailable)"
       ++ [LF]) :: map processing_message ids in
  main [prog; input_file; output_file] fs
  = if writable fs output_file then
      {| stdout := out ++ [LF :: lit "Saved CSV file: " ++ output_file;
                           lit "Script complete."];
         written := Some (output_file,
                          to_csv (DataFrame_of_records
                                    (flat_map demo_dicts ids)));
         ended := Ok tt |}
    else {| stdout := out; written := None; ended := Raise OSError |}.
Proof.
  intros Hfs ids out. unfold main. cbn [length Nat.eqb negb nth].
  unfold open_read. rewrite Hfs. fold (identifiers_of content). fold ids.
  rewrite DEMO_DF_eq. cbn [bind]. rewrite process_ids_eq.
  cbn [app]. reflexivity.
Qed.

Lemma main_writes (prog input_file output_file content : str)
      (fs : files) :
  fs input_file = Some content ->
  writable fs output_file = true ->
  let ids := identifiers_of content in
  ended (main [prog; input_file; output_file] fs) = Ok tt
  /\ written (main [prog; input_file; output_file] fs)
     = Some (output_file,
             {| csv_header := match ids with
                              | [] => []
                              | _ :: _ => csv_columns
                              end;
                csv_records := flat_map demo_records ids |}).
Proof.
  intros Hfs Hw ids.
  rewrite (@main_reads prog input_file output_file content fs Hfs), Hw.
  cbn [ended written]. split; [reflexivity|].
  fold ids. rewrite out_df_eq. unfold to_csv. cbn [columns rows].
  f_equal. f_equal. f_equal.
  - destruct ids; reflexivity.
  - rewrite map_map. rewrite <- (map_id (flat_map demo_records ids)) at 2.
    apply map_ext. intros r. rewrite map_map. apply map_id.
Qed.

(** When the output path cannot be written, the run ends with the
    exception of [to_csv]: no file, and the two closing lines are not
    printed. *)
Lemma main_write_fails (prog input_file output_file content : str)
      (fs : files) :
  fs input_file = Some content ->
  writable fs output_file = false ->
  main [prog; input_file; output_file] fs
  = {| stdout :=
         (lit "Attempting to fetch survey data... (will use demo data if unavailable)"
            ++ [LF]) :: map processing_message (identifiers_of content);
       written := None;
       ended := Raise OSError |}.
Proof.
  intros Hfs Hw.
  rewrite (@main_reads prog input_file output_file content fs Hfs), Hw.
  reflexivity.
Qed.

End BatchScript.

Section InputFile.
Import Batch.

Lemma file_lines_unfold (cur s : str) :
  file_lines cur s
  = match s with
    | [] => match cur with [] => [] | _ :: _ => [cur] end
    | c :: s' =>
        if Ascii.eqb c LF then (cur ++ [LF]) :: file_lines [] s'
        else if Ascii.eqb c CR then
          match s' with
          | d :: s'' =>
              if Ascii.eqb d LF then (cur ++ [LF]) :: file_lines [] s''
              else (cur ++ [LF]) :: file_lines [] s'
          | [] => (cur ++ [LF]) :: file_lines [] s'
          end
        else file_lines (cur ++ [c]) s'
    end.
Proof. destruct s; reflexivity. Qed.

Lemma file_lines_line (l cur rest : str) :
  one_line l ->
  file_lines cur (l ++ LF :: rest) = (cur ++ l ++ [LF]) :: file_lines [] rest.
Proof.
  unfold one_line. revert cur; induction l as [|c l IH]; intros cur H;
    rewrite file_lines_unfold; cbn [app].
  - rewrite Ascii.eqb_refl. reflexivity.
  - cbn [forallb] in H. apply andb_true_iff in H. destruct H as [Hc Hl].
    apply negb_true_iff, orb_false_iff in Hc. destruct Hc as [-> ->].
    rewrite IH by assumption. rewrite <- app_assoc. reflexivity.
Qed.

Lemma file_lines_of_lines (lines : list str) :
  Forall one_line lines ->
  file_lines [] (concat (map (fun l => l ++ [LF]) lines))
  = map (fun l => l ++ [LF]) lines.
Proof.
  induction 1 as [|l lines Hl _ IH]; [reflexivity|].
  cbn [map concat]. rewrite <- app_assoc. cbn [app].
  rewrite file_lines_line by assumption. rewrite IH. reflexivity.
Qed.

Lemma lstrip_app (a b : str) :
  lstrip (a ++ b) = if forallb isspace a then lstrip b else lstrip a ++ b.
Proof.
  induction a as [|c a IH]; [reflexivity|].
  cbn [app lstrip forallb]. destruct (isspace c); [exact IH | reflexivity].
Qed.

Lemma lstrip_all_space (a : str) :
  forallb isspace a = true -> lstrip a = [].
Proof.
  induction a as [|c a IH]; [reflexivity|].
  cbn [forallb lstrip]. destruct (isspace c); [exact IH | discriminate].
Qed.

Lemma rstrip_app_space (x : str) (c : ascii) :
  isspace c = true -> rstrip (x ++ [c]) = rstrip x.
Proof.
  intros H. unfold rstrip. rewrite rev_app_distr. cbn [rev app lstrip].
  rewrite H. reflexivity.
Qed.

Lemma strip_line (l : str) : strip (l ++ [LF]) = strip l.
Proof.
  unfold strip. rewrite lstrip_app.
  destruct (forallb isspace l) eqn:E.
  - rewrite (lstrip_all_space l E). reflexivity.
  - apply rstrip_app_space. reflexivity.
Qed.

(** One identifier per line, blank lines ignored. *)
Lemma identifiers_of_lines (lines : list str) :
  Forall one_line lines ->
  identifiers_of (concat (map (fun l => l ++ [LF]) lines))
  = map strip (filter (fun l => nonempty (strip l)) lines).
Proof.
  intros H. unfold identifiers_of. rewrite file_lines_of_lines by assumption.
  clear H. induction lines as [|l lines IH]; [reflexivity|].
  cbn [map filter]. rewrite strip_line.
  destruct (nonempty (strip l)); cbn [map]; rewrite IH, ?strip_line;
    reflexivity.
Qed.

End InputFile.

Lemma demo_records_length (ids : list str) :
  length (flat_map demo_records ids) = length ids * 3.
Proof.
  induction ids as [|i ids IH]; [reflexivity|].
  cbn [flat_map]. rewrite length_app, IH. reflexivity.
Qed.

(* ------------------------------------------------------------------ *)
(** ** C4 *)

(** C4, the input on which it fails: an input file without identifiers
    (here an empty file) gives a CSV without the three columns. *)
Lemma empty_input_csv_without_columns :
  Batch.written (Batch.main [lit "biosample_scraper.py"; lit "ids.txt";
                       lit "out.csv"]
                      (Samples.one_file (lit "ids.txt") []))
  = Some (lit "out.csv",
          {| Batch.csv_header := []; Batch.csv_records := [] |})
  /\ @nil str <> csv_columns.
Proof. split; [reflexivity | discriminate]. Qed.

(** C4 (amended): with other than two arguments the script prints the
    usage line and exits with status 1, writing nothing.  With two
    arguments, a readable input file and an output path that can be
    written, it ends normally and writes to the output path one record
    per pair of an identifier of the file (its non-blank lines, trimmed,
    in order) and a demo response, each record starting with its
    identifier: three records per identifier, six for two identifiers.
    The CSV has the columns biosample_id, question, response when the
    file has an identifier, and no column and no record when it has
    none.  With two arguments and an input file that cannot be read or
    an output path that cannot be written, the script ends with the
    exception of [open] or of [to_csv]: exit status 1 and no file. *)
Theorem batch_main_csv (argv : list str) (fs : Batch.files) :
  (length argv <> 3 ->
   Batch.stdout (Batch.main argv fs) = [Batch.usage]
   /\ Batch.exit_status (Batch.main argv fs) = 1%Z
   /\ Batch.written (Batch.main argv fs) = None)
  /\ (forall prog input_file output_file,
      argv = [prog; input_file; output_file] ->
      fs input_file = None \/ Batch.writable fs output_file = false ->
      (exists e, Batch.ended (Batch.main argv fs) = Raise e
                 /\ (e = FileNotFoundError \/ e = OSError))
      /\ Batch.exit_status (Batch.main argv fs) = 1%Z
      /\ Batch.written (Batch.main argv fs) = None)
  /\ (forall prog input_file output_file content,
      argv = [prog; input_file; output_file] ->
      fs input_file = Some content ->
      Batch.writable fs output_file = true ->
      exists out,
        Batch.written (Batch.main argv fs) = Some (output_file, out)
        /\ Batch.exit_status (Batch.main argv fs) = 0%Z
        /\ Batch.csv_records out
           = flat_map (fun id => [ [id; lit "Diet type"; lit "Omnivore"];
                                   [id; lit "Diet type"; lit "Vegetarian"];
                                   [id; lit "Diet type"; lit "Vegan"] ])
                      (identifiers_of content)
        /\ length (Batch.csv_records out)
           = length (identifiers_of content) * 3
        /\ (identifiers_of content <> [] ->
            Batch.csv_header out
            = [lit "biosample_id"; lit "question"; lit "response"])
        /\ (identifiers_of content = [] ->
            Batch.csv_header out = [] /\ Batch.csv_records out = [])
        /\ (forall lines,
            Forall one_line lines ->
            content = concat (map (fun l => l ++ [Batch.LF]) lines) ->
            identifiers_of content
            = map strip (filter (fun l => nonempty (strip l)) lines))).
Proof.
  split; [|split].
  - intros H. rewrite main_usage by assumption. repeat split.
  - intros prog input_file output_file -> H.
    destruct (fs input_file) as [content|] eqn:Hfs.
    + destruct H as [H|H]; [discriminate|].
      rewrite (@main_write_fails prog input_file output_file content fs Hfs H).
      split; [exists OSError; split; [reflexivity | right; reflexivity]|].
      split; reflexivity.
    + unfold Batch.main, Batch.open_read.
      cbn [length Nat.eqb negb nth]. rewrite Hfs.
      split; [exists FileNotFoundError; split;
              [reflexivity | left; reflexivity]|].
      split; reflexivity.
  - intros prog input_file output_file content -> Hfs Hwr.
    destruct (@main_writes prog input_file output_file content fs Hfs Hwr)
      as [He Hw].
    eexists. split; [exact Hw|].
    split; [unfold Batch.exit_status; rewrite He; reflexivity|].
    cbn [Batch.csv_records Batch.csv_header].
    split; [reflexivity|]. split; [|split; [|split]].
    + exact (demo_records_length (identifiers_of content)).
    + destruct (identifiers_of content); [congruence | reflexivity].
    + intros ->. split; reflexivity.
    + intros lines Hl ->. apply identifiers_of_lines. exact Hl.
Qed.

Lemma batch_main_csv_witness :
  Samples.one_file (lit "ids.txt") Samples.two_ids (lit "ids.txt")
  = Some Samples.two_ids
  /\ Batch.writable (Samples.one_file (lit "ids.txt") Samples.two_ids)
                    (lit "out.csv") = true
  /\ (exists out,
      Batch.written
        (Batch.main [lit "biosample_scraper.py"; lit "ids.txt"; lit "out.csv"]
                    (Samples.one_file (lit "ids.txt") Samples.two_ids))
      = Some (lit "out.csv", out)
      /\ length (Batch.csv_records out) = 6
      /\ Batch.csv_header out
         = [lit "biosample_id"; lit "question"; lit "response"])
  /\ (Batch.writable (Samples.read_only (lit "ids.txt") Samples.two_ids)
                     (lit "out.csv") = false
      /\ Batch.exit_status
           (Batch.main [lit "biosample_scraper.py"; lit "ids.txt";
                        lit "out.csv"]
                       (Samples.read_only (lit "ids.txt") Samples.two_ids))
         = 1%Z
      /\ Batch.written
           (Batch.main [lit "biosample_scraper.py"; lit "ids.txt";
                        lit "out.csv"]
                       (Samples.read_only (lit "ids.txt") Samples.two_ids))
         = None)
  /\ (length [lit "biosample_scraper.py"; lit "ids.txt"] <> 3
      /\ Batch.exit_status
           (Batch.main [lit "biosample_scraper.py"; lit "ids.txt"]
                       (Samples.one_file (lit "ids.txt") Samples.two_ids))
         = 1%Z).
Proof.
  split; [reflexivity|]. split; [reflexivity|]. split; [|split].
  - destruct (batch_main_csv
                [lit "biosample_scraper.py"; lit "ids.txt"; lit "out.csv"]
                (Samples.one_file (lit "ids.txt") Samples.two_ids))
      as [_ [_ H]].
    destruct (H (lit "biosample_scraper.py") (lit "ids.txt") (lit "out.csv")
                Samples.two_ids eq_refl eq_refl eq_refl)
      as [out [Hw [_ [_ [Hlen [Hhead _]]]]]].
    exists out. split; [exact Hw|]. split.
    + rewrite Hlen. reflexivity.
    + apply Hhead. vm_compute. discriminate.
  - split; [reflexivity|].
    destruct (batch_main_csv
                [lit "biosample_scraper.py"; lit "ids.txt"; lit "out.csv"]
                (Samples.read_only (lit "ids.txt") Samples.two_ids))
      as [_ [H _]].
    destruct (H (lit "biosample_scraper.py") (lit "ids.txt") (lit "out.csv")
                eq_refl (or_intror eq_refl))
      as [_ [Hs Hw]].
    split; [exact Hs | exact Hw].
  - assert (Hlen : length [lit "biosample_scraper.py"; lit "ids.txt"] <> 3)
      by (cbn [length]; lia).
    split; [exact Hlen|].
    destruct (batch_main_csv
                [lit "biosample_scraper.py"; lit "ids.txt"]
                (Samples.one_file (lit "ids.txt") Samples.two_ids))
      as [H _].
    destruct (H Hlen) as [_ [Hs _]]. exact Hs.
Defined.

(* ================================================================== *)
(** * Further properties: sheet names *)
(* ================================================================== *)

Lemma lstrip_nil_iff (s : str) :
  lstrip s = [] <-> forallb isspace s = true.
Proof.
  induction s as [|c s IH]; cbn [lstrip forallb]; [tauto|].
  destruct (isspace c); cbn [andb]; [exact IH|].
  split; discriminate.
Qed.

Lemma strip_nil_iff (s : str) :
  strip s = [] <-> forallb isspace s = true.
Proof.
  rewrite <- lstrip_nil_iff. unfold strip.
  pose proof (lstrip_head s) as H.
  destruct (lstrip s) as [|c t]; [split; reflexivity|].
  rewrite rstrip_cons_nonspace by assumption. split; discriminate.
Qed.

Lemma forallb_isspace_map (s : str) :
  forallb isspace (map replace_invalid s) = forallb isspace s.
Proof.
  induction s as [|c s IH]; [reflexivity|].
  cbn [map forallb]. rewrite replace_invalid_space, IH. reflexivity.
Qed.

(** X1: a sanitized name is a name a sheet can take as far as this
    function looks: one to 31 characters, none of the seven forbidden
    ones, no whitespace in front. *)
Theorem sanitize_sheet_name_valid (name : str) :
  exists out,
    sanitize_sheet_name name = Ok out
    /\ 1 <= length out <= 31
    /\ forallb (fun c => negb (invalid_char c)) out = true
    /\ lstrip out = out.
Proof.
  rewrite sanitize_sheet_name_eq. eexists. split; [reflexivity|].
  set (u := strip (map replace_invalid name)).
  assert (Hvalid : forallb (fun c => negb (invalid_char c)) (firstn 31 u) = true)
    by (apply firstn_forallb, strip_forallb, map_replace_invalid_valid).
  assert (Hhead : lstrip (firstn 31 u) = firstn 31 u)
    by (apply lstrip_firstn_head, strip_head).
  assert (Hlen : length (firstn 31 u) <= 31) by apply firstn_le_length.
  unfold or_placeholder.
  destruct (firstn 31 u) as [|c t].
  - cbn [nonempty]. repeat split; try reflexivity; vm_compute; lia.
  - cbn [nonempty]. repeat split; try assumption. cbn [length]. lia.
Qed.

(** X2: the placeholder is given exactly for the names without a visible
    character: an empty or all-whitespace name becomes "sheet", any other
    name becomes the non-empty start of its cleaned text. *)
Theorem sanitize_sheet_name_blank (name : str) :
  (forallb isspace name = true ->
   sanitize_sheet_name name = Ok (lit "sheet"))
  /\ (forallb isspace name = false ->
      exists c rest,
        firstn 31 (strip (map replace_invalid name)) = c :: rest
        /\ sanitize_sheet_name name = Ok (c :: rest)).
Proof.
  rewrite sanitize_sheet_name_eq. split; intros H.
  - replace (strip (map replace_invalid name)) with (@nil ascii);
      [reflexivity|].
    symmetry. apply strip_nil_iff. rewrite forallb_isspace_map. exact H.
  - destruct (strip (map replace_invalid name)) as [|c t] eqn:E.
    + apply strip_nil_iff in E. rewrite forallb_isspace_map in E. congruence.
    + exists c, (firstn 30 t). split; reflexivity.
Qed.

Lemma sanitize_sheet_name_blank_witness :
  forallb isspace (lit "  ") = true
  /\ sanitize_sheet_name (lit "  ") = Ok (lit "sheet").
Proof.
  split; [reflexivity|].
  apply (sanitize_sheet_name_blank (lit "  ")). reflexivity.
Defined.

(** X3: a name that is already clean is left as it is: not empty, at
    most 31 characters, none of the forbidden characters, no whitespace
    at either end. *)
Theorem sanitize_sheet_name_clean (name : str) :
  name <> [] ->
  length name <= 31 ->
  forallb (fun c => negb (invalid_char c)) name = true ->
  strip name = name ->
  sanitize_sheet_name name = Ok name.
Proof.
  intros Hne Hlen Hvalid Hstrip. rewrite sanitize_sheet_name_eq.
  rewrite map_replace_invalid_id by assumption.
  rewrite Hstrip, firstn_all2 by assumption.
  destruct name; [congruence | reflexivity].
Qed.

Lemma sanitize_sheet_name_clean_witness :
  lit "AGP 1-2" <> []
  /\ length (lit "AGP 1-2") <= 31
  /\ forallb (fun c => negb (invalid_char c)) (lit "AGP 1-2") = true
  /\ strip (lit "AGP 1-2") = lit "AGP 1-2"
  /\ sanitize_sheet_name (lit "AGP 1-2") = Ok (lit "AGP 1-2").
Proof.
  split; [discriminate|]. split; [vm_compute; lia|].
  split; [reflexivity|]. split; [reflexivity|].
  apply (sanitize_sheet_name_clean (name := lit "AGP 1-2"));
    [discriminate | vm_compute; lia | reflexivity | reflexivity].
Defined.

(* ================================================================== *)
(** * Further properties: the survey page *)
(* ================================================================== *)

Lemma fold_left_first_max {A} (key : A -> nat) (l : list A) (x : A) :
  let best := fold_left (fun b y => if key b <? key y then y else b) l x in
  exists before after,
    x :: l = before ++ best :: after
    /\ Forall (fun y => key y < key best) before
    /\ Forall (fun y => key y <= key best) after.
Proof.
  revert x; induction l as [|y l IH]; intros x; cbn [fold_left]; cbv zeta.
  - exists [], []. repeat split; constructor.
  - specialize (IH (if key x <? key y then y else x)). cbv zeta in IH.
    pose proof (fold_left_max key l (if key x <? key y then y else x)) as M.
    cbv zeta in M. destruct M as [_ [Mle _]].
    destruct IH as [m1 [m2 [E [H1 H2]]]].
    destruct (key x <? key y) eqn:C;
      [apply Nat.ltb_lt in C | apply Nat.ltb_ge in C];
      set (b := fold_left _ l _) in *.
    + exists (x :: m1), m2. cbn [app]. split; [f_equal; exact E|].
      split; [|assumption]. constructor; [lia | assumption].
    + destruct m1 as [|z m1].
      * cbn [app] in E. injection E as Ex El.
        exists [], (y :: m2). cbn [app].
        split; [rewrite <- Ex; do 2 f_equal; exact El|].
        split; [constructor|]. constructor; [|assumption].
        rewrite <- Ex. exact C.
      * cbn [app] in E. injection E as Ez El. subst z.
        exists (x :: y :: m1), m2. cbn [app].
        split; [do 2 f_equal; exact El|].
        pose proof (Forall_inv H1) as Hx. cbv beta in Hx.
        pose proof (Forall_inv_tail H1) as H1'.
        split; [|assumption].
        constructor; [assumption|]. constructor; [lia | assumption].
Qed.

(** X4: of several tables with the greatest number of rows, the first in
    document order is the one looked at: every table before the selected
    one has fewer rows, no table after it has more. *)
Theorem selected_table_first_largest (soup best : node) :
  selected_table soup = Some best ->
  exists before after,
    find_all [lit "table"] soup = before ++ best :: after
    /\ Forall (fun t => length (find_all [lit "tr"] t)
                        < length (find_all [lit "tr"] best)) before
    /\ Forall (fun t => length (find_all [lit "tr"] t)
                        <= length (find_all [lit "tr"] best)) after.
Proof.
  unfold selected_table.
  destruct (find_all [lit "table"] soup) as [|t ts]; [discriminate|].
  cbn [max_by]. intros E. injection E as <-.
  exact (fold_left_first_max row_count ts t).
Qed.

Lemma selected_table_first_largest_witness :
  selected_table Samples.tied_page = Some Samples.first_long_table
  /\ length (find_all [lit "tr"] Samples.first_long_table)
     = length (find_all [lit "tr"] Samples.second_long_table)
  /\ exists before after,
      find_all [lit "table"] Samples.tied_page
      = before ++ Samples.first_long_table :: after
      /\ Forall (fun t => length (find_all [lit "tr"] t)
                          < length (find_all [lit "tr"]
                                             Samples.first_long_table))
                before
      /\ Forall (fun t => length (find_all [lit "tr"] t)
                          <= length (find_all [lit "tr"]
                                              Samples.first_long_table))
                after
      /\ before = [Samples.short_table]
      /\ after = [Samples.second_long_table].
Proof.
  split; [reflexivity|]. split; [reflexivity|].
  destruct (@selected_table_first_largest Samples.tied_page
              Samples.first_long_table eq_refl)
    as [before [after [E [Hb Ha]]]].
  exists before, after.
  split; [exact E|]. split; [exact Hb|]. split; [exact Ha|].
  change (find_all [lit "table"] Samples.tied_page)
    with [Samples.short_table; Samples.first_long_table;
          Samples.second_long_table] in E.
  destruct before as [|b1 [|b2 [|b3 before]]]; cbn [app] in E.
  - discriminate E.
  - injection E as <- <-. split; reflexivity.
  - injection E as _ _ E. discriminate E.
  - injection E as _ _ _ E. destruct before; discriminate E.
Defined.

Lemma strip_idem (s : str) : strip (strip s) = strip s.
Proof.
  unfold strip at 1.
  pose proof (strip_head s) as H.
  destruct (strip s) as [|c t] eqn:E; [reflexivity|].
  rewrite lstrip_nonspace by assumption.
  rewrite <- E. unfold strip. apply rstrip_idem.
Qed.

Lemma strip_incl (c : ascii) (s : str) : In c (strip s) -> In c s.
Proof.
  intros H. unfold strip in H.
  destruct (lstrip_suffix s) as [a Ha].
  destruct (rstrip_prefix (lstrip s)) as [b Hb].
  rewrite Ha, Hb. apply in_or_app. right. apply in_or_app. left. exact H.
Qed.

(** X5: in the records of the free-text strategy the question holds no
    colon, and neither the question nor the response starts or ends with
    whitespace. *)
Theorem free_text_records_trimmed (soup : node) (url : str) :
  (forall best, selected_table soup = Some best ->
                qualifying_table best = false) ->
  exists df,
    parse_survey_page soup url = Ok df
    /\ Forall (fun row =>
                 exists q r,
                   firstn 2 row = [Some q; Some r]
                   /\ ~ In ":"%char q
                   /\ strip q = q /\ strip r = r)
              (rows df).
Proof.
  intros Hfree.
  destruct (parse_survey_page_eq soup url) as [ids [_ E]].
  eexists. split; [exact E|]. cbn [rows].
  rewrite (survey_pairs_text _ Hfree). unfold text_pairs.
  apply Forall_forall. intros row Hrow.
  apply in_map_iff in Hrow. destruct Hrow as [qr [<- Hqr]].
  apply in_map_iff in Hqr. destruct Hqr as [tag [<- Htag]].
  apply filter_In in Htag. destruct Htag as [_ Hc].
  destruct (break_at_contains _ _ Hc) as [q [r B]].
  unfold item_of. rewrite B.
  apply break_at_spec in B. destruct B as [_ Hn].
  exists (strip q), (strip r). repeat split.
  - intros H. apply Hn. apply strip_incl. exact H.
  - apply strip_idem.
  - apply strip_idem.
Qed.

Lemma free_text_records_trimmed_witness :
  (forall best, selected_table Samples.list_page = Some best ->
                qualifying_table best = false)
  /\ exists df,
      parse_survey_page Samples.list_page Samples.url = Ok df
      /\ Forall (fun row =>
                   exists q r,
                     firstn 2 row = [Some q; Some r]
                     /\ ~ In ":"%char q
                     /\ strip q = q /\ strip r = r)
                (rows df).
Proof.
  assert (H : forall best, selected_table Samples.list_page = Some best ->
                           qualifying_table best = false)
    by (intros best H; vm_compute in H; discriminate).
  split; [exact H|].
  apply (free_text_records_trimmed Samples.list_page Samples.url H).
Defined.

Lemma table_pairs_length (trs : list node) :
  length (flat_map (fun tr => first_two (cells tr)) trs)
  = length (filter (fun tr => negb (length (cells tr) =? 0)) trs).
Proof.
  induction trs as [|tr trs IH]; [reflexivity|].
  cbn [flat_map filter]. rewrite length_app, IH.
  destruct (cells tr) as [|q [|r cs]]; reflexivity.
Qed.

(** X6: when the table strategy runs, the frame has one row for every
    row of the selected table that has a cell, no more and no fewer. *)
Theorem table_records_count (soup : node) (url : str) (best : node) :
  selected_table soup = Some best ->
  qualifying_table best = true ->
  exists df,
    parse_survey_page soup url = Ok df
    /\ length (rows df)
       = length (filter (fun tr =>
                           negb (length (find_all [lit "td"; lit "th"] tr)
                                 =? 0))
                        (find_all [lit "tr"] best)).
Proof.
  intros Hsel Hq.
  destruct (parse_survey_page_eq soup url) as [ids [_ E]].
  eexists. split; [exact E|]. cbn [rows]. rewrite length_map.
  unfold survey_pairs. rewrite Hsel, Hq. unfold table_pairs.
  rewrite table_pairs_length. f_equal. apply filter_ext.
  intros tr. unfold cells. rewrite length_map. reflexivity.
Qed.

Lemma table_records_count_witness :
  selected_table Samples.ragged_page = Some Samples.ragged_table
  /\ qualifying_table Samples.ragged_table = true
  /\ exists df,
      parse_survey_page Samples.ragged_page Samples.url = Ok df
      /\ length (rows df)
         = length (filter (fun tr =>
                             negb (length (find_all [lit "td"; lit "th"] tr)
                                   =? 0))
                          (find_all [lit "tr"] Samples.ragged_table)).
Proof.
  split; [reflexivity|]. split; [reflexivity|].
  apply (table_records_count Samples.ragged_page Samples.url
                             (best := Samples.ragged_table));
    reflexivity.
Defined.

(** X7: an identifier that is extracted is a whole token of the text,
    in the token characters of the search that found it: it is not
    empty, a separator (colon, tab or space) stands before it, all its
    characters are token characters, and no token character follows
    it.  The full stop is a token character for the accession and for
    an identifier found behind "Sample ID" or "Barcode", which is used
    only when no place matches "Biosample"; it is none for an
    identifier found behind "Biosample". *)
Theorem identifier_is_whole_token (text : Unicode.ustr)
        (biosample_id accession_id : option Unicode.ustr) :
  Unicode.identifiers text = Ok (biosample_id, accession_id) ->
  (forall tok, accession_id = Some tok -> whole_token true text tok)
  /\ (forall tok,
      biosample_id = Some tok ->
      (first_match [lit "Biosample"] false text tok
       /\ whole_token false text tok)
      \/ (no_match [lit "Biosample"] false text
          /\ first_match [lit "Sample ID"; lit "Barcode"] true text tok
          /\ whole_token true text tok)).
Proof.
  rewrite identifiers_find_label. intros E. apply Ok_inj in E.
  injection E as Eb Ea. split.
  - intros tok H. subst accession_id.
    apply (@first_match_whole_token [lit "Accession"]).
    apply find_label_sound. exact H.
  - intros tok H. subst biosample_id.
    destruct (find_label [lit "Biosample"] false text) as [t|] eqn:F.
    + left. injection H as ->.
      pose proof (find_label_sound _ _ _ F) as M.
      split; [exact M | exact (first_match_whole_token M)].
    + right. pose proof (find_label_sound _ _ _ H) as M.
      split; [apply find_label_none; exact F|].
      split; [exact M | exact (first_match_whole_token M)].
Qed.

Lemma identifier_is_whole_token_witness :
  Unicode.identifiers
    (Unicode.of_str (lit "Biosample: A.5 Accession: X.1"))
  = Ok (Some (Unicode.of_str (lit "A")), Some (Unicode.of_str (lit "X.1")))
  /\ whole_token true (Unicode.of_str (lit "Biosample: A.5 Accession: X.1"))
                 (Unicode.of_str (lit "X.1"))
  /\ whole_token false (Unicode.of_str (lit "Biosample: A.5 Accession: X.1"))
                 (Unicode.of_str (lit "A")).
Proof.
  assert (E : Unicode.identifiers
                (Unicode.of_str (lit "Biosample: A.5 Accession: X.1"))
              = Ok (Some (Unicode.of_str (lit "A")),
                    Some (Unicode.of_str (lit "X.1"))))
    by (vm_compute; reflexivity).
  split; [exact E|].
  destruct (identifier_is_whole_token E) as [Ha Hb].
  split; [apply Ha; reflexivity|].
  destruct (Hb (Unicode.of_str (lit "A")) eq_refl) as [[_ H]|[N _]];
    [exact H|].
  exfalso.
  apply (N [] (Unicode.of_str (lit "Biosample: A.5 Accession: X.1"))
           (Unicode.of_str (lit "A")) eq_refl).
  exists (lit "Biosample"). split; [left; reflexivity|].
  exists (Unicode.of_str (lit "Biosample")), (Unicode.of_str (lit ": ")),
    (Unicode.of_str (lit ".5 Accession: X.1")).
  split; [reflexivity|]. split; [repeat constructor|].
  split; [discriminate|]. split; [reflexivity|].
  split; [discriminate|]. split; reflexivity.
Defined.

(* ================================================================== *)
(** * Further properties: filtering *)
(* ================================================================== *)

Lemma slice_to_map {A B} (f : A -> B) (l : list A) (n : Z) :
  slice_to (map f l) n = map f (slice_to l n).
Proof.
  unfold slice_to. rewrite length_map.
  destruct (0 <=? n)%Z; apply firstn_map_comm.
Qed.

(** [filter_responses] for any limit, with the slice of Python. *)
Lemma filter_responses_slice (df : DataFrame) (contains : str) (n : Z) :
  columns df = survey_columns ->
  Forall (fun row => length row = 5) (rows df) ->
  no_metachar contains ->
  filter_responses df contains n
  = Ok {| columns := survey_columns ++ [col "id"];
          rows :=
            map (fun row => row ++ [Some (composite_id row)])
                (filter
                   (fun row =>
                      existsb (str_eqb (composite_id row))
                              (slice_to
                                 (distinct []
                                    (map composite_id
                                         (filter (response_contains contains)
                                                 (rows df))))
                                 n))
                   (filter (response_contains contains) (rows df))) |}.
Proof.
  intros Hc Hr Hm. unfold filter_responses.
  unfold getitem at 1. rewrite Hc.
  change (index_of (col "response") survey_columns) with (Some 1).
  cbn [bind]. unfold str_lower.
  rewrite str_contains_literal by (apply no_metachar_lower; assumption).
  cbn [bind]. rewrite !map_map.
  replace (map _ (rows df)) with (map (response_contains contains) (rows df)).
  2:{ apply map_ext. intros row.
      exact (response_contains_cell contains (nth 1 row None)). }
  unfold bool_index at 1 2 3 4. rewrite select_map, Hc.
  set (R := filter (response_contains contains) (rows df)).
  assert (HR : forall row, In row R -> length row = 5).
  { intros row Hin. apply filter_In in Hin. destruct Hin as [Hin _].
    rewrite Forall_forall in Hr. apply Hr. exact Hin. }
  unfold getitem at 1 2 3. cbn [columns rows].
  change (index_of (col "biosample_id") survey_columns) with (Some 2).
  change (index_of (col "accession_id") survey_columns) with (Some 3).
  change (index_of (col "source_url") survey_columns) with (Some 4).
  cbn [bind]. rewrite id_series.
  unfold setitem_series. cbn [columns rows].
  rewrite length_map, Nat.eqb_refl.
  change (index_of (col "id") survey_columns) with (@None nat).
  cbn [bind]. rewrite combine_map_snd, map_map. cbn [fst snd].
  unfold getitem. cbn [columns rows].
  change (index_of (col "id") (survey_columns ++ [col "id"])) with (Some 5).
  cbn [bind]. rewrite map_map.
  match goal with
  | |- context [isin ?m _] =>
      replace m with (map (@Some str) (map composite_id R))
  end.
  2:{ rewrite map_map. apply map_ext_in. intros row Hin.
      rewrite <- (HR row Hin). symmetry. apply nth_after. }
  unfold unique.
  pose proof (unique_distinct [] (map composite_id R)) as U.
  change (map Some []) with (@nil cell) in U.
  rewrite U, slice_to_map.
  unfold isin, bool_index. cbn [columns rows].
  rewrite !map_map. f_equal. f_equal.
  rewrite <- select_map2. f_equal. apply map_ext. intros row.
  rewrite existsb_map_comp. reflexivity.
Qed.


Lemma existsb_str_In (x : str) (l : list str) :
  existsb (str_eqb x) l = true <-> In x l.
Proof.
  rewrite existsb_exists. split.
  - intros [y [Hy E]]. apply str_eqb_eq in E. subst; assumption.
  - intros H. exists x. split; [assumption | apply str_eqb_refl].
Qed.







Lemma filter_none {A} (f : A -> bool) (l : list A) :
  (forall x, In x l -> f x = false) -> filter f l = [].
Proof.
  induction l as [|x l IH]; intros H; [reflexivity|].
  cbn [filter]. rewrite (H x) by (left; reflexivity).
  apply IH. intros y Hy. apply H. right; assumption.
Qed.

Lemma filter_all {A} (f : A -> bool) (l : list A) :
  (forall x, In x l -> f x = true) -> filter f l = l.
Proof.
  induction l as [|x l IH]; intros H; [reflexivity|].
  cbn [filter]. rewrite (H x) by (left; reflexivity).
  f_equal. apply IH. intros y Hy. apply H. right; assumption.
Qed.

(** X10: with the limit 0 nothing comes back, whatever the filter string
    finds; the frame keeps its six columns. *)
Theorem filter_responses_limit_zero (df : DataFrame) (contains : str) :
  columns df = survey_columns ->
  Forall (fun row => length row = 5) (rows df) ->
  no_metachar contains ->
  filter_responses df contains 0
  = Ok {| columns := [col "question"; col "response"; col "biosample_id";
                      col "accession_id"; col "source_url"; col "id"];
          rows := [] |}.
Proof.
  intros Hc Hr Hm. rewrite filter_responses_slice by assumption.
  f_equal. f_equal. unfold slice_to. cbn [Z.leb Z.to_nat firstn existsb].
  rewrite filter_none; [reflexivity|]. intros; reflexivity.
Qed.

Lemma filter_responses_limit_zero_witness :
  columns Samples.demo_frame = survey_columns
  /\ Forall (fun row => length row = 5) (rows Samples.demo_frame)
  /\ no_metachar (lit "o")
  /\ filter_responses Samples.demo_frame (lit "o") 0
     = Ok {| columns := [col "question"; col "response"; col "biosample_id";
                         col "accession_id"; col "source_url"; col "id"];
             rows := [] |}.
Proof.
  split; [reflexivity|]. split; [repeat constructor|].
  split; [reflexivity|].
  apply (@filter_responses_limit_zero Samples.demo_frame (lit "o"));
    [reflexivity | repeat constructor | reflexivity].
Defined.

(** X11: the empty filter string finds every response that is there:
    only the rows with a missing response are dropped before the limit
    on the individuals is applied. *)
Theorem filter_responses_empty_string (df : DataFrame) (n : Z) :
  columns df = survey_columns ->
  Forall (fun row => length row = 5) (rows df) ->
  (0 <= n)%Z ->
  exists out,
    filter_responses df [] n = Ok out
    /\ rows out
       = map (fun row => row ++ [Some (composite_id row)])
             (first_individuals
                (Z.to_nat n)
                (filter (fun row => match response_of row with
                                    | Some _ => true
                                    | None => false
                                    end) (rows df))).
Proof.
  intros Hc Hr Hn.
  rewrite filter_responses_eq by (assumption || reflexivity).
  eexists. split; [reflexivity|]. cbn [rows]. do 2 f_equal.
  apply filter_ext. intros row. unfold response_contains.
  destruct (response_of row) as [x|]; [|reflexivity].
  rewrite substringb_unfold. reflexivity.
Qed.

Lemma filter_responses_empty_string_witness :
  columns Samples.demo_frame = survey_columns
  /\ Forall (fun row => length row = 5) (rows Samples.demo_frame)
  /\ (0 <= 5)%Z
  /\ exists out,
      filter_responses Samples.demo_frame [] 5 = Ok out
      /\ length (rows out) = 4.
Proof.
  split; [reflexivity|]. split; [repeat constructor|]. split; [lia|].
  destruct (@filter_responses_empty_string Samples.demo_frame 5)
    as [out [E R]]; [reflexivity | repeat constructor | lia |].
  exists out. split; [exact E|]. rewrite R. reflexivity.
Defined.

Lemma first_individuals_one (k : nat) (c0 : str) (rs : list (list cell)) :
  (forall row, In row rs -> composite_id row = c0) ->
  1 <= k ->
  first_individuals k rs = rs.
Proof.
  intros H Hk. unfold first_individuals. apply filter_all.
  intros row Hin. apply existsb_str_In.
  destruct rs as [|r0 rs]; [destruct Hin|].
  cbn [map distinct existsb]. destruct k as [|k]; [lia|].
  cbn [firstn]. left. rewrite (H r0) by (left; reflexivity).
  symmetry. apply H. exact Hin.
Qed.

(** X12: the frame of one page can always be filtered, and a page is one
    individual: with a limit of one or more, every row of the page whose
    response holds the filter string is kept. *)
Theorem filter_one_page (soup : node) (url contains : str) (n : Z) :
  no_metachar contains ->
  (1 <= n)%Z ->
  exists df out,
    parse_survey_page soup url = Ok df
    /\ filter_responses df contains n = Ok out
    /\ rows out
       = map (fun row => row ++ [Some (composite_id row)])
             (filter (fun row =>
                        match response_of row with
                        | Some x => substringb (lower contains) (lower x)
                        | None => false
                        end) (rows df)).
Proof.
  intros Hm Hn.
  destruct (parse_survey_page_eq soup url) as [[b a] [_ E]].
  eexists. eexists. split; [exact E|].
  set (R := map _ (survey_pairs soup)).
  assert (Hshape : forall row, In row R ->
                     exists q r, row = [Some q; r; b; a; Some url]).
  { intros row Hin. apply in_map_iff in Hin. destruct Hin as [qr [<- Hqr]].
    destruct (survey_pairs_shape _ _ Hqr) as [q [r ->]].
    exists q, r. reflexivity. }
  assert (HR : Forall (fun row => length row = 5) R).
  { apply Forall_forall. intros row Hin.
    destruct (Hshape row Hin) as [q [r ->]]. reflexivity. }
  assert (H0 : (0 <= n)%Z) by lia.
  rewrite (@filter_responses_eq {| columns := survey_columns; rows := R |}
             contains n eq_refl HR Hm H0).
  split; [reflexivity|]. cbn [rows]. f_equal.
  apply first_individuals_one
    with (c0 := text_of b ++ lit "_" ++ text_of a ++ lit "_" ++ url);
    [|lia].
  intros row Hin. apply filter_In in Hin. destruct Hin as [Hin _].
  destruct (Hshape row Hin) as [q [r ->]]. reflexivity.
Qed.

Lemma filter_one_page_witness :
  no_metachar (lit "omni")
  /\ (1 <= 3)%Z
  /\ exists df out,
      parse_survey_page Samples.list_page Samples.url = Ok df
      /\ filter_responses df (lit "omni") 3 = Ok out
      /\ length (rows out) = 1.
Proof.
  split; [reflexivity|]. split; [lia|].
  destruct (@filter_one_page Samples.list_page Samples.url (lit "omni") 3)
    as [df [out [E [F R]]]]; [reflexivity | lia |].
  exists df, out. split; [exact E|]. split; [exact F|].
  rewrite R. vm_compute in E. apply Ok_inj in E. subst df. reflexivity.
Defined.

(* ================================================================== *)
(** * Further properties: the batch script *)
(* ================================================================== *)

(** X13: the usage line is for a wrong number of arguments only.  With
    two arguments and an input file that is not there, the script ends
    with the exception of [open], status 1, having printed nothing and
    written nothing. *)
Theorem main_missing_input (prog input_file output_file : str)
        (fs : Batch.files) :
  fs input_file = None ->
  Batch.ended (Batch.main [prog; input_file; output_file] fs)
  = Raise FileNotFoundError
  /\ Batch.exit_status (Batch.main [prog; input_file; output_file] fs) = 1%Z
  /\ Batch.stdout (Batch.main [prog; input_file; output_file] fs) = []
  /\ Batch.written (Batch.main [prog; input_file; output_file] fs) = None.
Proof.
  intros H. unfold Batch.exit_status, Batch.main.
  cbn [length Nat.eqb negb nth]. unfold Batch.open_read. rewrite H.
  repeat split.
Qed.

Lemma main_missing_input_witness :
  Samples.one_file (lit "ids.txt") Samples.two_ids (lit "other.txt") = None
  /\ Batch.ended (Batch.main [lit "biosample_scraper.py"; lit "other.txt";
                              lit "out.csv"]
                             (Samples.one_file (lit "ids.txt") Samples.two_ids))
     = Raise FileNotFoundError.
Proof.
  split; [reflexivity|].
  apply (@main_missing_input (lit "biosample_scraper.py") (lit "other.txt")
                             (lit "out.csv")
                             (Samples.one_file (lit "ids.txt") Samples.two_ids)).
  reflexivity.
Defined.

(** X14: a run whose input file can be read prints the opening line,
    then one "Processing" line for every identifier of the input file,
    in the order of the file.  When the output path can be written the
    run is successful and the two closing lines with the output path
    follow; when it cannot, the run ends there with the exception of
    [to_csv] and the closing lines are not printed. *)
Theorem main_prints_every_identifier (prog input_file output_file content : str)
        (fs : Batch.files) :
  fs input_file = Some content ->
  let opening :=
    lit "Attempting to fetch survey data... (will use demo data if unavailable)"
      ++ [Batch.LF] in
  let processing :=
    map (fun id => lit "Processing: " ++ id ++ lit " -> using demo data")
        (identifiers_of content) in
  (Batch.writable fs output_file = true ->
   Batch.ended (Batch.main [prog; input_file; output_file] fs) = Ok tt
   /\ Batch.stdout (Batch.main [prog; input_file; output_file] fs)
      = [opening] ++ processing
          ++ [Batch.LF :: lit "Saved CSV file: " ++ output_file;
              lit "Script complete."])
  /\ (Batch.writable fs output_file = false ->
      Batch.ended (Batch.main [prog; input_file; output_file] fs)
      = Raise OSError
      /\ Batch.stdout (Batch.main [prog; input_file; output_file] fs)
         = [opening] ++ processing).
Proof.
  intros Hfs opening processing.
  rewrite (@main_reads prog input_file output_file content fs Hfs).
  split; intros ->; cbn [Batch.ended Batch.stdout]; split; reflexivity.
Qed.

Lemma main_prints_every_identifier_witness :
  Samples.one_file (lit "ids.txt") Samples.two_ids (lit "ids.txt")
  = Some Samples.two_ids
  /\ Batch.writable (Samples.one_file (lit "ids.txt") Samples.two_ids)
                    (lit "out.csv") = true
  /\ Batch.stdout
       (Batch.main [lit "biosample_scraper.py"; lit "ids.txt"; lit "out.csv"]
                   (Samples.one_file (lit "ids.txt") Samples.two_ids))
     = [ lit "Attempting to fetch survey data... (will use demo data if unavailable)"
           ++ [Batch.LF];
         lit "Processing: S1 -> using demo data";
         lit "Processing: S2 -> using demo data";
         Batch.LF :: lit "Saved CSV file: out.csv";
         lit "Script complete." ]
  /\ Batch.writable (Samples.read_only (lit "ids.txt") Samples.two_ids)
                    (lit "out.csv") = false
  /\ Batch.stdout
       (Batch.main [lit "biosample_scraper.py"; lit "ids.txt"; lit "out.csv"]
                   (Samples.read_only (lit "ids.txt") Samples.two_ids))
     = [ lit "Attempting to fetch survey data... (will use demo data if unavailable)"
           ++ [Batch.LF];
         lit "Processing: S1 -> using demo data";
         lit "Processing: S2 -> using demo data" ].
Proof.
  split; [reflexivity|]. split; [reflexivity|]. split; [|split].
  - destruct (@main_prints_every_identifier
                (lit "biosample_scraper.py") (lit "ids.txt") (lit "out.csv")
                Samples.two_ids
                (Samples.one_file (lit "ids.txt") Samples.two_ids) eq_refl)
      as [H _].
    destruct (H eq_refl) as [_ E]. rewrite E. reflexivity.
  - reflexivity.
  - destruct (@main_prints_every_identifier
                (lit "biosample_scraper.py") (lit "ids.txt") (lit "out.csv")
                Samples.two_ids
                (Samples.read_only (lit "ids.txt") Samples.two_ids) eq_refl)
      as [_ H].
    destruct (H eq_refl) as [_ E]. rewrite E. reflexivity.
Defined.

Lemma one_line_head (l rest : str) :
  one_line l ->
  match l ++ Batch.CR :: rest with
  | [] => True
  | d :: _ => Ascii.eqb d Batch.LF = false
  end.
Proof.
  intros Hl. destruct l as [|c l]; [reflexivity|].
  unfold one_line in Hl. cbn [forallb] in Hl.
  apply andb_true_iff in Hl. destruct Hl as [Hc _].
  apply negb_true_iff, orb_false_iff in Hc. cbn [app]. tauto.
Qed.

Lemma file_lines_line_crlf (l cur rest : str) :
  one_line l ->
  Batch.file_lines cur (l ++ Batch.CR :: Batch.LF :: rest)
  = (cur ++ l ++ [Batch.LF]) :: Batch.file_lines [] rest.
Proof.
  unfold one_line. revert cur; induction l as [|c l IH]; intros cur H;
    rewrite file_lines_unfold; cbn [app].
  - reflexivity.
  - cbn [forallb] in H. apply andb_true_iff in H. destruct H as [Hc Hl].
    apply negb_true_iff, orb_false_iff in Hc. destruct Hc as [-> ->].
    rewrite IH by assumption. rewrite <- app_assoc. reflexivity.
Qed.

Lemma file_lines_line_cr (l cur rest : str) :
  one_line l ->
  match rest with
  | [] => True
  | d :: _ => Ascii.eqb d Batch.LF = false
  end ->
  Batch.file_lines cur (l ++ Batch.CR :: rest)
  = (cur ++ l ++ [Batch.LF]) :: Batch.file_lines [] rest.
Proof.
  unfold one_line. revert cur; induction l as [|c l IH]; intros cur H Hrest;
    rewrite file_lines_unfold; cbn [app].
  - change (Ascii.eqb Batch.CR Batch.LF) with false.
    rewrite Ascii.eqb_refl. cbv iota.
    destruct rest as [|d rest]; [reflexivity|]. rewrite Hrest. reflexivity.
  - cbn [forallb] in H. apply andb_true_iff in H. destruct H as [Hc Hl].
    apply negb_true_iff, orb_false_iff in Hc. destruct Hc as [-> ->].
    rewrite IH by assumption. rewrite <- app_assoc. reflexivity.
Qed.

Lemma file_lines_any_end (eol : str) (lines : list str) :
  line_end eol ->
  Forall one_line lines ->
  Batch.file_lines [] (concat (map (fun l => l ++ eol) lines))
  = map (fun l => l ++ [Batch.LF]) lines.
Proof.
  intros [-> | [-> | ->]] H.
  - apply file_lines_of_lines. exact H.
  - induction H as [|l lines Hl _ IH]; [reflexivity|].
    cbn [map concat]. rewrite <- app_assoc. cbn [app].
    rewrite file_lines_line_crlf by assumption. rewrite IH. reflexivity.
  - induction H as [|l lines Hl Hls IH]; [reflexivity|].
    cbn [map concat]. rewrite <- app_assoc. cbn [app].
    rewrite file_lines_line_cr; [rewrite IH; reflexivity | assumption |].
    destruct Hls as [|l' lines' Hl' _]; [exact I|].
    cbn [map concat]. rewrite <- app_assoc. cbn [app].
    apply one_line_head; assumption.
Qed.

(** X15: the three line endings read alike: whether the lines of the
    input file end in a line feed, in a carriage return and a line feed,
    or in a carriage return, the identifiers are the non-blank lines,
    trimmed, in order. *)
Theorem identifiers_any_line_end (eol : str) (lines : list str) :
  eol = [Batch.LF] \/ eol = [Batch.CR; Batch.LF] \/ eol = [Batch.CR] ->
  Forall one_line lines ->
  map strip
      (filter (fun line => nonempty (strip line))
              (Batch.file_lines [] (concat (map (fun l => l ++ eol) lines))))
  = map strip (filter (fun l => nonempty (strip l)) lines).
Proof.
  intros He H. rewrite (file_lines_any_end He H). clear H He.
  induction lines as [|l lines IH]; [reflexivity|].
  cbn [map filter]. rewrite strip_line.
  destruct (nonempty (strip l)); cbn [map]; rewrite IH, ?strip_line;
    reflexivity.
Qed.

Lemma identifiers_any_line_end_witness :
  ([Batch.CR; Batch.LF] = [Batch.LF]
   \/ [Batch.CR; Batch.LF] = [Batch.CR; Batch.LF]
   \/ [Batch.CR; Batch.LF] = [Batch.CR])
  /\ Forall one_line [lit "S1"; lit " "; lit "S2 "]
  /\ map strip
         (filter (fun line => nonempty (strip line))
                 (Batch.file_lines
                    []
                    (concat (map (fun l => l ++ [Batch.CR; Batch.LF])
                                 [lit "S1"; lit " "; lit "S2 "]))))
     = [lit "S1"; lit "S2"].
Proof.
  split; [right; left; reflexivity|].
  split; [repeat constructor|].
  rewrite (@identifiers_any_line_end [Batch.CR; Batch.LF]
             [lit "S1"; lit " "; lit "S2 "]);
    [reflexivity | right; left; reflexivity | repeat constructor].
Defined.







(* ================================================================== *)
(** * Further properties: scraping a topic *)
(* ================================================================== *)

Lemma parse_survey_page_frame (soup : node) (url : str) :
  parse_survey_page soup url
  = Ok {| columns := survey_columns; rows := page_rows soup url |}
  /\ Forall (fun row => length row = 5) (page_rows soup url).
Proof.
  unfold page_rows.
  destruct (parse_survey_page_eq soup url) as [ids [_ E]]. rewrite E.
  split; [reflexivity|]. cbn [rows].
  apply Forall_forall. intros row Hin. apply in_map_iff in Hin.
  destruct Hin as [qr [<- Hqr]].
  destruct (survey_pairs_shape _ _ Hqr) as [q [r ->]]. reflexivity.
Qed.

(** One search result, when the fetcher fails with ordinary exceptions
    only: a frame, or an exception that is caught. *)
Lemma scrape_page_cases (fetch_page : str -> result node) (pages : DataFrame)
      (row : list cell) :
  ordinary fetch_page ->
  match fetched_row fetch_page pages row with
  | [] => exists e, Topic.scrape_page fetch_page pages row = Raise e
                    /\ Topic.caught e = true
  | su :: _ =>
      fetched_row fetch_page pages row = [su]
      /\ Topic.scrape_page fetch_page pages row
         = Ok {| columns := survey_columns;
                 rows := page_rows (fst su) (snd su) |}
  end.
Proof.
  intros Hord. unfold fetched_row, Topic.scrape_page.
  destruct (Batch.row_get pages row (col "url")) as [[u|]|e] eqn:G;
    cbn [bind].
  - destruct (fetch_page u) as [soup|e] eqn:F; cbn [bind].
    + split; [reflexivity|]. apply parse_survey_page_frame.
    + exists e. split; [reflexivity|]. exact (Hord u e F).
  - exists ValueError. split; reflexivity.
  - exists e. split; [reflexivity|].
    unfold Batch.row_get in G.
    destruct (index_of (col "url") (columns pages)); [discriminate|].
    injection G as <-. reflexivity.
Qed.

Lemma scrape_pages_eq (fetch_page : str -> result node) (pages : DataFrame)
      (rs : list (list cell)) (acc : list DataFrame) :
  ordinary fetch_page ->
  Topic.scrape_pages fetch_page pages rs acc
  = Ok (acc ++ map (fun su => {| columns := survey_columns;
                                 rows := page_rows (fst su) (snd su) |})
                   (flat_map (fetched_row fetch_page pages) rs)).
Proof.
  intros Hord. revert acc; induction rs as [|row rs IH]; intros acc.
  - cbn [Topic.scrape_pages flat_map map]. rewrite app_nil_r. reflexivity.
  - cbn [Topic.scrape_pages flat_map].
    pose proof (scrape_page_cases pages row Hord) as C.
    destruct (fetched_row fetch_page pages row) as [|su l].
    + destruct C as [e [-> Hc]]. rewrite Hc. apply IH.
    + destruct C as [El ->]. injection El as ->.
      rewrite IH. cbn [app map]. rewrite <- app_assoc. reflexivity.
Qed.

Lemma dedup_labels_seen (seen l : list label) :
  (forall x, In x l -> existsb (label_eqb x) seen = true) ->
  Topic.dedup_labels seen l = [].
Proof.
  induction l as [|x l IH]; intros H; [reflexivity|].
  cbn [Topic.dedup_labels]. rewrite (H x) by (left; reflexivity).
  apply IH. intros y Hy. apply H. right; assumption.
Qed.

Lemma reindex_survey_row (df : DataFrame) (r : list cell) :
  columns df = survey_columns -> length r = 5 ->
  Topic.reindex_row df survey_columns r = r.
Proof.
  intros Hc Hr. unfold Topic.reindex_row. rewrite Hc.
  destruct r as [|c0 [|c1 [|c2 [|c3 [|c4 [|c5 r]]]]]]; try discriminate.
  reflexivity.
Qed.

(** Frames of survey columns put one after the other. *)
Lemma concat_survey_frames (f : DataFrame) (fs : list DataFrame) :
  Forall (fun df => columns df = survey_columns
                    /\ Forall (fun row => length row = 5) (rows df))
         (f :: fs) ->
  Topic.concat (f :: fs)
  = Ok {| columns := survey_columns;
          rows := flat_map rows (f :: fs) |}.
Proof.
  intros H. unfold Topic.concat.
  assert (K : Topic.dedup_labels [] (flat_map columns (f :: fs))
              = survey_columns).
  { cbn [flat_map]. rewrite (proj1 (Forall_inv H)).
    transitivity (survey_columns
                    ++ Topic.dedup_labels (rev survey_columns)
                                          (flat_map columns fs));
      [reflexivity|].
    rewrite dedup_labels_seen; [apply app_nil_r|].
    intros x Hx. apply in_flat_map in Hx. destruct Hx as [df [Hdf Hx]].
    apply Forall_inv_tail in H. rewrite Forall_forall in H.
    rewrite (proj1 (H df Hdf)) in Hx.
    cbn [survey_columns In] in Hx.
    destruct Hx as [<-|[<-|[<-|[<-|[<-|[]]]]]]; reflexivity. }
  cbv zeta. rewrite K. f_equal. f_equal. clear K.
  rewrite Forall_forall in H.
  induction (f :: fs) as [|df dfs IH]; [reflexivity|].
  cbn [flat_map]. rewrite IH by (intros; apply H; right; assumption).
  f_equal. destruct (H df (or_introl eq_refl)) as [Hc Hr].
  rewrite <- (map_id (rows df)) at 2. apply map_ext_in. intros r Hin.
  rewrite Forall_forall in Hr. apply reindex_survey_row; auto.
Qed.

Lemma flat_map_nil {A B} (f : A -> list B) (l : list A) :
  (forall x, f x = []) -> flat_map f l = [].
Proof.
  intros H. induction l as [|x l IH]; [reflexivity|].
  cbn [flat_map]. rewrite H, IH. reflexivity.
Qed.

Lemma empty_fetched (fetch_page : str -> result node) (pages : DataFrame) :
  Topic.empty pages = true -> fetched fetch_page pages = [].
Proof.
  unfold Topic.empty, fetched. destruct (rows pages) as [|r rs] eqn:R;
    [reflexivity|].
  destruct (columns pages) as [|c cs] eqn:C; [|discriminate].
  intros _. apply flat_map_nil.
  intros row. unfold fetched_row, Batch.row_get. rewrite C. reflexivity.
Qed.

(** [scrape_topic] when the search answers and the fetcher fails with
    ordinary exceptions only. *)
Lemma scrape_topic_eq (ddg_search : str -> Z -> result DataFrame)
      (fetch_page : str -> result node) (topic : str) (max_pages : Z)
      (pages : DataFrame) :
  ordinary fetch_page ->
  ddg_search topic max_pages = Ok pages ->
  Topic.scrape_topic ddg_search fetch_page topic max_pages
  = match fetched fetch_page pages with
    | [] => DEMO_DATA
    | _ :: _ =>
        Ok {| columns := survey_columns;
              rows := pages_rows (fetched fetch_page pages) |}
    end.
Proof.
  intros Hord Hd. unfold Topic.scrape_topic. rewrite Hd. cbn [bind].
  destruct (Topic.empty pages) eqn:Em.
  - rewrite (empty_fetched fetch_page pages Em). reflexivity.
  - rewrite scrape_pages_eq by assumption. cbn [bind app].
    fold (fetched fetch_page pages).
    destruct (fetched fetch_page pages) as [|su l]; [reflexivity|].
    cbn [map]. rewrite concat_survey_frames.
    + f_equal. f_equal. unfold pages_rows. cbn [flat_map rows].
      f_equal. apply flat_map_map_comp.
    + change (Forall (fun df => columns df = survey_columns
                                /\ Forall (fun row => length row = 5) (rows df))
                     (map (fun su => {| columns := survey_columns;
                                        rows := page_rows (fst su) (snd su) |})
                          (su :: l))).
      apply Forall_forall. intros df Hin. apply in_map_iff in Hin.
      destruct Hin as [x [<- _]]. split; [reflexivity|].
      apply parse_survey_page_frame.
Qed.

Lemma DEMO_DATA_frame :
  DEMO_DATA = Ok Samples.demo_frame
  /\ columns Samples.demo_frame = survey_columns
  /\ Forall (fun row => length row = 5) (rows Samples.demo_frame).
Proof. split; [reflexivity|]. split; [reflexivity | repeat constructor]. Qed.

Lemma pages_rows_length (pages : list (node * str)) :
  Forall (fun row => length row = 5) (pages_rows pages).
Proof.
  apply Forall_forall. intros row Hin. unfold pages_rows in Hin.
  apply in_flat_map in Hin. destruct Hin as [su [_ Hin]].
  pose proof (proj2 (parse_survey_page_frame (fst su) (snd su))) as F.
  rewrite Forall_forall in F. apply F. exact Hin.
Qed.

(** X17: when the search answers, [scrape_topic] swallows every failure
    of a page and returns a survey frame: the five columns, five cells
    in every row.  That frame can always be filtered: with a filter
    string without metacharacters [filter_responses] does not raise on
    it, whatever the limit. *)
Theorem scrape_topic_survey_frame
        (ddg_search : str -> Z -> result DataFrame)
        (fetch_page : str -> result node) (topic : str) (max_pages : Z)
        (pages : DataFrame) :
  (forall u e, fetch_page u = Raise e -> Topic.caught e = true) ->
  ddg_search topic max_pages = Ok pages ->
  exists df,
    Topic.scrape_topic ddg_search fetch_page topic max_pages = Ok df
    /\ columns df = [col "question"; col "response"; col "biosample_id";
                     col "accession_id"; col "source_url"]
    /\ Forall (fun row => length row = 5) (rows df)
    /\ (forall contains n,
        no_metachar contains ->
        exists out, filter_responses df contains n = Ok out).
Proof.
  intros Hord Hd.
  assert (W : exists df,
             Topic.scrape_topic ddg_search fetch_page topic max_pages = Ok df
             /\ columns df = survey_columns
             /\ Forall (fun row => length row = 5) (rows df)).
  { rewrite (@scrape_topic_eq ddg_search fetch_page topic max_pages pages
             Hord Hd).
    destruct (fetched fetch_page pages) as [|su l].
    - exists Samples.demo_frame. apply DEMO_DATA_frame.
    - eexists. split; [reflexivity|]. split; [reflexivity|].
      apply pages_rows_length. }
  destruct W as [df [E [Hc Hr]]].
  exists df. split; [exact E|]. split; [exact Hc|]. split; [exact Hr|].
  intros contains n Hm. eexists.
  apply filter_responses_slice; assumption.
Qed.

Lemma scrape_topic_survey_frame_witness :
  (forall u e, fetch_first u = Raise e -> Topic.caught e = true)
  /\ search_two (lit "diet") 15 = Ok two_results
  /\ exists df,
      Topic.scrape_topic search_two fetch_first (lit "diet") 15 = Ok df
      /\ columns df = [col "question"; col "response"; col "biosample_id";
                       col "accession_id"; col "source_url"]
      /\ Forall (fun row => length row = 5) (rows df)
      /\ (forall contains n,
          no_metachar contains ->
          exists out, filter_responses df contains n = Ok out).
Proof.
  assert (H : forall u e, fetch_first u = Raise e -> Topic.caught e = true).
  { intros u e. unfold fetch_first.
    destruct (str_eqb u (lit "http://a")); [discriminate|].
    intros E. injection E as <-. reflexivity. }
  split; [exact H|]. split; [reflexivity|].
  apply (@scrape_topic_survey_frame search_two fetch_first (lit "diet") 15
                                    two_results H eq_refl).
Defined.

(** X18: the demo data stand in when no page could be fetched: no search
    result, or a failure for every result.  A failure of the search
    itself is not caught: it leaves [scrape_topic] as it is. *)
Theorem scrape_topic_demo_fallback
        (ddg_search : str -> Z -> result DataFrame)
        (fetch_page : str -> result node) (topic : str) (max_pages : Z) :
  (forall e, ddg_search topic max_pages = Raise e ->
             Topic.scrape_topic ddg_search fetch_page topic max_pages
             = Raise e)
  /\ (forall pages,
      (forall u e, fetch_page u = Raise e -> Topic.caught e = true) ->
      ddg_search topic max_pages = Ok pages ->
      (rows pages = []
       \/ forall row u, In row (rows pages) ->
                        Batch.row_get pages row (col "url") = Ok (Some u) ->
                        exists e, fetch_page u = Raise e) ->
      Topic.scrape_topic ddg_search fetch_page topic max_pages = DEMO_DATA).
Proof.
  split.
  - intros e H. unfold Topic.scrape_topic. rewrite H. reflexivity.
  - intros pages Hord Hd Hnone.
    rewrite (@scrape_topic_eq ddg_search fetch_page topic max_pages pages
             Hord Hd).
    replace (fetched fetch_page pages) with (@nil (node * str));
      [reflexivity|].
    symmetry. unfold fetched. destruct Hnone as [-> | Hfail]; [reflexivity|].
    induction (rows pages) as [|row rs IH]; [reflexivity|].
    cbn [flat_map]. rewrite IH by (intros; eapply Hfail; eauto; right; eauto).
    rewrite app_nil_r. unfold fetched_row.
    destruct (Batch.row_get pages row (col "url")) as [[u|]|e] eqn:G;
      try reflexivity.
    destruct (Hfail row u (or_introl eq_refl) G) as [e ->]. reflexivity.
Qed.

Lemma scrape_topic_demo_fallback_witness :
  (forall u e, fetch_none u = Raise e -> Topic.caught e = true)
  /\ search_two (lit "diet") 15 = Ok two_results
  /\ Topic.scrape_topic search_two fetch_none (lit "diet") 15 = DEMO_DATA.
Proof.
  assert (H : forall u e, fetch_none u = Raise e -> Topic.caught e = true).
  { intros u e E. injection E as <-. reflexivity. }
  split; [exact H|]. split; [reflexivity|].
  apply (proj2 (@scrape_topic_demo_fallback search_two fetch_none
                                            (lit "diet") 15)
               two_results H eq_refl).
  right. intros row u _ _. exists ValueError. reflexivity.
Defined.

(** X19: as soon as one page is fetched, the result is made of the rows
    of the fetched pages and of nothing else, one page after the other
    in the order of the search results; the pages that fail leave no
    trace.  The demo data are not used then, even when the fetched pages
    give no row at all. *)
Theorem scrape_topic_rows
        (ddg_search : str -> Z -> result DataFrame)
        (fetch_page : str -> result node) (topic : str) (max_pages : Z)
        (pages : DataFrame) :
  (forall u e, fetch_page u = Raise e -> Topic.caught e = true) ->
  ddg_search topic max_pages = Ok pages ->
  fetched fetch_page pages <> [] ->
  exists df,
    Topic.scrape_topic ddg_search fetch_page topic max_pages = Ok df
    /\ rows df
       = flat_map (fun su => match parse_survey_page (fst su) (snd su) with
                             | Ok page => rows page
                             | Raise _ => []
                             end)
                  (fetched fetch_page pages).
Proof.
  intros Hord Hd Hne.
  rewrite (@scrape_topic_eq ddg_search fetch_page topic max_pages pages
             Hord Hd).
  destruct (fetched fetch_page pages) as [|su l]; [congruence|].
  eexists. split; reflexivity.
Qed.

Lemma scrape_topic_rows_witness :
  (forall u e, fetch_first u = Raise e -> Topic.caught e = true)
  /\ search_two (lit "diet") 15 = Ok two_results
  /\ fetched fetch_first two_results <> []
  /\ exists df,
      Topic.scrape_topic search_two fetch_first (lit "diet") 15 = Ok df
      /\ length (rows df) = 1.
Proof.
  assert (H : forall u e, fetch_first u = Raise e -> Topic.caught e = true).
  { intros u e. unfold fetch_first.
    destruct (str_eqb u (lit "http://a")); [discriminate|].
    intros E. injection E as <-. reflexivity. }
  assert (N : fetched fetch_first two_results <> [])
    by (vm_compute; discriminate).
  split; [exact H|]. split; [reflexivity|]. split; [exact N|].
  destruct (@scrape_topic_rows search_two fetch_first (lit "diet") 15
                               two_results H eq_refl N) as [df [E R]].
  exists df. split; [exact E|]. rewrite R. reflexivity.
Defined.
